(** * GEIA Madrid dashboard: the cleaning and unification pipeline

    A shallow embedding of [geia_streamlit_app.py] (the functions above the
    Streamlit page code, and the ranking section of the page) and the
    properties its specification states.

    Tables are pandas data frames.  A frame is modelled as its ordered
    column labels and its rows; a cell is missing ([NaN]/[NaT]/[None]), a
    number, a text or a timestamp.  Numbers are exact rationals in
    canonical form ([Qc]), the idealisation of pandas' [float64]: every
    binary float is a rational with a finite decimal expansion, and the
    arithmetic the pipeline performs on cells ([365 - x], group means) is
    carried out exactly.  Infinities are not represented: the statements
    about the numeric parser are about texts that spell none and stay
    within float64.  Writing a number as text and reading it back is exact
    here; the statements that rest on it are about short decimals, which
    float64 and its text hold exactly.  A computation that pandas refuses
    returns the error it raises. *)

From stdpp Require Import base option list gmap strings.
From Stdlib Require Import ZArith QArith Qcanon Qround Znumtheory Lia Sorted.
From Stdlib Require Import Ascii String.

(** Text concatenation computes under [simpl]. *)
Arguments String.append !_ _ / : simpl nomatch.

Close Scope Qc_scope.
Close Scope Q_scope.
Close Scope Z_scope.
Open Scope nat_scope.
Open Scope string_scope.
Open Scope list_scope.

(** Equalities between computed values that contain canonical rationals:
    evaluate, then compare the rationals by their fractions. *)
Ltac qc_eq :=
  lazymatch goal with
  | |- @eq Qc _ _ => apply Qc_is_canon; reflexivity
  | |- _ => first [ reflexivity | f_equal; qc_eq ]
  end.

Ltac by_eval := vm_compute; qc_eq.

(** ** Text primitives ([str.replace], [str.strip]) *)

Module Text.

(** [is_prefix p s]: the text [s] starts with [p]. *)
Fixpoint is_prefix (p s : string) : bool :=
  match p, s with
  | EmptyString, _ => true
  | String a p', String b s' => if Ascii.eqb a b then is_prefix p' s' else false
  | String _ _, EmptyString => false
  end.

(** [s.replace(pat, "", regex=False)]: every occurrence of the literal
    [pat], scanning left to right without overlap, is removed.  [skip]
    counts the characters of a matched occurrence still to be dropped. *)
Fixpoint remove_from (pat : string) (skip : nat) (s : string) : string :=
  match s with
  | EmptyString => EmptyString
  | String c s' =>
      match skip with
      | S k => remove_from pat k s'
      | O =>
          match pat with
          | EmptyString => String c (remove_from pat 0 s')
          | String _ p' =>
              if is_prefix pat s then remove_from pat (String.length p') s'
              else String c (remove_from pat 0 s')
          end
      end
  end.

Definition remove (pat s : string) : string := remove_from pat 0 s.

(** Texts are sequences of UTF-8 bytes.  Python's [str.isspace] holds of
    the one-byte characters space, [\t \n \v \f \r] and [\x1c]..[\x1f], and
    of U+0085, U+00A0, U+1680, U+2000..U+200A, U+2028, U+2029, U+202F,
    U+205F and U+3000, which take two or three bytes. *)
Definition is_space (c : ascii) : bool :=
  let n := nat_of_ascii c in
  (n =? 32)%nat || ((9 <=? n)%nat && (n <=? 13)%nat)
    || ((28 <=? n)%nat && (n <=? 31)%nat).

(** The first byte of a white space character of several bytes. *)
Definition is_space_lead (c : ascii) : bool :=
  let n := nat_of_ascii c in
  (n =? 194)%nat || (n =? 225)%nat || (n =? 226)%nat || (n =? 227)%nat.

(** The second and third bytes of a white space character of three bytes
    whose first byte is [n]. *)
Definition is_space_tail (n n1 n2 : nat) : bool :=
  ((n =? 225) && (n1 =? 154) && (n2 =? 128))%nat
  || ((n =? 226) && (n1 =? 128)
      && (((128 <=? n2) && (n2 <=? 138)) || (n2 =? 168) || (n2 =? 169) || (n2 =? 175)))%nat
  || ((n =? 226) && (n1 =? 129) && (n2 =? 159))%nat
  || ((n =? 227) && (n1 =? 128) && (n2 =? 128))%nat.

(** The number of bytes of the white space character the text starts
    with; [0] when it starts with none. *)
Definition space_width (s : string) : nat :=
  match s with
  | EmptyString => 0
  | String c s1 =>
      if is_space c then 1
      else if negb (is_space_lead c) then 0
      else
        match s1 with
        | EmptyString => 0
        | String c1 s2 =>
            if ((nat_of_ascii c =? 194)
                && ((nat_of_ascii c1 =? 133) || (nat_of_ascii c1 =? 160)))%nat then 2
            else
              match s2 with
              | EmptyString => 0
              | String c2 _ =>
                  if is_space_tail (nat_of_ascii c) (nat_of_ascii c1) (nat_of_ascii c2)
                  then 3 else 0
              end
        end
  end.

(** [skip] counts the bytes of a white space character still to be
    dropped. *)
Fixpoint lstrip_from (skip : nat) (s : string) : string :=
  match s with
  | EmptyString => EmptyString
  | String _ s' =>
      match skip with
      | S k => lstrip_from k s'
      | O =>
          match space_width s with
          | O => s
          | S k => lstrip_from k s'
          end
      end
  end.

Definition lstrip (s : string) : string := lstrip_from 0 s.

(** The text consists of white space characters only. *)
Fixpoint all_space_from (skip : nat) (s : string) : bool :=
  match s with
  | EmptyString => true
  | String _ s' =>
      match skip with
      | S k => all_space_from k s'
      | O =>
          match space_width s with
          | O => false
          | S k => all_space_from k s'
          end
      end
  end.

(** [rstrip] drops the longest end of the text that is white space. *)
Fixpoint rstrip (s : string) : string :=
  match s with
  | EmptyString => EmptyString
  | String c s' => if all_space_from 0 s then EmptyString else String c (rstrip s')
  end.

Definition strip (s : string) : string := rstrip (lstrip s).

Fixpoint contains (pat s : string) : bool :=
  match s with
  | EmptyString => match pat with EmptyString => true | _ => false end
  | String _ s' => is_prefix pat s || contains pat s'
  end.

Definition euro : string :=
  String "226"%char (String "130"%char (String "172"%char EmptyString)).

(** U+00A0, the no-break space. *)
Definition no_break_space : string :=
  String "194"%char (String "160"%char EmptyString).

End Text.

(** ** Numbers: what [pd.to_numeric] reads and what [astype(str)] writes *)

Module Numeric.

Definition digit_of (c : ascii) : option N :=
  let n := N_of_ascii c in
  if ((48 <=? n) && (n <=? 57))%N then Some (n - 48)%N else None.

Definition digit_char (d : N) : ascii := ascii_of_N (48 + d)%N.

(** Value of a run of decimal digits read left to right, [None] when a
    character is not a digit. *)
Fixpoint digits_acc (s : string) (acc : N) : option N :=
  match s with
  | EmptyString => Some acc
  | String c s' =>
      match digit_of c with
      | Some d => digits_acc s' (10 * acc + d)%N
      | None => None
      end
  end.

(** [split_at c s]: the text before the first [c], and the text after it
    when [c] occurs. *)
Fixpoint split_at (c : ascii) (s : string) : string * option string :=
  match s with
  | EmptyString => (EmptyString, None)
  | String a s' =>
      if Ascii.eqb a c then (EmptyString, Some s')
      else let '(l, r) := split_at c s' in (String a l, r)
  end.

(** An optional sign: [true] for a leading minus. *)
Definition read_sign (s : string) : bool * string :=
  match s with
  | String "-" s' => (true, s')
  | String "+" s' => (false, s')
  | _ => (false, s)
  end.

(** Digits with an optional fraction: the digits read as one integer and
    the number of digits after the point.  At least one digit is needed. *)
Definition read_mantissa (s : string) : option (N * nat) :=
  let '(ip, fp) := split_at "." s in
  let fp := default EmptyString fp in
  match String.length ip + String.length fp with
  | O => None
  | _ => m ← digits_acc (ip ++ fp) 0; Some (m, String.length fp)
  end.

(** The exponent part after [e]/[E]: a sign and at least one digit. *)
Definition read_exponent (s : string) : option Z :=
  let '(neg, ds) := read_sign s in
  match ds with
  | EmptyString => None
  | _ => e ← digits_acc ds 0; Some (if neg then - Z.of_N e else Z.of_N e)%Z
  end.

Definition split_exp (s : string) : string * option string :=
  match split_at "e" s with
  | (m, Some e) => (m, Some e)
  | (_, None) => split_at "E" s
  end.

(** The rational [± m * 10 ^ e]. *)
Definition scaled (neg : bool) (m : N) (e : Z) : Qc :=
  let z := (if neg then - Z.of_N m else Z.of_N m)%Z in
  match e with
  | Zneg p => Q2Qc (z # (10 ^ p))%Q
  | _ => Q2Qc ((z * 10 ^ e)%Z # 1)%Q
  end.

(** A decimal literal: [[+-]digits[.digits][e[+-]digits]]. *)
Definition read_decimal (s : string) : option Qc :=
  let '(neg, body) := read_sign s in
  let '(ms, es) := split_exp body in
  '(m, k) ← read_mantissa ms;
  e ← match es with Some t => read_exponent t | None => Some 0%Z end;
  Some (scaled neg m (e - Z.of_nat k)%Z).

(** C [isspace], which the numeric parser skips on both sides. *)
Definition is_cspace (c : ascii) : bool :=
  let n := nat_of_ascii c in
  (n =? 32)%nat || ((9 <=? n)%nat && (n <=? 13)%nat).

Fixpoint lskip (s : string) : string :=
  match s with
  | String c s' => if is_cspace c then lskip s' else s
  | EmptyString => EmptyString
  end.

Fixpoint rskip (s : string) : string :=
  match s with
  | EmptyString => EmptyString
  | String c s' =>
      match rskip s' with
      | EmptyString => if is_cspace c then EmptyString else String c EmptyString
      | r => String c r
      end
  end.

Definition lower (c : ascii) : ascii :=
  let n := nat_of_ascii c in
  if ((65 <=? n) && (n <=? 90))%nat then ascii_of_nat (n + 32) else c.

Fixpoint lowercase (s : string) : string :=
  match s with
  | EmptyString => EmptyString
  | String c s' => String (lower c) (lowercase s')
  end.

(** The spellings of an infinity, which [pd.to_numeric] reads as a float
    that the numbers of this model do not include. *)
Definition is_infinity_text (s : string) : bool :=
  let t := lowercase (rskip (lskip s)) in
  existsb (String.eqb t)
    ["inf"; "+inf"; "-inf"; "infinity"; "+infinity"; "-infinity"].

(** What the numeric parser makes of one text: [Some None] is a parsed
    missing value (the empty text only: a text that spells NaN does not
    parse), [Some (Some q)] a number, [None] a text that is not
    numeric.  The number is the exact value of the decimal literal;
    [pd.to_numeric] returns a float64 near it. *)
Definition parse (s : string) : option (option Qc) :=
  match s with
  | EmptyString => Some None
  | _ => q ← read_decimal (rskip (lskip s)); Some (Some q)
  end.

(** The texts on which the parser of the model and [pd.to_numeric] agree
    up to rounding: the text does not spell an infinity and, when it is a
    number, its magnitude is at most [10 ^ 18], within float64 and, for
    an integer literal, within int64 (pandas refuses a longer integer
    under [errors="ignore"] and reads it as a float under
    [errors="coerce"]). *)
Definition in_range (s : string) : bool :=
  negb (is_infinity_text s)
  && match parse s with
     | Some (Some q) => Qle_bool (- (10 ^ 18) # 1) q && Qle_bool q (10 ^ 18 # 1)
     | _ => true
     end.

(** *** Writing a number *)

(** [k] decimal digits of [n], most significant first (the value taken
    modulo [10 ^ k]). *)
Fixpoint fixed_digits (k : nat) (n : N) : string :=
  match k with
  | O => EmptyString
  | S k' => fixed_digits k' (n / 10)%N ++ String (digit_char (n mod 10)%N) EmptyString
  end.

Fixpoint strip_zeros (s : string) : string :=
  match s with
  | String "0" s' => strip_zeros s'
  | _ => s
  end.

Definition nat_digits (n : N) : string :=
  match strip_zeros (fixed_digits (N.size_nat n) n) with
  | EmptyString => "0"
  | s => s
  end.

(** The least [k], searched from [k] up to [k + fuel], such that [d]
    divides [10 ^ k]. *)
Fixpoint find_scale (d : positive) (fuel k : nat) : option nat :=
  if (10 ^ Z.of_nat k mod Zpos d =? 0)%Z then Some k
  else match fuel with
       | O => None
       | S f => find_scale d f (S k)
       end.

Definition render (neg : bool) (m : N) (k : nat) : string :=
  let p := (10 ^ N.of_nat k)%N in
  (if neg then "-" else "") ++ nat_digits (m / p)%N
    ++ match k with
       | O => ""
       | _ => "." ++ fixed_digits k (m mod p)%N
       end.

(** [str(x)] for a number: its exact decimal expansion when that is
    finite (always, for a binary float); seventeen decimals otherwise.
    A whole number is written without a fraction, as in an integer
    column; pandas writes a whole float with a trailing [.0], which
    reads back as the same number. *)
Definition to_text (q : Qc) : string :=
  let n := Qnum q in
  let d := Qden q in
  let neg := (n <? 0)%Z in
  match find_scale d (Pos.size_nat d) 0 with
  | Some k => render neg (Z.abs_N n * Z.to_N (10 ^ Z.of_nat k / Zpos d)%Z)%N k
  | None => render neg (Z.to_N (Z.abs n * 10 ^ 17 / Zpos d)%Z) 17
  end.

(** *** Vocabulary for the facts about texts of numbers *)

(** Every character of the text satisfies [p]. *)
Fixpoint all_chars (p : ascii -> bool) (s : string) : bool :=
  match s with
  | EmptyString => true
  | String c s' => p c && all_chars p s'
  end.

Definition is_digit (c : ascii) : bool :=
  match digit_of c with Some _ => true | None => false end.

(** The characters a number is written with. *)
Definition numeric_char (c : ascii) : bool :=
  is_digit c || Ascii.eqb c "-" || Ascii.eqb c ".".

(** The two parts of [render]: the digits after the sign. *)
Definition fraction_text (m : N) (k : nat) : string :=
  match k with
  | O => ""
  | _ => "." ++ fixed_digits k (m mod 10 ^ N.of_nat k)%N
  end.

Definition body_text (m : N) (k : nat) : string :=
  nat_digits (m / 10 ^ N.of_nat k)%N ++ fraction_text m k.

(** The decimal expansion of a fraction with denominator [d] is finite. *)
Definition terminating (d : positive) : Prop := exists j, (Zpos d | 10 ^ Z.of_nat j)%Z.

End Numeric.

(** ** Cells and frames *)

Inductive value : Type :=
  | NA                (* NaN, NaT, None: the missing value *)
  | Num (q : Qc)
  | Str (s : string)
  | Stamp (t : Z).    (* a timestamp, nanoseconds since the epoch *)

Definition value_eqb (a b : value) : bool :=
  match a, b with
  | NA, NA => true
  | Num p, Num q => Qeq_bool p q
  | Str s, Str t => String.eqb s t
  | Stamp s, Stamp t => Z.eqb s t
  | _, _ => false
  end.

Definition is_text (v : value) : bool :=
  match v with Str _ => true | _ => false end.

Definition is_na (v : value) : bool :=
  match v with NA => true | _ => false end.

Definition is_number (v : value) : bool :=
  match v with Num _ => true | _ => false end.

Definition is_stamp (v : value) : bool :=
  match v with Stamp _ => true | _ => false end.

Abbreviation row := (list value).

Fixpoint row_eqb (r s : row) : bool :=
  match r, s with
  | [], [] => true
  | a :: r', b :: s' => value_eqb a b && row_eqb r' s'
  | _, _ => false
  end.

(** A data frame: the column labels in order, and the rows, each holding
    one cell per label.  The row index is positional. *)
Record DataFrame : Type := mkDF {
  columns : list string;
  rows : list row
}.

(** [pd.DataFrame()] *)
Definition empty_frame : DataFrame := mkDF [] [].

(** [df.empty]: one of the axes has length zero. *)
Definition df_empty (df : DataFrame) : bool :=
  match columns df, rows df with
  | [], _ | _, [] => true
  | _, _ => false
  end.

(** [c in df.columns] *)
Definition has_column (df : DataFrame) (c : string) : bool :=
  existsb (String.eqb c) (columns df).

(** Position of the first label equal to [c]. *)
Fixpoint label_index (c : string) (cols : list string) : option nat :=
  match cols with
  | [] => None
  | x :: cols' =>
      if String.eqb c x then Some 0 else S <$> label_index c cols'
  end.

Definition cell (i : nat) (r : row) : value := nth i r NA.

(** [df[c]] as the list of its cells, for a label that is present. *)
Definition get_column (df : DataFrame) (c : string) : list value :=
  match label_index c (columns df) with
  | Some i => map (cell i) (rows df)
  | None => []
  end.

(** Cell-wise assignment of a list of cells to position [i] of the rows. *)
Fixpoint put_cells (i : nat) (rs : list row) (vs : list value) : list row :=
  match rs, vs with
  | r :: rs', v :: vs' => <[i := v]> r :: put_cells i rs' vs'
  | _, _ => rs
  end.

Fixpoint add_cells (rs : list row) (vs : list value) : list row :=
  match rs, vs with
  | r :: rs', v :: vs' => (r ++ [v]) :: add_cells rs' vs'
  | _, _ => rs
  end.

(** [df[c] = vs]: overwrites the column in place when the label exists,
    appends a new last column otherwise. *)
Definition set_column (df : DataFrame) (c : string) (vs : list value) : DataFrame :=
  match label_index c (columns df) with
  | Some i => mkDF (columns df) (put_cells i (rows df) vs)
  | None => mkDF (columns df ++ [c]) (add_cells (rows df) vs)
  end.

(** [df.rename(columns={old: new})] *)
Definition rename (old new : string) (df : DataFrame) : DataFrame :=
  mkDF (map (fun c => if String.eqb c old then new else c) (columns df)) (rows df).

(** The elements in order of first occurrence: an element equal to one
    already seen is dropped. *)
Fixpoint first_occurrences {A} (eqb : A -> A -> bool) (seen l : list A) : list A :=
  match l with
  | [] => []
  | x :: l' =>
      if existsb (eqb x) seen then first_occurrences eqb seen l'
      else x :: first_occurrences eqb (x :: seen) l'
  end.

(** [df.drop_duplicates()]: a row equal to an earlier one is dropped, the
    first occurrence is kept; missing cells compare equal. *)
Definition keep_first (seen : list row) (rs : list row) : list row :=
  first_occurrences row_eqb seen rs.

Definition drop_duplicates (df : DataFrame) : DataFrame :=
  mkDF (columns df) (keep_first [] (rows df)).

(** The calendar: how a text is read as a timestamp ([pd.to_datetime];
    [None] when it is not a date) and how a timestamp is written
    ([astype(str)]).  Both belong to pandas and dateutil; the pipeline is
    verified for any choice of them, and the examples run with
    [iso_dates] below. *)
Class Calendar : Type := {
  read_stamp : string -> option Z;
  stamp_text : Z -> string
}.

(** *** A calendar for the examples: ISO dates [YYYY-MM-DD] *)

Module Iso.

(** Days from 1970-01-01 to the civil date [y]-[m]-[d] (proleptic
    Gregorian calendar). *)
Definition days_from_civil (y m d : Z) : Z :=
  let y := if (m <=? 2)%Z then (y - 1)%Z else y in
  let era := (y / 400)%Z in
  let yoe := (y - era * 400)%Z in
  let mp := ((m + 9) mod 12)%Z in
  let doy := ((153 * mp + 2) / 5 + d - 1)%Z in
  let doe := (yoe * 365 + yoe / 4 - yoe / 100 + doy)%Z in
  (era * 146097 + doe - 719468)%Z.

(** The civil date of a day count: year, month, day. *)
Definition civil_from_days (days : Z) : Z * Z * Z :=
  let z := (days + 719468)%Z in
  let era := (z / 146097)%Z in
  let doe := (z - era * 146097)%Z in
  let yoe := ((doe - doe / 1460 + doe / 36524 - doe / 146096) / 365)%Z in
  let doy := (doe - (365 * yoe + yoe / 4 - yoe / 100))%Z in
  let mp := ((5 * doy + 2) / 153)%Z in
  let d := (doy - (153 * mp + 2) / 5 + 1)%Z in
  let m := if (mp <? 10)%Z then (mp + 3)%Z else (mp - 9)%Z in
  let y := (yoe + era * 400)%Z in
  (if (m <=? 2)%Z then (y + 1)%Z else y, m, d).

Definition leap (y : Z) : bool :=
  ((y mod 4 =? 0) && (negb (y mod 100 =? 0) || (y mod 400 =? 0)))%Z.

Definition days_in_month (y m : Z) : Z :=
  if (m =? 2)%Z then (if leap y then 29 else 28)%Z
  else if ((m =? 4) || (m =? 6) || (m =? 9) || (m =? 11))%Z then 30%Z
  else 31%Z.

Definition nanos_per_day : Z := 86400000000000.

Definition number (s : string) : option Z := Z.of_N <$> Numeric.digits_acc s 0.

(** [YYYY-MM-DD], a valid date, read as midnight of that day. *)
Definition read (s : string) : option Z :=
  if negb (String.length s =? 10)%nat then None
  else if negb (String.eqb (substring 4 1 s) "-" && String.eqb (substring 7 1 s) "-")
  then None
  else
    y ← number (substring 0 4 s);
    m ← number (substring 5 2 s);
    d ← number (substring 8 2 s);
    if ((1 <=? m) && (m <=? 12) && (1 <=? d) && (d <=? days_in_month y m))%Z
    then Some (days_from_civil y m d * nanos_per_day)%Z
    else None.

Definition digits (k : nat) (z : Z) : string := Numeric.fixed_digits k (Z.to_N z).

(** The date of the timestamp, and the time of day when it is not
    midnight. *)
Definition write (t : Z) : string :=
  let '(y, m, d) := civil_from_days (t / nanos_per_day) in
  let secs := ((t mod nanos_per_day) / 1000000000)%Z in
  (digits 4 y ++ "-" ++ digits 2 m ++ "-" ++ digits 2 d
   ++ if (secs =? 0)%Z then ""
      else " " ++ digits 2 (secs / 3600) ++ ":" ++ digits 2 (secs / 60 mod 60)
               ++ ":" ++ digits 2 (secs mod 60))%string.

End Iso.

Definition iso_dates : Calendar := {| read_stamp := Iso.read; stamp_text := Iso.write |}.

Section Coercions.
Context {cal : Calendar}.

(** [astype(str)] on one cell. *)
Definition as_text (v : value) : string :=
  match v with
  | NA => "nan"
  | Num q => Numeric.to_text q
  | Str s => s
  | Stamp t => stamp_text t
  end.

(** What the numeric parser makes of one cell; [None] when the cell is
    not numeric.  A timestamp is not a number. *)
Definition numeric_cell (v : value) : option value :=
  match v with
  | NA => Some NA
  | Num q => Some (Num q)
  | Str s => from_option Num NA <$> Numeric.parse s
  | Stamp _ => None
  end.

(** [pd.to_numeric(col, errors="coerce")]: cell by cell, what does not
    parse becomes missing. *)
Definition to_numeric_coerce (col : list value) : list value :=
  map (fun v => default NA (numeric_cell v)) col.

(** [pd.to_numeric(col, errors="ignore")]: the parsed column when every
    cell parses, the column itself as soon as one does not. *)
Definition to_numeric_ignore (col : list value) : list value :=
  match mapM numeric_cell col with
  | Some parsed => parsed
  | None => col
  end.

(** [pd.to_datetime(col, errors="coerce")] on one cell; a number counts
    nanoseconds since the epoch.  (pandas infers one format from the
    first text of a column and reads the others with it; the calendar
    stands for that reading, and no statement depends on which texts it
    accepts.) *)
Definition datetime_cell (v : value) : value :=
  match v with
  | NA => NA
  | Num q => Stamp (Qfloor q)
  | Str s => from_option Stamp NA (read_stamp s)
  | Stamp t => Stamp t
  end.

Definition to_datetime_coerce (col : list value) : list value :=
  map datetime_cell col.

(** [col.dtype == object]: the column holds text.  (Columns of numbers,
    of timestamps and of missing values have a numeric or datetime
    dtype.) *)
Definition is_object (col : list value) : bool := existsb is_text col.

End Coercions.

(** ** The cleaning pipeline *)

Section Pipeline.
Context {cal : Calendar}.

Definition default_price_columns : list string :=
  ["price"; "price_per_night"; "precio"; "price_m2"].

(** The chain [.str.replace("$", "").str.replace("€", "")
    .str.replace(",", "").str.strip()] on one text. *)
Definition price_text (s : string) : string :=
  Text.strip (Text.remove "," (Text.remove Text.euro (Text.remove "$" s))).

(** The body of the loop of [standardize_prices] for one candidate. *)
Definition standardize_column (cleaned : DataFrame) (column : string) : DataFrame :=
  if has_column cleaned column then
    let cleaned :=
      set_column cleaned column
        (map (fun v => Str (price_text (as_text v))) (get_column cleaned column)) in
    set_column cleaned column (to_numeric_coerce (get_column cleaned column))
  else cleaned.

(** [price_columns or [...]]: [None] and the empty list select the
    default candidates. *)
Definition price_columns_or_default (price_columns : option (list string)) : list string :=
  match price_columns with
  | None | Some [] => default_price_columns
  | Some cs => cs
  end.

Definition standardize_prices_with (price_columns : option (list string))
    (df : DataFrame) : DataFrame :=
  fold_left standardize_column (price_columns_or_default price_columns) df.

Definition standardize_prices (df : DataFrame) : DataFrame :=
  standardize_prices_with None df.

Definition date_named (col : string) : bool :=
  Text.contains "date" col || Text.contains "fecha" col.

(** The body of the loop of [normalize_types] for one label. *)
Definition normalize_column (normalized : DataFrame) (col : string) : DataFrame :=
  let normalized :=
    if date_named col then
      set_column normalized col (to_datetime_coerce (get_column normalized col))
    else normalized in
  if is_object (get_column normalized col) then
    set_column normalized col (to_numeric_ignore (get_column normalized col))
  else normalized.

Definition normalize_types (df : DataFrame) : DataFrame :=
  fold_left normalize_column (columns df) df.

(** [365 - x] on one cell: missing stays missing. *)
Definition occupancy_cell (v : value) : value :=
  match v with
  | Num q => Num (Q2Qc 365 - q)%Qc
  | _ => NA
  end.

Definition add_basic_columns (df : DataFrame) : DataFrame :=
  let enriched :=
    if has_column df "price" then
      set_column df "precio_noche" (to_numeric_coerce (get_column df "price"))
    else df in
  if has_column enriched "availability_365" then
    set_column enriched "ocupacion_estimada"
      (map occupancy_cell (to_numeric_coerce (get_column enriched "availability_365")))
  else enriched.

Definition clean_dataset (df : DataFrame) : DataFrame :=
  let cleaned := standardize_prices df in
  let cleaned := normalize_types cleaned in
  let cleaned := add_basic_columns cleaned in
  drop_duplicates cleaned.

End Pipeline.

Definition qc (z : Z) (p : positive) : Qc := Q2Qc (z # p)%Q.

(** ** Grouping, averaging, sorting and joining *)

Definition kind_rank (v : value) : nat :=
  match v with NA => 3 | Num _ => 0 | Stamp _ => 1 | Str _ => 2 end.

(** The ascending order of group keys: numbers by value, texts
    lexicographically, timestamps by instant. *)
Definition value_leb (a b : value) : bool :=
  match a, b with
  | Num p, Num q => Qle_bool p q
  | Str s, Str t => String.leb s t
  | Stamp s, Stamp t => (s <=? t)%Z
  | _, _ => Nat.leb (kind_rank a) (kind_rank b)
  end.

(** The order of [sort_values(ascending=False)]: larger first, missing
    values last. *)
Definition value_geb (a b : value) : bool :=
  match a, b with
  | _, NA => true
  | NA, _ => false
  | _, _ => value_leb b a
  end.

Section Sorting.
Context {A : Type} (before : A -> A -> bool).

Fixpoint insert_sorted (x : A) (l : list A) : list A :=
  match l with
  | [] => [x]
  | y :: l' => if before x y then x :: l else y :: insert_sorted x l'
  end.

(** A stable insertion sort: equal elements keep their order. *)
Definition sort_list (l : list A) : list A := foldr insert_sorted [] l.
End Sorting.

(** Distinct values in order of first occurrence. *)
Definition distinct (seen : list value) (vs : list value) : list value :=
  first_occurrences value_eqb seen vs.

Definition number_of (v : value) : option Qc :=
  match v with Num q => Some q | _ => None end.

(** The numbers among the cells. *)
Definition numbers (vs : list value) : list Qc := omap number_of vs.

Definition total (qs : list Qc) : Qc := foldr Qcplus (Q2Qc 0) qs.

(** The mean of a list of numbers (computed exactly: pandas adds and
    divides in float64); missing when the list is empty. *)
Definition average (qs : list Qc) : value :=
  match qs with
  | [] => NA
  | _ => Num (total qs / Q2Qc (Z.of_nat (List.length qs) # 1))%Qc
  end.

(** ** Errors *)

Inductive exn : Type :=
  | ValueError (msg : string)
  | KeyError (label : string)
  | TypeError (msg : string).

Inductive result (A : Type) : Type :=
  | Ok (a : A)
  | Raise (e : exn).
Arguments Ok {A} a.
Arguments Raise {A} e.

(** The results of a list of computations, or the first error. *)
Fixpoint collect {A} (rs : list (result A)) : result (list A) :=
  match rs with
  | [] => Ok []
  | Raise e :: _ => Raise e
  | Ok a :: rs' =>
      match collect rs' with
      | Ok l => Ok (a :: l)
      | Raise e => Raise e
      end
  end.

Definition agg_error : exn := TypeError "agg function failed [how->mean,dtype->object]".

(** The mean of the cells of one group, as the aggregation ["mean"]
    computes it: missing cells are skipped and the numbers averaged
    (missing when there is none); a text among the cells makes pandas
    raise [TypeError].  (A column of timestamps, which pandas averages as
    instants, is not modelled: the statements about means are about
    columns of numbers and texts.) *)
Definition mean (vs : list value) : result value :=
  if existsb is_text vs then Raise agg_error else Ok (average (numbers vs)).

(** The keys [groupby] forms groups for: the distinct non-missing values,
    ascending. *)
Definition group_keys (keys : list value) : list value :=
  sort_list value_leb (distinct [] (List.filter (fun v => negb (is_na v)) keys)).

(** The rows of [df] whose cell at [ki] is [k]: the group of [k]. *)
Definition group (df : DataFrame) (ki : nat) (k : value) : list row :=
  List.filter (fun r => value_eqb (cell ki r) k) (rows df).

(** [df.groupby(key).agg(out=(metric, "mean")).reset_index()]: one row
    for each key, holding the key and the mean of its group; it fails
    when the mean of a group does, and for a label that is not a
    column. *)
Definition groupby_mean (df : DataFrame) (key metric out : string) : result DataFrame :=
  match label_index key (columns df), label_index metric (columns df) with
  | Some ki, Some mi =>
      match collect
              (map (fun k =>
                      match mean (map (cell mi) (group df ki k)) with
                      | Ok m => Ok [k; m]
                      | Raise e => Raise e
                      end)
                 (group_keys (map (cell ki) (rows df)))) with
      | Ok rws => Ok (mkDF [key; out] rws)
      | Raise e => Raise e
      end
  | None, _ => Raise (KeyError key)
  | _, None => Raise (KeyError metric)
  end.

(** [df.dropna()]: rows with a missing cell are dropped. *)
Definition dropna (df : DataFrame) : DataFrame :=
  mkDF (columns df) (List.filter (fun r => negb (existsb is_na r)) (rows df)).

(** [df.sort_values(by, ascending=False)]: rows with an equal key keep
    their order here; pandas leaves the order of ties to its sorting
    algorithm. *)
Definition sort_values_desc (df : DataFrame) (by_ : string) : DataFrame :=
  match label_index by_ (columns df) with
  | Some i => mkDF (columns df)
                (sort_list (fun r s => value_geb (cell i r) (cell i s)) (rows df))
  | None => df
  end.

Definition drop_at {A} (i : nat) (l : list A) : list A := take i l ++ drop (S i) l.

Definition mem (c : string) (cs : list string) : bool := existsb (String.eqb c) cs.

(** How often a label occurs among the labels. *)
Definition occurrences (c : string) (cs : list string) : nat :=
  List.length (List.filter (String.eqb c) cs).

(** The kind of a key column, as far as its cells show it: a column with
    a text (or that mixes timestamps with numbers) has dtype [object], a
    column of timestamps is a datetime column, any other column is
    numeric (a column of missing values is a float column). *)
Inductive key_kind : Type := KNumeric | KDatetime | KObject.

Definition key_kind_eqb (a b : key_kind) : bool :=
  match a, b with
  | KNumeric, KNumeric | KDatetime, KDatetime | KObject, KObject => true
  | _, _ => false
  end.

Definition column_kind (col : list value) : key_kind :=
  if existsb is_text col || (existsb is_stamp col && existsb is_number col) then KObject
  else if existsb is_stamp col then KDatetime
  else KNumeric.

(** pandas refuses to merge on key columns of different kinds, unless one
    of them has no row.  (Against an integer column it accepts an
    [object] column that holds integers besides its texts; the model,
    which does not tell an integer from a float, refuses every [object]
    column against a numeric one.) *)
Definition comparable (l r : list value) : bool :=
  match l, r with
  | [], _ | _, [] => true
  | _, _ => key_kind_eqb (column_kind l) (column_kind r)
  end.

(** A label that a suffix has turned into a copy of an earlier label:
    [old] are the labels before and [new] after the suffixes. *)
Fixpoint suffix_clash (seen_old seen_new old new : list string) : bool :=
  match old, new with
  | o :: old', n :: new' =>
      (mem n seen_new && negb (mem o seen_old))
      || suffix_clash (o :: seen_old) (n :: seen_new) old' new'
  | _, _ => false
  end.

Definition not_unique (label : string) : exn :=
  ValueError ("The column label '" ++ label ++ "' is not unique.").

(** pandas names the two dtypes in this message. *)
Definition incomparable_keys (label : string) : exn :=
  ValueError ("You are trying to merge on columns of different dtypes for key '"
              ++ label ++ "'. If you wish to proceed you should use pd.concat").

(** pandas names the labels in this message. *)
Definition duplicate_columns : exn :=
  ValueError "Passing 'suffixes' which cause duplicate columns is not allowed.".

(** The rows a left row [l] is joined to: [l] extended by every right row
    with an equal key (missing keys match each other), or by missing
    cells when there is none.  With one [shared] key label the right key
    cell is not repeated. *)
Definition joined (right : DataFrame) (li ri : nat) (shared : bool) (l : row) : list row :=
  let keep (r : row) := if shared then drop_at ri r else r in
  let width := List.length (if shared then drop_at ri (columns right) else columns right) in
  match List.filter (fun r => value_eqb (cell li l) (cell ri r)) (rows right) with
  | [] => [l ++ replicate width NA]
  | ms => map (fun r => l ++ keep r) ms
  end.

(** [left.merge(right, left_on=l, right_on=r, how="left", suffixes=(ls, rs))]
    ([on=k] is [left_on=k, right_on=k]).  Each left row, in order, is
    replaced by the rows it is joined to.  Labels present on both sides
    take the suffixes.  The merge fails for a key label that is not a
    column ([KeyError]) or occurs more than once among the labels of its
    frame, for key columns of different kinds, and for a suffix that
    produces a label twice (all [ValueError]).  (For a left frame without
    rows and one shared key label pandas takes the key column from the
    right frame; the statements about labels are about listings that
    have rows.) *)
Definition merge_left (left right : DataFrame) (left_on right_on ls rs : string)
    : result DataFrame :=
  match label_index right_on (columns right) with
  | None => Raise (KeyError right_on)
  | Some ri =>
      if negb (Nat.eqb (occurrences right_on (columns right)) 1) then Raise (not_unique right_on)
      else
        match label_index left_on (columns left) with
        | None => Raise (KeyError left_on)
        | Some li =>
            if negb (Nat.eqb (occurrences left_on (columns left)) 1)
            then Raise (not_unique left_on)
            else if negb (comparable (map (cell li) (rows left))
                            (map (cell ri) (rows right)))
            then Raise (incomparable_keys left_on)
            else
              let shared := String.eqb left_on right_on in
              let rcols := if shared then drop_at ri (columns right) else columns right in
              let lcols := if shared then drop_at li (columns left) else columns left in
              let llabels :=
                map (fun c => if mem c rcols && negb (shared && String.eqb c left_on)
                              then (c ++ ls)%string else c) (columns left) in
              let rlabels :=
                map (fun c => if mem c lcols then (c ++ rs)%string else c) rcols in
              if suffix_clash [] [] (columns left) llabels
                 || suffix_clash [] [] rcols rlabels
              then Raise duplicate_columns
              else
                Ok (mkDF (llabels ++ rlabels)
                      (flat_map (joined right li ri shared) (rows left)))
        end
  end.

(** ** Unification of the sources *)

Inductive aggregation : Type := Mean.

Definition _prepare_reviews (reviews : DataFrame) : result DataFrame :=
  if negb (has_column reviews "listing_id") then Ok empty_frame
  else
    let aggregations : list (string * aggregation) :=
      if has_column reviews "rating" then [("rating", Mean)] else [] in
    match aggregations with
    | [] => Ok empty_frame
    | _ => groupby_mean reviews "listing_id" "rating" "rating"
    end.

Definition _normalize_neighbourhoods (listings neighbourhoods : DataFrame)
    : DataFrame * DataFrame :=
  let listings_norm :=
    if has_column listings "neighbourhood_cleansed"
    then rename "neighbourhood_cleansed" "neighbourhood" listings else listings in
  let neighbourhoods_norm :=
    if has_column neighbourhoods "neighbourhood_group"
    then rename "neighbourhood_group" "district" neighbourhoods else neighbourhoods in
  (listings_norm, neighbourhoods_norm).

Definition unify_data (listings reviews neighbourhoods idealista : DataFrame)
    : result DataFrame :=
  let '(listings_norm, neighbourhoods_norm) :=
    _normalize_neighbourhoods listings neighbourhoods in
  match _prepare_reviews reviews with
  | Raise e => Raise e
  | Ok reviews_summary =>
      match (if negb (df_empty reviews_summary) && has_column listings_norm "id" then
               merge_left listings_norm reviews_summary "id" "listing_id" "_x" "_y"
             else Ok listings_norm) with
      | Raise e => Raise e
      | Ok listings_norm =>
          if has_column listings_norm "neighbourhood"
             && has_column neighbourhoods_norm "neighbourhood" then
            merge_left listings_norm neighbourhoods_norm
              "neighbourhood" "neighbourhood" "" "_ref"
          else Ok listings_norm
      end
  end.

(** ** Rankings by area *)

(** [df[[a, b]]]: raises [KeyError] for a label that is not a column. *)
Definition select2 (df : DataFrame) (a b : string) : result DataFrame :=
  match label_index a (columns df), label_index b (columns df) with
  | Some i, Some j => Ok (mkDF [a; b] (map (fun r => [cell i r; cell j r]) (rows df)))
  | None, _ => Raise (KeyError a)
  | _, None => Raise (KeyError b)
  end.

Definition level_error : exn := ValueError "level debe ser 'district' o 'neighbourhood'".

Definition levels : list string := ["district"; "neighbourhood"].

Definition price_by_area (df : DataFrame) (level : string) : result DataFrame :=
  if negb (mem level levels) then Raise level_error
  else if negb (has_column df level) then Ok empty_frame
  else
    match select2 df level "precio_noche" with
    | Raise e => Raise e
    | Ok sel =>
        match groupby_mean (dropna sel) level "precio_noche" "precio_medio" with
        | Raise e => Raise e
        | Ok grouped => Ok (sort_values_desc grouped "precio_medio")
        end
    end.

Definition occupancy_by_area (df : DataFrame) (level : string) : result DataFrame :=
  if negb (mem level levels) then Raise level_error
  else if negb (has_column df level) then Ok empty_frame
  else
    match select2 df level "ocupacion_estimada" with
    | Raise e => Raise e
    | Ok sel =>
        match groupby_mean (dropna sel) level "ocupacion_estimada" "ocupacion_media" with
        | Raise e => Raise e
        | Ok grouped => Ok (sort_values_desc grouped "ocupacion_media")
        end
    end.

(** ** The pipeline on the object store

    Python passes frames by reference: [df.copy()] allocates a new frame,
    [cleaned[column] = ...] updates the frame [cleaned] refers to in
    place, and [drop_duplicates()] returns a new frame.  The store maps
    object identities to frames; a computation threads it. *)

Module Store.

Abbreviation ref := nat.
Abbreviation store := (gmap nat DataFrame).

Definition M (A : Type) : Type := store -> A * store.

Definition ret {A} (a : A) : M A := fun h => (a, h).

Definition bind {A B} (m : M A) (k : A -> M B) : M B :=
  fun h => let '(a, h') := m h in k a h'.

#[global] Instance store_ret : MRet M := @ret.
#[global] Instance store_bind : MBind M := fun A B k m => bind m k.

(** The frame an identity refers to (the empty frame for an identity
    that was never allocated, which a Python reference cannot be). *)
Definition read (l : ref) : M DataFrame :=
  fun h => (default empty_frame (h !! l), h).

Definition write (l : ref) (d : DataFrame) : M unit :=
  fun h => (tt, <[l := d]> h).

(** A new object, at an identity not in use. *)
Definition alloc (d : DataFrame) : M ref :=
  fun h => let l := fresh (dom h) in (l, <[l := d]> h).

(** [df.copy()] *)
Definition copy (df : ref) : M ref := d ← read df; alloc d.

(** [target[c] = f(target)]: in-place column assignment. *)
Definition setitem (target : ref) (c : string) (f : DataFrame -> list value) : M unit :=
  d ← read target; write target (set_column d c (f d)).

Fixpoint for_each {A} (xs : list A) (body : A -> M unit) : M unit :=
  match xs with
  | [] => ret tt
  | x :: xs' => body x ;; for_each xs' body
  end.

Section Run.
Context {cal : Calendar}.

Definition standardize_prices (df : ref) (price_columns : option (list string))
    : M ref :=
  cleaned ← copy df;
  for_each (price_columns_or_default price_columns) (fun column =>
    d ← read cleaned;
    if has_column d column then
      setitem cleaned column (fun d =>
        map (fun v => Str (price_text (as_text v))) (get_column d column)) ;;
      setitem cleaned column (fun d => to_numeric_coerce (get_column d column))
    else ret tt) ;;
  ret cleaned.

Definition normalize_types (df : ref) : M ref :=
  normalized ← copy df;
  d0 ← read normalized;
  for_each (columns d0) (fun col =>
    (if date_named col then
       setitem normalized col (fun d => to_datetime_coerce (get_column d col))
     else ret tt) ;;
    d ← read normalized;
    if is_object (get_column d col) then
      setitem normalized col (fun d => to_numeric_ignore (get_column d col))
    else ret tt) ;;
  ret normalized.

Definition add_basic_columns (df : ref) : M ref :=
  enriched ← copy df;
  d ← read enriched;
  (if has_column d "price" then
     setitem enriched "precio_noche" (fun d => to_numeric_coerce (get_column d "price"))
   else ret tt) ;;
  d ← read enriched;
  (if has_column d "availability_365" then
     setitem enriched "ocupacion_estimada" (fun d =>
       map occupancy_cell (to_numeric_coerce (get_column d "availability_365")))
   else ret tt) ;;
  ret enriched.

(** [df.drop_duplicates()] returns a new frame. *)
Definition drop_duplicates_new (df : ref) : M ref :=
  d ← read df; alloc (drop_duplicates d).

Definition clean_dataset (df : ref) : M ref :=
  cleaned ← standardize_prices df None;
  cleaned ← normalize_types cleaned;
  cleaned ← add_basic_columns cleaned;
  cleaned ← drop_duplicates_new cleaned;
  ret cleaned.

End Run.

End Store.

(** ** Vocabulary of the statements *)

(** Every row has one cell per label. *)
Definition rectangular (df : DataFrame) : Prop :=
  Forall (fun r : row => List.length r = List.length (columns df)) (rows df).

(** What [standardize_prices] makes of one cell of a price column: the
    cell as text, without currency signs and commas, trimmed, parsed. *)
Definition price_value {cal : Calendar} (v : value) : value :=
  match Numeric.parse (price_text (as_text v)) with
  | Some (Some q) => Num q
  | _ => NA
  end.

(** What a numeric coercion makes of one cell: a number stays, a text
    that reads as a number becomes that number, any other cell becomes
    missing. *)
Definition coerced (v : value) : value :=
  match v with
  | Num q => Num q
  | Str s => match Numeric.parse s with Some (Some q) => Num q | _ => NA end
  | _ => NA
  end.

(** The cell is read by the numeric parser: it is a number, a missing
    value, or a text that is empty or a decimal literal. *)
Definition parses (v : value) : bool :=
  match v with
  | Str s => match Numeric.parse s with Some _ => true | None => false end
  | Stamp _ => false
  | _ => true
  end.

(** When the cell is a text, it spells neither an infinity nor a number
    beyond [10 ^ 18]. *)
Definition readable (v : value) : bool :=
  match v with
  | Str s => Numeric.in_range s
  | _ => true
  end.

(** The cells that [pd.to_numeric(errors="coerce")] treats as the model
    does: readable cells that are not timestamps (pandas reads a column of
    timestamps as integers). *)
Definition coercible (v : value) : bool := negb (is_stamp v) && readable v.

(** The text of the cell, when it reads as a number, is a short decimal:
    at most fifteen characters, each a digit, "-" or ".".  Such a number
    is written by [astype(str)] and read back by [pd.to_numeric] without
    rounding; for longer ones the outcome depends on float64. *)
Definition short_price {cal : Calendar} (v : value) : bool :=
  let s := price_text (as_text v) in
  match Numeric.parse s with
  | Some (Some _) =>
      (String.length s <=? 15)%nat && Numeric.all_chars Numeric.numeric_char s
  | _ => true
  end.

(** The numbers in the columns [cs] are short decimals. *)
Definition short_prices {cal : Calendar} (cs : list string) (df : DataFrame) : Prop :=
  forall c, In c cs -> forallb short_price (get_column df c) = true.

(** What [normalize_types] makes of the column labelled [c]. *)
Definition normalize_cells {cal : Calendar} (c : string) (col : list value) : list value :=
  let col := if date_named c then to_datetime_coerce col else col in
  if is_object col then to_numeric_ignore col else col.


(** The cells of two columns, row by row. *)
Definition pairs (df : DataFrame) (a b : string) : list (value * value) :=
  zip (get_column df a) (get_column df b).

(** The [metric] cells of the rows whose [key] cell is [k]. *)
Definition cells_where (df : DataFrame) (key : string) (k : value) (metric : string)
    : list value :=
  map snd (List.filter (fun p => value_eqb (fst p) k) (pairs df key metric)).

(** Neither cell of the pair is missing. *)
Definition complete (p : value * value) : bool :=
  negb (is_na (fst p)) && negb (is_na (snd p)).

(** The same, over the rows where neither cell is missing. *)
Definition complete_cells_where (df : DataFrame) (key : string) (k : value)
    (metric : string) : list value :=
  map snd
    (List.filter (fun p => value_eqb (fst p) k)
       (List.filter complete (pairs df key metric))).


(** [g] sends every row to at least one row, each of which starts with the
    cells of the row it comes from. *)
Definition expanding (g : row -> list row) : Prop :=
  forall l, g l <> [] /\ Forall (fun r' => exists t, r' = l ++ t) (g l).


(** The cells are numbers or missing values. *)
Definition numeric (col : list value) : Prop :=
  Forall (fun v => v = NA \/ exists q, v = Num q) col.

(** One of the pairs holds a text under a key that is not missing: the
    mean of that key's group fails. *)
Definition text_among (ps : list (value * value)) : bool :=
  existsb (fun p => negb (is_na (fst p)) && is_text (snd p)) ps.

(** Inputs on which no step of [unify_data] fails: the listings are well
    formed and have rows; the labels of the reviews are distinct and
    their ratings are numbers or missing values; no label occurs twice
    among the labels of the listings (after the renaming), the two
    columns of the review summary and the labels the reference table
    adds, nor among the labels of the reference table; and the key
    columns of both joins are comparable. *)
Definition unifiable (listings reviews neighbourhoods : DataFrame) : Prop :=
  let ln := fst (_normalize_neighbourhoods listings neighbourhoods) in
  let nn := snd (_normalize_neighbourhoods listings neighbourhoods) in
  rectangular listings
  /\ rows listings <> []
  /\ List.NoDup (columns reviews)
  /\ numeric (get_column reviews "rating")
  /\ List.NoDup (columns ln ++ ["listing_id"; "rating"]
                 ++ List.filter (fun c => negb (String.eqb c "neighbourhood")) (columns nn))
  /\ List.NoDup (columns nn)
  /\ comparable (get_column ln "id") (get_column reviews "listing_id") = true
  /\ comparable (get_column ln "neighbourhood") (get_column nn "neighbourhood") = true.

(** Running [m] in the store [h] returns a new object holding [result]
    and leaves every object of [h] as it was. *)
Definition returns_new (m : Store.M nat) (h : gmap nat DataFrame) (result : DataFrame)
    : Prop :=
  let '(out, h') := m h in
  h !! out = None
  /\ h' !! out = Some result
  /\ forall l, is_Some (h !! l) -> h' !! l = h !! l.


(** What one pass of the cleaning stages establishes about the rows [rs]
    of a frame with labels [cols]: the candidate price columns hold parsed
    prices, the date-named columns hold timestamps, every other column
    that still holds text holds one that is not numeric, and the derived
    columns are derived from [price] and [availability_365]. *)
Definition cleaned {cal : Calendar} (cols : list string) (rs : list row) : Prop :=
  (forall c i, In c default_price_columns -> label_index c cols = Some i ->
     forall r, In r rs -> price_value (cell i r) = cell i r)
  /\ (forall c i, label_index c cols = Some i -> date_named c = true ->
        forall r, In r rs -> datetime_cell (cell i r) = cell i r)
  /\ (forall c i, label_index c cols = Some i -> date_named c = false ->
        (exists r, In r rs /\ is_text (cell i r) = true) ->
        exists r, In r rs /\ numeric_cell (cell i r) = None)
  /\ (In "price" cols ->
        exists i j, label_index "precio_noche" cols = Some i
                    /\ label_index "price" cols = Some j
                    /\ forall r, In r rs -> cell i r = default NA (numeric_cell (cell j r)))
  /\ (In "availability_365" cols ->
        exists i j, label_index "ocupacion_estimada" cols = Some i
                    /\ label_index "availability_365" cols = Some j
                    /\ forall r, In r rs ->
                         cell i r = occupancy_cell (default NA (numeric_cell (cell j r)))).


(** ** The ranking section of the page

    After unifying and cleaning the sources the script computes both
    rankings by district, shows them, and charts each one that is not
    empty: [top.set_index("district")[metric]].  The section is modelled
    from the cleaned table on, with what it hands to the renderer as its
    result; reading the files, the two global indicators and the rendering
    itself are left out. *)

(** [df.set_index(index)[column]]: the cells of [column] keyed by the
    cells of [index]; [KeyError] for a label that is not a column (the
    index column is no longer a column once it is the index). *)
Definition indexed_series (df : DataFrame) (index column : string)
    : result (list (value * value)) :=
  match label_index index (columns df) with
  | None => Raise (KeyError index)
  | Some i =>
      match label_index column (drop_at i (columns df)) with
      | None => Raise (KeyError column)
      | Some j => Ok (map (fun r => (cell i r, cell j (drop_at i r))) (rows df))
      end
  end.

(** [if not top.empty: st.bar_chart(top.set_index("district")[column])] *)
Definition chart (top : DataFrame) (column : string)
    : result (option (list (value * value))) :=
  if negb (df_empty top) then
    match indexed_series top "district" column with
    | Ok series => Ok (Some series)
    | Raise e => Raise e
    end
  else Ok None.

Record rankings : Type := mkRankings {
  top_price : DataFrame;
  top_occupancy : DataFrame;
  price_chart : option (list (value * value));
  occupancy_chart : option (list (value * value))
}.

Definition ranking_section (cleaned : DataFrame) : result rankings :=
  match price_by_area cleaned "district" with
  | Raise e => Raise e
  | Ok top_price =>
      match occupancy_by_area cleaned "district" with
      | Raise e => Raise e
      | Ok top_occupancy =>
          match chart top_price "precio_medio" with
          | Raise e => Raise e
          | Ok price_chart =>
              match chart top_occupancy "ocupacion_media" with
              | Raise e => Raise e
              | Ok occupancy_chart =>
                  Ok (mkRankings top_price top_occupancy price_chart occupancy_chart)
              end
          end
      end
  end.


(** ** Worked examples *)

Example remove_dollar : Text.remove "$" "$1,200.50" = "1,200.50".
Proof. reflexivity. Qed.

Example strip_both : Text.strip "  12 3 " = "12 3".
Proof. reflexivity. Qed.

(** A no-break space (U+00A0, two bytes) is white space. *)
Example strip_no_break_space :
  Text.strip (String "194" (String "160" "80" ++ String "194" (String "160" ""))) = "80".
Proof. reflexivity. Qed.

Example parse_price : Numeric.parse "1200.50" = Some (Some (Q2Qc (2401 # 2)%Q)).
Proof. by_eval. Qed.

Example parse_exp : Numeric.parse " -1.5e3 " = Some (Some (Q2Qc (-1500 # 1)%Q)).
Proof. by_eval. Qed.

Example parse_na : Numeric.parse "n/a" = None.
Proof. reflexivity. Qed.

Example parse_nan : Numeric.parse "NaN" = None.
Proof. reflexivity. Qed.

Example text_price : Numeric.to_text (Q2Qc (2401 # 2)%Q) = "1200.5".
Proof. reflexivity. Qed.

Example text_small : Numeric.to_text (Q2Qc (-3 # 80)%Q) = "-0.0375".
Proof. reflexivity. Qed.

Example text_int : Numeric.to_text (Q2Qc (325 # 1)%Q) = "325".
Proof. reflexivity. Qed.

Example standardize_sample :
  standardize_prices (cal := iso_dates)
    (mkDF ["id"; "price"] [[Num (qc 1 1); Str "$1,200.50"]; [Num (qc 2 1); Str "n/a"]])
  = mkDF ["id"; "price"] [[Num (qc 1 1); Num (qc 2401 2)]; [Num (qc 2 1); NA]].
Proof. by_eval. Qed.

Example clean_sample :
  clean_dataset (cal := iso_dates)
    (mkDF ["id"; "price"; "availability_365"; "last_date"; "name"]
       [[Num (qc 1 1); Str "$1,200.50"; Num (qc 40 1); Str "2024-01-05"; Str "7"];
        [Num (qc 1 1); Str "1200.5"; Num (qc 40 1); Str "2024-01-05"; Str "7"];
        [Num (qc 2 1); Str "n/a"; NA; Str "soon"; Str "x"]])
  = mkDF ["id"; "price"; "availability_365"; "last_date"; "name";
          "precio_noche"; "ocupacion_estimada"]
       [[Num (qc 1 1); Num (qc 2401 2); Num (qc 40 1); Stamp 1704412800000000000;
         Str "7"; Num (qc 2401 2); Num (qc 325 1)];
        [Num (qc 2 1); NA; NA; NA; Str "x"; NA; NA]].
Proof. by_eval. Qed.

Example iso_round_trip :
  Iso.read "2000-02-29" = Some 951782400000000000%Z
  /\ Iso.write 951782400000000000 = "2000-02-29"
  /\ Iso.read "1900-02-29" = None.
Proof. by vm_compute. Qed.

Definition reviews_sample : DataFrame :=
  mkDF ["listing_id"; "rating"]
    [[Num (qc 1 1); Num (qc 4 1)]; [Num (qc 1 1); Num (qc 5 1)];
     [Num (qc 2 1); Num (qc 3 1)]].

Example prepare_reviews_sample :
  _prepare_reviews reviews_sample
  = Ok (mkDF ["listing_id"; "rating"]
          [[Num (qc 1 1); Num (qc 9 2)]; [Num (qc 2 1); Num (qc 3 1)]]).
Proof. by_eval. Qed.

Example prepare_reviews_text_rating :
  _prepare_reviews
    (mkDF ["listing_id"; "rating"] [[Num (qc 1 1); Num (qc 4 1)]; [Num (qc 2 1); Str "good"]])
  = Raise agg_error.
Proof. reflexivity. Qed.

Example unify_sample :
  unify_data
    (mkDF ["id"; "neighbourhood_cleansed"]
       [[Num (qc 1 1); Str "Centro"]; [Num (qc 7 1); Str "Sol"]])
    reviews_sample
    (mkDF ["neighbourhood_group"; "neighbourhood"] [[Str "Distrito Centro"; Str "Centro"]])
    empty_frame
  = Ok (mkDF ["id"; "neighbourhood"; "listing_id"; "rating"; "district"]
          [[Num (qc 1 1); Str "Centro"; Num (qc 1 1); Num (qc 9 2); Str "Distrito Centro"];
           [Num (qc 7 1); Str "Sol"; NA; NA; NA]]).
Proof. by_eval. Qed.

Example unify_no_join_key :
  unify_data
    (mkDF ["id"; "neighbourhood_cleansed"] [[Num (qc 1 1); Str "Centro"]])
    empty_frame
    (mkDF ["neighbourhood_group"] [[Str "Distrito Centro"]])
    empty_frame
  = Ok (mkDF ["id"; "neighbourhood"] [[Num (qc 1 1); Str "Centro"]]).
Proof. by_eval. Qed.

Example unify_duplicate_label :
  unify_data
    (mkDF ["neighbourhood"; "neighbourhood_cleansed"] [[Str "Sol"; Str "Sol"]])
    empty_frame
    (mkDF ["neighbourhood_group"; "neighbourhood"] [[Str "Centro"; Str "Sol"]])
    empty_frame
  = Raise (not_unique "neighbourhood").
Proof. reflexivity. Qed.

Example unify_text_ids :
  unify_data
    (mkDF ["id"] [[Str "a1"]; [Str "b2"]])
    reviews_sample empty_frame empty_frame
  = Raise (incomparable_keys "id").
Proof. reflexivity. Qed.

Example price_by_area_sample :
  price_by_area
    (mkDF ["district"; "precio_noche"]
       [[Str "A"; Num (qc 10 1)]; [Str "B"; Num (qc 50 1)]; [Str "A"; Num (qc 20 1)];
        [Str "C"; NA]; [NA; Num (qc 99 1)]])
    "district"
  = Ok (mkDF ["district"; "precio_medio"]
          [[Str "B"; Num (qc 50 1)]; [Str "A"; Num (qc 15 1)]]).
Proof. by_eval. Qed.

(** * Properties *)

(** ** Equality tests *)

Lemma value_eqb_eq (a b : value) : value_eqb a b = true <-> a = b.
Proof.
  destruct a, b; simpl; split; intros H; try congruence; try discriminate.
  - f_equal. apply Qc_is_canon. by apply Qeq_bool_iff.
  - apply Qeq_bool_iff. by inversion H.
  - f_equal. by apply String.eqb_eq.
  - apply String.eqb_eq. by inversion H.
  - f_equal. by apply Z.eqb_eq.
  - apply Z.eqb_eq. by inversion H.
Qed.

Lemma value_eqb_refl (a : value) : value_eqb a a = true.
Proof. by apply value_eqb_eq. Qed.

Lemma row_eqb_eq (r s : row) : row_eqb r s = true <-> r = s.
Proof.
  revert s. induction r as [|a r IH]; intros [|b s]; simpl; try (split; congruence).
  rewrite andb_true_iff, value_eqb_eq, IH. split.
  - by intros [-> ->].
  - intros H. by inversion H.
Qed.

Lemma mem_In (c : string) (cs : list string) : mem c cs = true <-> In c cs.
Proof.
  unfold mem. rewrite existsb_exists. split.
  - intros (x & Hx & Heq). apply String.eqb_eq in Heq. by subst.
  - intros H. exists c. split; [done | apply String.eqb_refl].
Qed.

Lemma has_column_In (df : DataFrame) (c : string) :
  has_column df c = true <-> In c (columns df).
Proof. apply mem_In. Qed.

Lemma label_index_Some (c : string) (cs : list string) :
  In c cs -> exists i, label_index c cs = Some i.
Proof.
  induction cs as [|x cs IH]; simpl; [done|].
  intros H. destruct (String.eqb_spec c x) as [->|Hne]; [by eexists|].
  destruct H as [->|H]; [done|].
  destruct (IH H) as [i ->]. by eexists.
Qed.

Lemma label_index_None (c : string) (cs : list string) :
  ~ In c cs -> label_index c cs = None.
Proof.
  induction cs as [|x cs IH]; simpl; [done|].
  intros H. destruct (String.eqb_spec c x) as [->|Hne]; [tauto|].
  rewrite IH; [done | tauto].
Qed.

Lemma label_index_lookup (c : string) (cs : list string) (i : nat) :
  label_index c cs = Some i -> cs !! i = Some c.
Proof.
  revert i. induction cs as [|x cs IH]; simpl; intros i; [done|].
  destruct (String.eqb_spec c x) as [->|Hne].
  - by intros [= <-].
  - destruct (label_index c cs) as [j|]; simpl; [|done].
    intros [= <-]. by apply IH.
Qed.

Lemma label_index_inj (c d : string) (cs : list string) (i : nat) :
  label_index c cs = Some i -> label_index d cs = Some i -> c = d.
Proof.
  intros Hc Hd. apply label_index_lookup in Hc, Hd. congruence.
Qed.

(** ** Rankings: the level argument *)

(** C6: a level other than "district" and "neighbourhood" makes both
    rankings raise the invalid-argument error, whatever the table: the
    table is not consulted. *)
Theorem rankings_reject_unknown_level (df : DataFrame) (level : string) :
  level <> "district" -> level <> "neighbourhood" ->
  price_by_area df level = Raise level_error
  /\ occupancy_by_area df level = Raise level_error.
Proof.
  intros H1 H2.
  assert (Hm : mem level levels = false).
  { apply not_true_is_false. rewrite mem_In. simpl. intuition congruence. }
  unfold price_by_area, occupancy_by_area. by rewrite Hm.
Qed.

Lemma rankings_reject_city :
  price_by_area reviews_sample "city" = Raise level_error
  /\ occupancy_by_area reviews_sample "city" = Raise level_error.
Proof. apply rankings_reject_unknown_level; discriminate. Defined.

(** C2: a table that has the level column but not the metric column makes
    both rankings raise [KeyError]: the absent column is not handled
    softly, neither by an empty table nor by missing cells. *)
Theorem rankings_raise_without_metric (df : DataFrame) (level : string) :
  In level levels -> In level (columns df) ->
  (~ In "precio_noche" (columns df) ->
     price_by_area df level = Raise (KeyError "precio_noche"))
  /\ (~ In "ocupacion_estimada" (columns df) ->
        occupancy_by_area df level = Raise (KeyError "ocupacion_estimada")).
Proof.
  intros Hlevel Hin.
  assert (Hm : mem level levels = true) by by apply mem_In.
  destruct (label_index_Some _ _ Hin) as [i Hi].
  unfold price_by_area, occupancy_by_area, select2.
  rewrite Hm, (proj2 (has_column_In _ _) Hin), Hi. simpl.
  split; intros Hno; by rewrite (label_index_None _ _ Hno).
Qed.

Lemma rankings_raise_district_only :
  price_by_area (mkDF ["district"] [[Str "Centro"]]) "district"
  = Raise (KeyError "precio_noche")
  /\ occupancy_by_area (mkDF ["district"] [[Str "Centro"]]) "district"
     = Raise (KeyError "ocupacion_estimada").
Proof.
  destruct (rankings_raise_without_metric (mkDF ["district"] [[Str "Centro"]]) "district")
    as [Hp Ho]; [simpl; tauto | simpl; tauto |].
  split; [apply Hp | apply Ho]; simpl; intros [H|[]]; discriminate.
Defined.

(** ** Frames: reading and assigning columns *)

Lemma cell_lookup (i : nat) (r : row) : cell i r = default NA (r !! i).
Proof. unfold cell. apply nth_lookup. Qed.

Lemma cell_insert_eq (i : nat) (r : row) (v : value) :
  i < List.length r -> cell i (<[i := v]> r) = v.
Proof. intros H. by rewrite cell_lookup, list_lookup_insert_eq. Qed.

Lemma cell_insert_ne (i j : nat) (r : row) (v : value) :
  i <> j -> cell j (<[i := v]> r) = cell j r.
Proof. intros H. by rewrite !cell_lookup, list_lookup_insert_ne. Qed.

Lemma cell_app_l (i : nat) (r t : row) :
  i < List.length r -> cell i (r ++ t) = cell i r.
Proof. intros H. by rewrite !cell_lookup, lookup_app_l. Qed.

Lemma cell_app_last (r : row) (v : value) : cell (List.length r) (r ++ [v]) = v.
Proof. by rewrite cell_lookup, list_lookup_middle. Qed.

Lemma label_index_lt (c : string) (cs : list string) (i : nat) :
  label_index c cs = Some i -> i < List.length cs.
Proof. intros H. apply label_index_lookup in H. by eapply lookup_lt_Some. Qed.

Lemma label_index_In (c : string) (cs : list string) (i : nat) :
  label_index c cs = Some i -> In c cs.
Proof.
  intros H. apply label_index_lookup in H.
  apply list_elem_of_In. by eapply list_elem_of_lookup_2.
Qed.

Lemma label_index_app_l (c : string) (cs ds : list string) (i : nat) :
  label_index c cs = Some i -> label_index c (cs ++ ds) = Some i.
Proof.
  revert i. induction cs as [|x cs IH]; simpl; intros i; [done|].
  destruct (String.eqb_spec c x); [done|].
  destruct (label_index c cs) as [j|]; simpl; [|done].
  intros [= <-]. by rewrite (IH j).
Qed.

Lemma label_index_app_new (c : string) (cs : list string) :
  label_index c cs = None -> label_index c (cs ++ [c]) = Some (List.length cs).
Proof.
  induction cs as [|x cs IH]; simpl.
  - by rewrite String.eqb_refl.
  - destruct (String.eqb_spec c x); [done|].
    destruct (label_index c cs); simpl; [done|].
    intros _. by rewrite IH.
Qed.

Lemma label_index_app_other (c d : string) (cs : list string) :
  c <> d -> label_index c cs = None -> label_index c (cs ++ [d]) = None.
Proof.
  intros Hne. induction cs as [|x cs IH]; simpl.
  - by destruct (String.eqb_spec c d).
  - destruct (String.eqb_spec c x); [done|].
    destruct (label_index c cs); simpl; [done|].
    intros _. by rewrite IH.
Qed.

Lemma put_cells_length (i : nat) (rs : list row) (vs : list value) :
  List.length (put_cells i rs vs) = List.length rs.
Proof.
  revert vs. induction rs as [|r rs IH]; intros [|v vs]; simpl; auto.
Qed.

Lemma add_cells_length (rs : list row) (vs : list value) :
  List.length (add_cells rs vs) = List.length rs.
Proof.
  revert vs. induction rs as [|r rs IH]; intros [|v vs]; simpl; auto.
Qed.

Lemma put_cells_same (i n : nat) (rs : list row) (vs : list value) :
  Forall (fun r : row => List.length r = n) rs -> i < n ->
  List.length vs = List.length rs ->
  map (cell i) (put_cells i rs vs) = vs.
Proof.
  intros Hrect Hi. revert vs.
  induction Hrect as [|r rs Hr _ IH]; intros [|v vs]; simpl; try done.
  intros [= Hlen]. rewrite cell_insert_eq by lia. by rewrite IH.
Qed.

Lemma put_cells_other (i j : nat) (rs : list row) (vs : list value) :
  i <> j -> map (cell j) (put_cells i rs vs) = map (cell j) rs.
Proof.
  intros Hne. revert vs.
  induction rs as [|r rs IH]; intros [|v vs]; simpl; try done.
  by rewrite cell_insert_ne, IH.
Qed.

Lemma add_cells_same (n : nat) (rs : list row) (vs : list value) :
  Forall (fun r : row => List.length r = n) rs ->
  List.length vs = List.length rs ->
  map (cell n) (add_cells rs vs) = vs.
Proof.
  intros Hrect. revert vs.
  induction Hrect as [|r rs Hr _ IH]; intros [|v vs]; simpl; try done.
  intros [= Hlen]. rewrite <- Hr at 1. by rewrite cell_app_last, IH.
Qed.

Lemma add_cells_other (j n : nat) (rs : list row) (vs : list value) :
  Forall (fun r : row => List.length r = n) rs -> j < n ->
  map (cell j) (add_cells rs vs) = map (cell j) rs.
Proof.
  intros Hrect Hj. revert vs.
  induction Hrect as [|r rs Hr _ IH]; intros [|v vs]; simpl; try done.
  rewrite cell_app_l by lia. by rewrite IH.
Qed.

Lemma get_column_length (df : DataFrame) (c : string) :
  In c (columns df) -> List.length (get_column df c) = List.length (rows df).
Proof.
  intros H. unfold get_column.
  destruct (label_index_Some _ _ H) as [i ->]. by rewrite length_map.
Qed.

Lemma set_column_columns (df : DataFrame) (c : string) (vs : list value) :
  In c (columns df) -> columns (set_column df c vs) = columns df.
Proof.
  intros H. unfold set_column. by destruct (label_index_Some _ _ H) as [i ->].
Qed.

Lemma set_column_rows_length (df : DataFrame) (c : string) (vs : list value) :
  List.length (rows (set_column df c vs)) = List.length (rows df).
Proof.
  unfold set_column. destruct (label_index c (columns df)); simpl.
  - apply put_cells_length.
  - apply add_cells_length.
Qed.

Lemma put_cells_rectangular (i n : nat) (rs : list row) (vs : list value) :
  Forall (fun r : row => List.length r = n) rs ->
  Forall (fun r : row => List.length r = n) (put_cells i rs vs).
Proof.
  intros Hrect. revert vs.
  induction Hrect as [|r rs Hr Hrs IH]; intros [|v vs]; simpl;
    try (by constructor).
  constructor; [cbv beta; by rewrite length_insert | apply IH].
Qed.

Lemma add_cells_rectangular (n : nat) (rs : list row) (vs : list value) :
  Forall (fun r : row => List.length r = n) rs ->
  List.length vs = List.length rs ->
  Forall (fun r : row => List.length r = S n) (add_cells rs vs).
Proof.
  intros Hrect. revert vs.
  induction Hrect as [|r rs Hr _ IH]; intros [|v vs]; simpl; try done.
  intros [= Hlen]. constructor; [cbv beta; rewrite length_app; simpl; lia | by apply IH].
Qed.

Lemma set_column_rectangular (df : DataFrame) (c : string) (vs : list value) :
  rectangular df -> List.length vs = List.length (rows df) ->
  rectangular (set_column df c vs).
Proof.
  unfold rectangular, set_column. intros Hrect Hlen.
  destruct (label_index c (columns df)); simpl.
  - by apply put_cells_rectangular.
  - rewrite length_app. simpl. rewrite Nat.add_1_r. by apply add_cells_rectangular.
Qed.

Lemma get_set_column_same (df : DataFrame) (c : string) (vs : list value) :
  rectangular df -> List.length vs = List.length (rows df) ->
  get_column (set_column df c vs) c = vs.
Proof.
  unfold rectangular, get_column, set_column. intros Hrect Hlen.
  destruct (label_index c (columns df)) as [i|] eqn:Hi; simpl.
  - rewrite Hi. eapply put_cells_same; eauto using label_index_lt.
  - rewrite label_index_app_new by done. by apply add_cells_same.
Qed.

Lemma get_set_column_other (df : DataFrame) (c d : string) (vs : list value) :
  rectangular df -> c <> d ->
  get_column (set_column df c vs) d = get_column df d.
Proof.
  unfold rectangular, get_column, set_column. intros Hrect Hne.
  destruct (label_index c (columns df)) as [i|] eqn:Hi; simpl.
  - destruct (label_index d (columns df)) as [j|] eqn:Hj; [|done].
    apply put_cells_other. intros ->. eauto using label_index_inj.
  - destruct (label_index d (columns df)) as [j|] eqn:Hj.
    + rewrite (label_index_app_l _ _ _ _ Hj).
      eapply add_cells_other; eauto using label_index_lt.
    + by rewrite label_index_app_other.
Qed.

(** ** Price normalisation *)

Section PriceNormalizer.
Context {cal : Calendar}.

Lemma numeric_cell_text (s : string) :
  default NA (numeric_cell (Str s))
  = match Numeric.parse s with Some (Some q) => Num q | _ => NA end.
Proof. simpl. by destruct (Numeric.parse s) as [[q|]|]. Qed.

Lemma standardize_column_columns (df : DataFrame) (c : string) :
  columns (standardize_column df c) = columns df.
Proof.
  unfold standardize_column. destruct (has_column df c) eqn:Hc; [|done].
  apply has_column_In in Hc.
  rewrite !set_column_columns; rewrite ?set_column_columns; done.
Qed.

Lemma standardize_column_rows (df : DataFrame) (c : string) :
  List.length (rows (standardize_column df c)) = List.length (rows df).
Proof.
  unfold standardize_column. destruct (has_column df c); [|done].
  by rewrite !set_column_rows_length.
Qed.

Lemma standardize_column_rectangular (df : DataFrame) (c : string) :
  rectangular df -> rectangular (standardize_column df c).
Proof.
  intros Hrect. unfold standardize_column.
  destruct (has_column df c) eqn:Hc; [|done].
  apply has_column_In in Hc.
  assert (Hr1 : rectangular (set_column df c
            (map (fun v => Str (price_text (as_text v))) (get_column df c)))).
  { apply set_column_rectangular; [done|].
    by rewrite length_map, get_column_length. }
  apply set_column_rectangular; [done|].
  unfold to_numeric_coerce.
  rewrite length_map, get_set_column_same, length_map,
    set_column_rows_length, get_column_length; try done.
  by rewrite length_map, get_column_length.
Qed.

Lemma standardize_column_same (df : DataFrame) (c : string) :
  rectangular df -> In c (columns df) ->
  get_column (standardize_column df c) c = map price_value (get_column df c).
Proof.
  intros Hrect Hc. unfold standardize_column.
  rewrite (proj2 (has_column_In df c) Hc).
  assert (Hlen : List.length (map (fun v => Str (price_text (as_text v)))
                   (get_column df c)) = List.length (rows df)).
  { by rewrite length_map, get_column_length. }
  rewrite get_set_column_same.
  - rewrite get_set_column_same by done.
    unfold to_numeric_coerce. rewrite map_map. apply map_ext.
    intros v. by rewrite numeric_cell_text.
  - by apply set_column_rectangular.
  - unfold to_numeric_coerce.
    by rewrite length_map, get_set_column_same, set_column_rows_length.
Qed.

Lemma standardize_column_other (df : DataFrame) (c d : string) :
  rectangular df -> c <> d ->
  get_column (standardize_column df c) d = get_column df d.
Proof.
  intros Hrect Hne. unfold standardize_column.
  destruct (has_column df c) eqn:Hc; [|done].
  apply has_column_In in Hc.
  rewrite !get_set_column_other; try done.
  apply set_column_rectangular; [done|].
  by rewrite length_map, get_column_length.
Qed.

Lemma standardize_fold_other (cs : list string) (df : DataFrame) (d : string) :
  rectangular df -> ~ In d cs ->
  get_column (fold_left standardize_column cs df) d = get_column df d.
Proof.
  revert df. induction cs as [|c cs IH]; simpl; intros df Hrect Hd; [done|].
  rewrite IH; [| by apply standardize_column_rectangular | tauto].
  apply standardize_column_other; [done|]. intros ->. tauto.
Qed.

Lemma standardize_fold_same (cs : list string) (df : DataFrame) (c : string) :
  rectangular df -> NoDup cs -> In c cs -> In c (columns df) ->
  get_column (fold_left standardize_column cs df) c
  = map price_value (get_column df c).
Proof.
  revert df. induction cs as [|x cs IH]; simpl; intros df Hrect Hnd Hc Hin; [done|].
  apply NoDup_cons in Hnd as [Hx Hnd].
  destruct Hc as [->|Hc].
  - rewrite standardize_fold_other.
    + by apply standardize_column_same.
    + by apply standardize_column_rectangular.
    + by rewrite <- list_elem_of_In.
  - rewrite IH; try done.
    + f_equal. apply standardize_column_other; [done|].
      intros ->. apply Hx. by apply list_elem_of_In.
    + by apply standardize_column_rectangular.
    + by rewrite standardize_column_columns.
Qed.

End PriceNormalizer.

(** ** Column enrichment *)

Lemma set_column_columns_new (df : DataFrame) (c : string) (vs : list value) :
  ~ In c (columns df) -> columns (set_column df c vs) = columns df ++ [c].
Proof.
  intros H. unfold set_column. by rewrite label_index_None.
Qed.

Lemma set_column_In (df : DataFrame) (c d : string) (vs : list value) :
  In d (columns (set_column df c vs)) <-> In d (columns df) \/ d = c.
Proof.
  destruct (in_dec string_dec c (columns df)) as [Hc|Hc].
  - rewrite set_column_columns by done. split; [tauto|].
    intros [H| ->]; done.
  - rewrite set_column_columns_new by done. rewrite in_app_iff. simpl.
    intuition congruence.
Qed.

Lemma to_numeric_coerce_length (col : list value) :
  List.length (to_numeric_coerce col) = List.length col.
Proof. apply length_map. Qed.

(** The columns of [add_basic_columns df], one by one. *)
Lemma add_basic_columns_spec (df : DataFrame) :
  rectangular df ->
  (In "price" (columns df) ->
     get_column (add_basic_columns df) "precio_noche"
     = to_numeric_coerce (get_column df "price"))
  /\ (In "availability_365" (columns df) ->
        get_column (add_basic_columns df) "ocupacion_estimada"
        = map (fun v => match default NA (numeric_cell v) with
                        | Num q => Num (Q2Qc 365 - q)%Qc
                        | _ => NA
                        end) (get_column df "availability_365"))
  /\ (~ In "price" (columns df) ->
        get_column (add_basic_columns df) "precio_noche" = get_column df "precio_noche")
  /\ (~ In "availability_365" (columns df) ->
        get_column (add_basic_columns df) "ocupacion_estimada"
        = get_column df "ocupacion_estimada")
  /\ (~ In "price" (columns df) -> ~ In "availability_365" (columns df) ->
        add_basic_columns df = df).
Proof.
  intros Hrect.
  set (enriched := if has_column df "price"
                   then set_column df "precio_noche"
                          (to_numeric_coerce (get_column df "price"))
                   else df).
  assert (Hrect' : rectangular enriched).
  { subst enriched. destruct (has_column df "price") eqn:Hp; [|done].
    apply has_column_In in Hp. apply set_column_rectangular; [done|].
    by rewrite to_numeric_coerce_length, get_column_length. }
  assert (Hav : has_column enriched "availability_365"
                = has_column df "availability_365").
  { subst enriched. destruct (has_column df "price"); [|done].
    apply eq_true_iff_eq. rewrite !has_column_In, set_column_In.
    split; [intros [H|H]; [done | discriminate] | tauto]. }
  assert (Hcol : get_column enriched "availability_365"
                 = get_column df "availability_365").
  { subst enriched. destruct (has_column df "price"); [|done].
    by apply get_set_column_other. }
  assert (Hlen : List.length (rows enriched) = List.length (rows df)).
  { subst enriched. destruct (has_column df "price"); [|done].
    apply set_column_rows_length. }
  assert (Hout : add_basic_columns df
                 = if has_column enriched "availability_365"
                   then set_column enriched "ocupacion_estimada"
                          (map occupancy_cell
                             (to_numeric_coerce (get_column enriched "availability_365")))
                   else enriched) by done.
  repeat split.
  - intros Hp. rewrite Hout.
    assert (Hpn : get_column enriched "precio_noche"
                  = to_numeric_coerce (get_column df "price")).
    { subst enriched. rewrite (proj2 (has_column_In df "price") Hp).
      apply get_set_column_same; [done|].
      by rewrite to_numeric_coerce_length, get_column_length. }
    destruct (has_column enriched "availability_365"); [|done].
    by rewrite get_set_column_other.
  - intros Ha. rewrite Hout, Hav, (proj2 (has_column_In df _) Ha), Hcol.
    rewrite get_set_column_same; [| done |].
    + unfold to_numeric_coerce. rewrite map_map. done.
    + by rewrite length_map, to_numeric_coerce_length, get_column_length.
  - intros Hp. rewrite Hout.
    assert (He : enriched = df).
    { subst enriched. destruct (has_column df "price") eqn:E; [|done].
      by apply has_column_In in E. }
    rewrite He. destruct (has_column df "availability_365"); [|done].
    by rewrite get_set_column_other.
  - intros Ha. rewrite Hout, Hav.
    destruct (has_column df "availability_365") eqn:E.
    + by apply has_column_In in E.
    + subst enriched. destruct (has_column df "price"); [|done].
      by rewrite get_set_column_other.
  - intros Hp Ha. rewrite Hout, Hav.
    destruct (has_column df "availability_365") eqn:E.
    + by apply has_column_In in E.
    + subst enriched. destruct (has_column df "price") eqn:E'; [|done].
      by apply has_column_In in E'.
Qed.

Lemma numeric_cell_coerced (v : value) : default NA (numeric_cell v) = coerced v.
Proof. destruct v; simpl; try done. by destruct (Numeric.parse s) as [[q|]|]. Qed.



(** ** Type normalisation *)

Lemma to_numeric_ignore_length (col : list value) :
  List.length (to_numeric_ignore col) = List.length col.
Proof.
  unfold to_numeric_ignore. destruct (mapM numeric_cell col) as [parsed|] eqn:E; [|done].
  symmetry. by eapply length_mapM.
Qed.

Lemma numeric_cell_not_text (v w : value) : numeric_cell v = Some w -> is_text w = false.
Proof.
  destruct v; simpl; try (by intros [= <-]).
  destruct (Numeric.parse s) as [[q|]|]; simpl; by intros [= <-].
Qed.

Lemma mapM_numeric_not_object (col parsed : list value) :
  mapM numeric_cell col = Some parsed -> is_object parsed = false.
Proof.
  intros H. apply mapM_Some in H. unfold is_object.
  induction H as [|v w col parsed Hv _ IH]; simpl; [done|].
  by rewrite (numeric_cell_not_text _ _ Hv), IH.
Qed.

Lemma mapM_numeric_all (col : list value) :
  Forall (fun v => numeric_cell v <> None) col ->
  mapM numeric_cell col = Some (map (fun v => default NA (numeric_cell v)) col).
Proof.
  intros H. apply mapM_Some. induction H as [|v col Hv _ IH]; simpl; constructor; [|done].
  by destruct (numeric_cell v).
Qed.

Lemma mapM_numeric_some_fails (col : list value) :
  Exists (fun v => numeric_cell v = None) col -> mapM numeric_cell col = None.
Proof.
  apply mapM_None_2.
Qed.

Section TypeNormalizer.
Context {cal : Calendar}.

Lemma normalize_cells_length (c : string) (col : list value) :
  List.length (normalize_cells c col) = List.length col.
Proof.
  unfold normalize_cells, to_datetime_coerce.
  destruct (date_named c); destruct (is_object _);
    rewrite ?to_numeric_ignore_length, ?length_map; done.
Qed.

Lemma datetime_cell_not_text (v : value) : is_text (datetime_cell v) = false.
Proof. destruct v; simpl; try done. by destruct (read_stamp s). Qed.

Lemma to_datetime_not_object (col : list value) :
  is_object (to_datetime_coerce col) = false.
Proof.
  unfold is_object, to_datetime_coerce. induction col as [|v col IH]; simpl; [done|].
  by rewrite datetime_cell_not_text, IH.
Qed.

Lemma datetime_cell_idem (v : value) : datetime_cell (datetime_cell v) = datetime_cell v.
Proof. destruct v; simpl; try done. by destruct (read_stamp s). Qed.

Lemma to_numeric_ignore_idem (col : list value) :
  is_object col = true ->
  let col' := to_numeric_ignore col in
  (if is_object col' then to_numeric_ignore col' else col') = col'.
Proof.
  intros Hobj. unfold to_numeric_ignore.
  destruct (mapM numeric_cell col) as [parsed|] eqn:E; simpl.
  - by rewrite (mapM_numeric_not_object _ _ E).
  - by rewrite Hobj, E.
Qed.

Lemma normalize_cells_idem (c : string) (col : list value) :
  normalize_cells c (normalize_cells c col) = normalize_cells c col.
Proof.
  unfold normalize_cells. cbv zeta. destruct (date_named c).
  - rewrite !to_datetime_not_object.
    unfold to_datetime_coerce. rewrite map_map.
    apply map_ext. intros v. apply datetime_cell_idem.
  - destruct (is_object col) eqn:Hobj.
    + by apply to_numeric_ignore_idem.
    + by rewrite Hobj.
Qed.

Lemma normalize_column_spec (df : DataFrame) (c : string) :
  rectangular df -> In c (columns df) ->
  normalize_column df c = set_column df c (normalize_cells c (get_column df c)).
Proof.
  intros Hrect Hc. unfold normalize_column, normalize_cells.
  assert (Hlen : forall f : value -> value,
             List.length (map f (get_column df c)) = List.length (rows df)).
  { intros f. by rewrite length_map, get_column_length. }
  destruct (date_named c).
  - rewrite get_set_column_same by (done || apply Hlen).
    by rewrite to_datetime_not_object.
  - destruct (is_object (get_column df c)) eqn:Hobj; [done|].
    unfold set_column, get_column.
    destruct (label_index_Some _ _ Hc) as [i Hi]. rewrite Hi.
    destruct df as [cols rws]. unfold rectangular in Hrect. simpl in *. f_equal.
    clear Hobj Hlen. induction Hrect as [|r rs' Hr _ IH]; simpl; [done|].
    rewrite <- IH. f_equal. rewrite cell_lookup.
    apply label_index_lt in Hi.
    destruct (lookup_lt_is_Some_2 r i) as [v Hv]; [lia|].
    rewrite Hv. simpl. symmetry. by apply list_insert_id.
Qed.

Lemma normalize_column_columns (df : DataFrame) (c : string) :
  rectangular df -> In c (columns df) ->
  columns (normalize_column df c) = columns df.
Proof.
  intros Hrect Hc. rewrite normalize_column_spec by done.
  by apply set_column_columns.
Qed.

Lemma normalize_column_rectangular (df : DataFrame) (c : string) :
  rectangular df -> In c (columns df) -> rectangular (normalize_column df c).
Proof.
  intros Hrect Hc. rewrite normalize_column_spec by done.
  apply set_column_rectangular; [done|].
  by rewrite normalize_cells_length, get_column_length.
Qed.

Lemma normalize_fold_column (cs : list string) (df : DataFrame) (c : string) :
  rectangular df -> (forall x, In x cs -> In x (columns df)) ->
  get_column (fold_left normalize_column cs df) c
  = if mem c cs then normalize_cells c (get_column df c) else get_column df c.
Proof.
  revert df. induction cs as [|x cs IH]; simpl; intros df Hrect Hsub; [done|].
  assert (Hx : In x (columns df)) by auto.
  rewrite IH.
  - rewrite normalize_column_spec by done.
    destruct (String.eqb_spec c x) as [->|Hne]; simpl.
    + rewrite get_set_column_same;
        [| done | by rewrite normalize_cells_length, get_column_length].
      destruct (mem x cs); [apply normalize_cells_idem | done].
    + by rewrite get_set_column_other.
  - by apply normalize_column_rectangular.
  - intros y Hy. rewrite normalize_column_columns by done. auto.
Qed.

Lemma normalize_types_column (df : DataFrame) (c : string) :
  rectangular df -> In c (columns df) ->
  get_column (normalize_types df) c = normalize_cells c (get_column df c).
Proof.
  intros Hrect Hc. unfold normalize_types.
  rewrite normalize_fold_column by done.
  by rewrite (proj2 (mem_In c (columns df)) Hc).
Qed.

Lemma parses_numeric_cell (v : value) : parses v = true <-> numeric_cell v <> None.
Proof.
  destruct v; simpl; try done.
  by destruct (Numeric.parse s) as [[q|]|].
Qed.


End TypeNormalizer.


(** ** Distinct values and sorting *)

Section FirstOccurrences.
Context {A : Type} (eqb : A -> A -> bool).
Hypothesis eqb_eq : forall a b, eqb a b = true <-> a = b.

Lemma existsb_eqb (x : A) (l : list A) : existsb (eqb x) l = true <-> In x l.
Proof.
  rewrite existsb_exists. split.
  - intros (y & Hy & Heq). apply eqb_eq in Heq. by subst.
  - intros H. exists x. split; [done | by apply eqb_eq].
Qed.

Lemma first_occurrences_In (seen l : list A) (x : A) :
  In x (first_occurrences eqb seen l) <-> In x l /\ ~ In x seen.
Proof.
  revert seen. induction l as [|y l IH]; intros seen; simpl; [tauto|].
  destruct (existsb (eqb y) seen) eqn:E.
  - apply existsb_eqb in E. rewrite IH. split; [tauto|].
    intros [[->|H] Hn]; tauto.
  - assert (Hy : ~ In y seen).
    { intros H. apply existsb_eqb in H. congruence. }
    simpl. rewrite IH. simpl. split.
    + intros [->|[H Hn]]; [tauto|]. split; [tauto|]. intros Hs. apply Hn. by right.
    + intros [[->|H] Hn]; [by left|].
      destruct (eqb y x) eqn:Ev; [apply eqb_eq in Ev; by left|].
      right. split; [done|]. intros [Heq|Hs]; [|done].
      subst. assert (eqb x x = true) by by apply eqb_eq. congruence.
Qed.

Lemma first_occurrences_NoDup (seen l : list A) :
  List.NoDup (first_occurrences eqb seen l).
Proof.
  revert seen. induction l as [|y l IH]; intros seen; simpl; [constructor|].
  destruct (existsb (eqb y) seen); [apply IH|].
  constructor; [|apply IH].
  rewrite first_occurrences_In. intros [_ Hn]. apply Hn. by left.
Qed.

Lemma first_occurrences_fixed (seen l : list A) :
  List.NoDup l -> (forall x, In x l -> ~ In x seen) ->
  first_occurrences eqb seen l = l.
Proof.
  intros Hnd. revert seen. induction Hnd as [|y l Hy Hnd IH]; intros seen Hseen;
    simpl; [done|].
  destruct (existsb (eqb y) seen) eqn:E.
  - apply existsb_eqb in E. exfalso. apply (Hseen y); [by left | done].
  - f_equal. apply IH. intros x Hx [<-|Hs]; [done|].
    apply (Hseen x); [by right | done].
Qed.

Lemma first_occurrences_idem (l : list A) :
  first_occurrences eqb [] (first_occurrences eqb [] l) = first_occurrences eqb [] l.
Proof.
  apply first_occurrences_fixed; [apply first_occurrences_NoDup | auto].
Qed.

End FirstOccurrences.

Lemma existsb_value_eqb (v : value) (l : list value) :
  existsb (value_eqb v) l = true <-> In v l.
Proof. apply existsb_eqb, value_eqb_eq. Qed.

Lemma distinct_In (seen vs : list value) (v : value) :
  In v (distinct seen vs) <-> In v vs /\ ~ In v seen.
Proof. apply first_occurrences_In, value_eqb_eq. Qed.

Lemma distinct_NoDup (seen vs : list value) : List.NoDup (distinct seen vs).
Proof. apply first_occurrences_NoDup, value_eqb_eq. Qed.

Lemma keep_first_In (rs : list row) (r : row) : In r (keep_first [] rs) <-> In r rs.
Proof.
  unfold keep_first. rewrite (first_occurrences_In row_eqb row_eqb_eq). simpl. tauto.
Qed.

Lemma drop_duplicates_idem (df : DataFrame) :
  drop_duplicates (drop_duplicates df) = drop_duplicates df.
Proof.
  unfold drop_duplicates, keep_first. simpl. f_equal.
  apply first_occurrences_idem, row_eqb_eq.
Qed.

Section SortingFacts.
Context {A : Type} (before : A -> A -> bool).
Hypothesis before_total : forall a b, before a b = true \/ before b a = true.

Lemma insert_sorted_perm (x : A) (l : list A) :
  Permutation (insert_sorted before x l) (x :: l).
Proof.
  induction l as [|y l IH]; simpl; [done|].
  destruct (before x y); [done|].
  rewrite IH. apply perm_swap.
Qed.

Lemma sort_list_perm (l : list A) : Permutation (sort_list before l) l.
Proof.
  induction l as [|x l IH]; simpl; [done|].
  unfold sort_list in *. simpl. rewrite insert_sorted_perm. by constructor.
Qed.

Lemma insert_sorted_hd (x a : A) (l : list A) :
  before a x = true -> HdRel (fun u v => before u v = true) a l ->
  HdRel (fun u v => before u v = true) a (insert_sorted before x l).
Proof.
  intros Hax Hl. destruct l as [|y l]; simpl; [by constructor|].
  destruct (before x y); constructor; [done|].
  by inversion Hl.
Qed.

Lemma insert_sorted_sorted (x : A) (l : list A) :
  Sorted (fun u v => before u v = true) l ->
  Sorted (fun u v => before u v = true) (insert_sorted before x l).
Proof.
  induction 1 as [|y l Hs IH Hhd]; simpl; [by repeat constructor|].
  destruct (before x y) eqn:E.
  - constructor; [by constructor | by constructor].
  - constructor; [done|]. apply insert_sorted_hd; [|done].
    destruct (before_total x y); congruence.
Qed.

Lemma sort_list_sorted (l : list A) :
  Sorted (fun u v => before u v = true) (sort_list before l).
Proof.
  induction l as [|x l IH]; simpl; [constructor|].
  by apply insert_sorted_sorted.
Qed.

End SortingFacts.

Lemma value_leb_total (a b : value) : value_leb a b = true \/ value_leb b a = true.
Proof.
  destruct a, b; simpl; auto.
  - destruct (Qle_bool q q0) eqn:E; [by left | right].
    apply Qle_bool_iff. apply Qlt_le_weak, Qnot_le_lt.
    intros H. apply Qle_bool_iff in H. congruence.
  - apply String.leb_total.
  - destruct (Z.leb_spec t t0); [by left | right]. apply Z.leb_le. lia.
Qed.

Lemma value_geb_total (a b : value) : value_geb a b = true \/ value_geb b a = true.
Proof.
  destruct a as [|p|s|t], b as [|q|u|w]; simpl; auto.
  - apply (value_leb_total (Num q) (Num p)).
  - apply (value_leb_total (Str u) (Str s)).
  - apply (value_leb_total (Stamp w) (Stamp t)).
Qed.

Lemma value_geb_numbers (p q : Qc) : value_geb (Num p) (Num q) = true <-> (q <= p)%Qc.
Proof. simpl. apply Qle_bool_iff. Qed.

Lemma group_keys_In (keys : list value) (k : value) :
  In k (group_keys keys) <-> k <> NA /\ In k keys.
Proof.
  unfold group_keys.
  rewrite <- !list_elem_of_In, (sort_list_perm value_leb _), !list_elem_of_In.
  rewrite distinct_In, filter_In.
  destruct k; simpl; intuition congruence.
Qed.

Lemma group_keys_NoDup (keys : list value) : List.NoDup (group_keys keys).
Proof.
  unfold group_keys. apply NoDup_ListNoDup.
  rewrite (sort_list_perm value_leb _).
  apply NoDup_ListNoDup, distinct_NoDup.
Qed.

(** ** Aggregation *)

Lemma collect_map_ok {A B} (f : A -> result B) (g : A -> B) (l : list A) :
  (forall x, In x l -> f x = Ok (g x)) -> collect (map f l) = Ok (map g l).
Proof.
  induction l as [|x l IH]; simpl; intros H; [done|].
  rewrite (H x) by by left. rewrite IH; [done|]. intros y Hy. apply H. by right.
Qed.

Lemma collect_map_raise {A B} (f : A -> result B) (e : exn) (l : list A) :
  (forall x, In x l -> (exists b, f x = Ok b) \/ f x = Raise e) ->
  (exists x, In x l /\ f x = Raise e) ->
  collect (map f l) = Raise e.
Proof.
  induction l as [|x l IH]; simpl; intros Hall (y & Hy & Hf); [done|].
  destruct (Hall x) as [[b Hb]|Hr]; [by left | | by rewrite Hr].
  rewrite Hb. destruct Hy as [->|Hy]; [congruence|].
  rewrite IH; [done | | by exists y]. intros z Hz. apply Hall. by right.
Qed.

Lemma column_rows (df : DataFrame) (c : string) (i : nat) :
  label_index c (columns df) = Some i -> get_column df c = map (cell i) (rows df).
Proof. intros H. unfold get_column. by rewrite H. Qed.

Lemma pairs_rows (df : DataFrame) (a b : string) (i j : nat) :
  label_index a (columns df) = Some i -> label_index b (columns df) = Some j ->
  pairs df a b = map (fun r => (cell i r, cell j r)) (rows df).
Proof.
  intros Ha Hb. unfold pairs, get_column. rewrite Ha, Hb.
  induction (rows df) as [|r rs IH]; simpl; [done|]. by rewrite <- IH.
Qed.

Lemma cells_where_rows (df : DataFrame) (key metric : string) (ki mi : nat) (k : value) :
  label_index key (columns df) = Some ki ->
  label_index metric (columns df) = Some mi ->
  cells_where df key k metric
  = map (cell mi) (List.filter (fun r => value_eqb (cell ki r) k) (rows df)).
Proof.
  intros Hk Hm. unfold cells_where, pairs, get_column. rewrite Hk, Hm.
  induction (rows df) as [|r rs IH]; simpl; [done|].
  destruct (value_eqb (cell ki r) k); simpl; by rewrite IH.
Qed.

Lemma text_among_rows (df : DataFrame) (key metric : string) (ki mi : nat) :
  label_index key (columns df) = Some ki ->
  label_index metric (columns df) = Some mi ->
  text_among (pairs df key metric)
  = existsb (fun r => negb (is_na (cell ki r)) && is_text (cell mi r)) (rows df).
Proof.
  intros Hk Hm. rewrite (pairs_rows df key metric ki mi Hk Hm). unfold text_among.
  induction (rows df) as [|r rs IH]; simpl; [done|]. by rewrite IH.
Qed.

Lemma numeric_no_text (df : DataFrame) (key metric : string) :
  numeric (get_column df metric) -> text_among (pairs df key metric) = false.
Proof.
  intros Hnum. destruct (text_among _) eqn:E; [|done].
  apply existsb_exists in E as ([k m] & Hin & Hc). simpl in Hc.
  apply andb_true_iff in Hc as [_ Ht].
  unfold pairs in Hin. apply list_elem_of_In, elem_of_zip_r in Hin. simpl in Hin.
  unfold numeric in Hnum. rewrite Forall_forall in Hnum.
  destruct (Hnum m Hin) as [->|[q ->]]; done.
Qed.

Lemma groupby_mean_eval (df : DataFrame) (key metric out : string) :
  In key (columns df) -> In metric (columns df) ->
  groupby_mean df key metric out
  = if text_among (pairs df key metric) then Raise agg_error
    else Ok (mkDF [key; out]
               (map (fun k => [k; average (numbers (cells_where df key k metric))])
                  (group_keys (get_column df key)))).
Proof.
  intros Hk Hm.
  destruct (label_index_Some _ _ Hk) as [ki Hki].
  destruct (label_index_Some _ _ Hm) as [mi Hmi].
  unfold groupby_mean. rewrite Hki, Hmi.
  rewrite (text_among_rows df key metric ki mi Hki Hmi), (column_rows df key ki Hki).
  set (f := fun k => match mean (map (cell mi) (group df ki k)) with
                     | Ok m => Ok [k; m]
                     | Raise e => Raise e
                     end).
  destruct (existsb _ (rows df)) eqn:E.
  - apply existsb_exists in E as (r & Hr & Hc).
    apply andb_true_iff in Hc as [Hna Htext].
    rewrite (collect_map_raise f agg_error); [done | |].
    + intros k _. unfold f, mean. destruct (existsb is_text _); eauto.
    + exists (cell ki r). split.
      * apply group_keys_In. split; [|by apply in_map].
        intros E'. by rewrite E' in Hna.
      * unfold f, mean.
        assert (H : existsb is_text (map (cell mi) (group df ki (cell ki r))) = true).
        { apply existsb_exists. exists (cell mi r). split; [|done].
          apply in_map, filter_In. split; [done | by apply value_eqb_eq]. }
        by rewrite H.
  - rewrite (collect_map_ok f
               (fun k => [k; average (numbers (cells_where df key k metric))])); [done|].
    intros k Hin. apply group_keys_In in Hin as [Hkna _]. unfold f, mean.
    assert (H : existsb is_text (map (cell mi) (group df ki k)) = false).
    { destruct (existsb is_text _) eqn:E'; [|done].
      apply existsb_exists in E' as (v & Hv & Ht).
      apply in_map_iff in Hv as (r & <- & Hr).
      apply filter_In in Hr as [Hr Heq]. apply value_eqb_eq in Heq.
      assert (Hex : existsb (fun r => negb (is_na (cell ki r)) && is_text (cell mi r))
                      (rows df) = true).
      { apply existsb_exists. exists r. split; [done|].
        rewrite Heq, Ht. by destruct k. }
      congruence. }
    by rewrite H, (cells_where_rows df key metric ki mi).
Qed.

(** ** Review summary *)

Lemma prepare_reviews_eval (reviews : DataFrame) :
  In "listing_id" (columns reviews) -> In "rating" (columns reviews) ->
  _prepare_reviews reviews
  = if text_among (pairs reviews "listing_id" "rating") then Raise agg_error
    else Ok (mkDF ["listing_id"; "rating"]
               (map (fun k =>
                       [k; average (numbers (cells_where reviews "listing_id" k "rating"))])
                  (group_keys (get_column reviews "listing_id")))).
Proof.
  intros Hl Hr. unfold _prepare_reviews.
  rewrite (proj2 (has_column_In _ _) Hl), (proj2 (has_column_In _ _) Hr). simpl.
  by apply groupby_mean_eval.
Qed.

(** C4 as stated fails: a text among the ratings makes [_prepare_reviews]
    raise [TypeError], so that it returns no row at all for reviews that
    have both columns and listing ids. *)
Lemma prepare_reviews_rejects_text_rating :
  let reviews := mkDF ["listing_id"; "rating"]
                   [[Num (qc 1 1); Num (qc 4 1)]; [Num (qc 2 1); Str "good"]] in
  In "listing_id" (columns reviews) /\ In "rating" (columns reviews)
  /\ _prepare_reviews reviews = Raise agg_error
  /\ ~ exists out, _prepare_reviews reviews = Ok out.
Proof.
  simpl. split; [tauto|]. split; [tauto|]. split; [reflexivity|].
  intros [out H]. discriminate H.
Qed.

(** C4, amended: [_prepare_reviews] returns the empty frame when the
    reviews have no [listing_id] column or no [rating] column.  Otherwise,
    for reviews whose labels are distinct and whose ratings are numbers
    or missing values, the result has the columns [listing_id] and
    [rating] and exactly one row for each distinct (non-missing) listing
    id of the reviews, holding that id and the mean of the ratings of the
    reviews with that id; the three reviews of the scenario give (1, 4.5)
    and (2, 3). *)
Theorem prepare_reviews_one_row_per_listing (reviews : DataFrame) :
  (~ In "listing_id" (columns reviews) -> _prepare_reviews reviews = Ok empty_frame)
  /\ (~ In "rating" (columns reviews) -> _prepare_reviews reviews = Ok empty_frame)
  /\ (In "listing_id" (columns reviews) -> In "rating" (columns reviews) ->
      List.NoDup (columns reviews) -> numeric (get_column reviews "rating") ->
        exists ids : list value,
          _prepare_reviews reviews
          = Ok (mkDF ["listing_id"; "rating"]
                  (map (fun k =>
                          [k; average (numbers (cells_where reviews "listing_id" k "rating"))])
                     ids))
          /\ List.NoDup ids
          /\ (forall k, In k ids <->
                        k <> NA /\ In k (get_column reviews "listing_id")))
  /\ _prepare_reviews
       (mkDF ["listing_id"; "rating"]
          [[Num (qc 1 1); Num (qc 4 1)]; [Num (qc 1 1); Num (qc 5 1)];
           [Num (qc 2 1); Num (qc 3 1)]])
     = Ok (mkDF ["listing_id"; "rating"]
             [[Num (qc 1 1); Num (qc 9 2)]; [Num (qc 2 1); Num (qc 3 1)]]).
Proof.
  split; [|split; [|split]].
  - intros H. unfold _prepare_reviews.
    destruct (has_column reviews "listing_id") eqn:E; [|done].
    by apply has_column_In in E.
  - intros H. unfold _prepare_reviews. destruct (has_column reviews "rating") eqn:E.
    + by apply has_column_In in E.
    + by destruct (has_column reviews "listing_id").
  - intros Hl Hr _ Hnum.
    rewrite (prepare_reviews_eval reviews Hl Hr), (numeric_no_text _ _ _ Hnum).
    exists (group_keys (get_column reviews "listing_id")).
    split; [done|]. split; [apply group_keys_NoDup | apply group_keys_In].
  - by_eval.
Qed.

Lemma prepare_reviews_scenario :
  exists ids : list value,
    _prepare_reviews reviews_sample
    = Ok (mkDF ["listing_id"; "rating"]
            (map (fun k =>
                    [k; average (numbers (cells_where reviews_sample "listing_id" k "rating"))])
               ids))
    /\ List.NoDup ids
    /\ (forall k, In k ids <->
                  k <> NA /\ In k (get_column reviews_sample "listing_id")).
Proof.
  apply (proj1 (proj2 (proj2 (prepare_reviews_one_row_per_listing reviews_sample)))).
  - simpl; tauto.
  - simpl; tauto.
  - repeat constructor; simpl; intuition discriminate.
  - unfold numeric.
    change (get_column reviews_sample "rating")
      with [Num (qc 4 1); Num (qc 5 1); Num (qc 3 1)].
    constructor; [right; by eexists|]. constructor; [right; by eexists|].
    constructor; [right; by eexists | constructor].
Defined.

(** ** Rankings by area *)

Lemma dropna_selection (i j : nat) (rs : list row) :
  List.filter (fun r : row => negb (existsb is_na r)) (map (fun r => [cell i r; cell j r]) rs)
  = map (fun p : value * value => [fst p; snd p])
      (List.filter complete (map (fun r => (cell i r, cell j r)) rs)).
Proof.
  induction rs as [|r rs IH]; simpl; [done|].
  unfold complete at 1. simpl.
  destruct (is_na (cell i r)), (is_na (cell j r)); simpl; by rewrite IH.
Qed.

Lemma zip_of_pairs (ps : list (value * value)) :
  zip (map (cell 0) (map (fun p : value * value => [fst p; snd p]) ps))
      (map (cell 1) (map (fun p : value * value => [fst p; snd p]) ps))
  = ps.
Proof. induction ps as [|[a b] ps IH]; simpl; [done|]. by rewrite IH. Qed.

Lemma pairs_of_selection (df : DataFrame) (level metric : string) (sel : DataFrame) :
  level <> metric -> select2 df level metric = Ok sel ->
  pairs (dropna sel) level metric = List.filter complete (pairs df level metric)
  /\ get_column (dropna sel) level
     = map fst (List.filter complete (pairs df level metric))
  /\ In level (columns (dropna sel)) /\ In metric (columns (dropna sel)).
Proof.
  intros Hlm Hsel. unfold select2 in Hsel.
  destruct (label_index level (columns df)) as [i|] eqn:Hi;
    destruct (label_index metric (columns df)) as [j|] eqn:Hj; try done.
  injection Hsel as <-.
  rewrite (pairs_rows df level metric i j Hi Hj).
  unfold pairs, get_column, dropna. cbn [columns rows label_index].
  rewrite String.eqb_refl.
  rewrite (proj2 (String.eqb_neq metric level)) by congruence.
  rewrite String.eqb_refl. cbn [fmap option_fmap option_map].
  rewrite dropna_selection. split; [apply zip_of_pairs|]. split.
  - rewrite map_map. done.
  - simpl. tauto.
Qed.

Lemma selection_group_keys (ps : list (value * value)) (k : value) :
  In k (group_keys (map fst (List.filter complete ps)))
  <-> exists m, In (k, m) ps /\ k <> NA /\ m <> NA.
Proof.
  rewrite group_keys_In, in_map_iff. split.
  - intros (Hk & [a m] & <- & Hin). apply filter_In in Hin as [Hin Hc].
    exists m. split; [done|]. split; [done|].
    unfold complete in Hc. simpl in Hc. destruct m; try done.
    by rewrite andb_false_r in Hc.
  - intros (m & Hin & Hk & Hm). split; [done|].
    exists (k, m). split; [done|]. apply filter_In. split; [done|].
    unfold complete. simpl. by destruct k, m.
Qed.

(** The aggregation of a ranking, in terms of the pairs of area and
    metric of the table. *)
Lemma ranking_eval (df : DataFrame) (level metric out : string) (sel : DataFrame) :
  level <> metric -> select2 df level metric = Ok sel ->
  groupby_mean (dropna sel) level metric out
  = if text_among (List.filter complete (pairs df level metric)) then Raise agg_error
    else Ok (mkDF [level; out]
               (map (fun k =>
                       [k; average (numbers (complete_cells_where df level k metric))])
                  (group_keys (map fst (List.filter complete (pairs df level metric)))))).
Proof.
  intros Hlm Hsel.
  destruct (pairs_of_selection df level metric sel Hlm Hsel) as (Hp & Hc & Hl & Hm).
  rewrite (groupby_mean_eval _ _ _ _ Hl Hm), Hp, Hc.
  unfold cells_where, complete_cells_where. by rewrite Hp.
Qed.

Lemma sort_ranking (level out : string) (rws : list row) :
  level <> out ->
  sort_values_desc (mkDF [level; out] rws) out
  = mkDF [level; out] (sort_list (fun r s : row => value_geb (cell 1 r) (cell 1 s)) rws).
Proof.
  intros Hlo. unfold sort_values_desc. cbn [columns rows label_index].
  rewrite (proj2 (String.eqb_neq out level)) by congruence.
  by rewrite String.eqb_refl.
Qed.

Lemma sorted_rows_of_keys (f : value -> value) (keys : list value) (rs : list row) :
  Permutation rs (map (fun k => [k; f k]) keys) ->
  rs = map (fun k => [k; f k]) (map (cell 0) rs)
  /\ Permutation (map (cell 0) rs) keys.
Proof.
  intros Hp. split.
  - assert (Hall : Forall (fun r : row => r = [cell 0 r; f (cell 0 r)]) rs).
    { rewrite Hp. apply Forall_forall. intros r Hr.
      apply list_elem_of_In, in_map_iff in Hr as (k & <- & _). done. }
    clear Hp. induction Hall as [|r rs Hr _ IH]; simpl; [done|].
    by rewrite <- Hr, <- IH.
  - rewrite Hp, map_map. simpl. by rewrite map_id.
Qed.

(** What a ranking returns when no text is averaged. *)
Lemma ranking_spec (df : DataFrame) (level metric out : string) (sel : DataFrame) :
  level <> metric -> level <> out ->
  select2 df level metric = Ok sel ->
  text_among (List.filter complete (pairs df level metric)) = false ->
  exists areas : list value,
    match groupby_mean (dropna sel) level metric out with
    | Raise e => Raise e
    | Ok grouped => Ok (sort_values_desc grouped out)
    end
    = Ok (mkDF [level; out]
            (map (fun k => [k; average (numbers (complete_cells_where df level k metric))])
               areas))
    /\ List.NoDup areas
    /\ (forall k, In k areas <->
          exists m, In (k, m) (pairs df level metric) /\ k <> NA /\ m <> NA)
    /\ Sorted (fun a b => value_geb a b = true)
         (map (fun k => average (numbers (complete_cells_where df level k metric))) areas).
Proof.
  intros Hne1 Hne2 Hsel Hnum.
  rewrite (ranking_eval df level metric out sel Hne1 Hsel), Hnum.
  rewrite (sort_ranking level out _ Hne2).
  set (f := fun k => average (numbers (complete_cells_where df level k metric))).
  set (keys := group_keys _).
  set (sorted := sort_list _ _).
  assert (Hperm : Permutation sorted (map (fun k => [k; f k]) keys)).
  { apply sort_list_perm. }
  destruct (sorted_rows_of_keys f keys sorted Hperm) as [Hrows Hkeys].
  exists (map (cell 0) sorted). split; [do 2 f_equal; exact Hrows|].
  split; [|split].
  - apply NoDup_ListNoDup. rewrite Hkeys. apply NoDup_ListNoDup, group_keys_NoDup.
  - intros k. rewrite <- list_elem_of_In, Hkeys, list_elem_of_In.
    apply selection_group_keys.
  - assert (Hs : Sorted (fun r s : row => value_geb (cell 1 r) (cell 1 s) = true) sorted).
    { apply sort_list_sorted. intros r s. apply value_geb_total. }
    rewrite Hrows in Hs. clear -Hs.
    induction (map (cell 0) sorted) as [|k ks IH]; simpl; [constructor|].
    inversion Hs as [|? ? Hs' Hhd]; subst. constructor; [by apply IH|].
    destruct ks; simpl in *; constructor. by inversion Hhd.
Qed.

Lemma complete_no_text (df : DataFrame) (level metric : string) :
  numeric (get_column df metric) ->
  text_among (List.filter complete (pairs df level metric)) = false.
Proof.
  intros Hnum. pose proof (numeric_no_text df level metric Hnum) as H.
  destruct (text_among (List.filter _ _)) eqn:E; [|done].
  apply existsb_exists in E as (p & Hin & Hc). apply filter_In in Hin as [Hin _].
  assert (Hex : text_among (pairs df level metric) = true)
    by (apply existsb_exists; by exists p).
  congruence.
Qed.

Lemma select2_ok (df : DataFrame) (a b : string) :
  In a (columns df) -> In b (columns df) -> exists sel, select2 df a b = Ok sel.
Proof.
  intros Ha Hb. unfold select2.
  destruct (label_index_Some _ _ Ha) as [i ->].
  destruct (label_index_Some _ _ Hb) as [j ->]. eauto.
Qed.

Lemma level_not_metric (level : string) :
  In level levels ->
  level <> "precio_noche" /\ level <> "precio_medio"
  /\ level <> "ocupacion_estimada" /\ level <> "ocupacion_media".
Proof. simpl. intuition (subst; discriminate). Qed.

(** C5 as stated fails: an area whose rows all lack a price is a distinct
    area value of the table, and the ranking has no row for it; and a
    price that is a text makes the ranking raise [TypeError]. *)
Lemma price_by_area_omits_area_without_price :
  let df := mkDF ["district"; "precio_noche"]
              [[Str "Centro"; Num (qc 10 1)]; [Str "Retiro"; NA]] in
  In "district" (columns df)
  /\ In (Str "Retiro") (get_column df "district")
  /\ (exists out, price_by_area df "district" = Ok out
                  /\ ~ In (Str "Retiro") (get_column out "district"))
  /\ price_by_area (mkDF ["district"; "precio_noche"] [[Str "Centro"; Str "12"]])
       "district"
     = Raise agg_error.
Proof.
  simpl. split; [tauto|]. split; [tauto|]. split; [|reflexivity].
  eexists. split; [reflexivity|]. vm_compute. intros [H|[]]. discriminate.
Qed.

(** C5, amended: for a level among "district" and "neighbourhood",
    [price_by_area] returns the empty frame when the table lacks the level
    column; when the table (its labels distinct) has the level column and
    a [precio_noche] column of numbers and missing values, it returns one
    row for each distinct area value that occurs in a row where neither
    the area nor the price is missing, holding the area and the mean price
    over those rows, the rows being sorted by descending mean.  Prices 10
    and 20 in area A and 50 in area B give B with 50, then A with 15. *)
Theorem price_by_area_ranks_areas (df : DataFrame) (level : string) :
  In level levels ->
  price_by_area
    (mkDF ["district"; "precio_noche"]
       [[Str "A"; Num (qc 10 1)]; [Str "B"; Num (qc 50 1)]; [Str "A"; Num (qc 20 1)];
        [Str "C"; NA]; [NA; Num (qc 99 1)]])
    "district"
  = Ok (mkDF ["district"; "precio_medio"]
          [[Str "B"; Num (qc 50 1)]; [Str "A"; Num (qc 15 1)]])
  /\ (~ In level (columns df) -> price_by_area df level = Ok empty_frame)
  /\ (In level (columns df) -> In "precio_noche" (columns df) ->
      List.NoDup (columns df) -> numeric (get_column df "precio_noche") ->
        exists areas : list value,
          price_by_area df level
          = Ok (mkDF [level; "precio_medio"]
                  (map (fun k =>
                          [k; average
                                (numbers (complete_cells_where df level k "precio_noche"))])
                     areas))
          /\ List.NoDup areas
          /\ (forall k, In k areas <->
                exists m, In (k, m) (pairs df level "precio_noche")
                          /\ k <> NA /\ m <> NA)
          /\ Sorted (fun a b => value_geb a b = true)
               (map (fun k =>
                       average (numbers (complete_cells_where df level k "precio_noche")))
                  areas)).
Proof.
  intros Hlevel.
  assert (Hm : mem level levels = true) by by apply mem_In.
  destruct (level_not_metric level Hlevel) as (Hne1 & Hne2 & _).
  split; [by_eval|].
  unfold price_by_area. rewrite Hm. simpl. split.
  - intros Hno. destruct (has_column df level) eqn:E; [|done].
    by apply has_column_In in E.
  - intros Hl Hp _ Hnum. rewrite (proj2 (has_column_In _ _) Hl). simpl.
    destruct (select2_ok df level "precio_noche" Hl Hp) as [sel Hsel]. rewrite Hsel.
    apply (ranking_spec df level "precio_noche" "precio_medio" sel Hne1 Hne2 Hsel).
    by apply complete_no_text.
Qed.

Lemma price_by_area_ranks_sample :
  let df := mkDF ["district"; "precio_noche"]
              [[Str "A"; Num (qc 10 1)]; [Str "B"; Num (qc 50 1)]; [Str "A"; Num (qc 20 1)];
               [Str "C"; NA]; [NA; Num (qc 99 1)]] in
  exists areas : list value,
    price_by_area df "district"
    = Ok (mkDF ["district"; "precio_medio"]
            (map (fun k =>
                    [k; average
                          (numbers (complete_cells_where df "district" k "precio_noche"))])
               areas))
    /\ List.NoDup areas.
Proof.
  intros df.
  destruct (price_by_area_ranks_areas df "district") as (_ & _ & H); [simpl; tauto|].
  destruct H as (areas & Heq & Hnd & _).
  - simpl; tauto.
  - simpl; tauto.
  - repeat constructor; simpl; intuition discriminate.
  - unfold numeric.
    change (get_column df "precio_noche")
      with [Num (qc 10 1); Num (qc 50 1); Num (qc 20 1); NA; Num (qc 99 1)].
    constructor; [right; by eexists|]. constructor; [right; by eexists|].
    constructor; [right; by eexists|]. constructor; [by left|].
    constructor; [right; by eexists | constructor].
  - exists areas. by split.
Defined.

(** ** Unification: the left joins *)

Lemma expanding_id : expanding (fun l => [l]).
Proof.
  intros l. split; [done|]. constructor; [|done]. exists []. by rewrite app_nil_r.
Qed.

Lemma expanding_compose (g h : row -> list row) :
  expanding g -> expanding h -> expanding (fun l => flat_map h (g l)).
Proof.
  intros Hg Hh l. destruct (Hg l) as [Hne Hall]. split.
  - destruct (g l) as [|r rs]; [done|]. simpl.
    destruct (Hh r) as [Hr _]. destruct (h r); [done|]. done.
  - apply Forall_forall. intros r' Hr'.
    apply list_elem_of_In, in_flat_map in Hr' as (r & Hr & Hin).
    rewrite Forall_forall in Hall.
    destruct (Hall r) as [t ->]; [by apply list_elem_of_In|].
    destruct (Hh (l ++ t)) as [_ Hall'].
    rewrite Forall_forall in Hall'.
    destruct (Hall' r') as [u ->]; [by apply list_elem_of_In|].
    exists (t ++ u). by rewrite app_assoc.
Qed.

Lemma flat_map_singleton (rs : list row) : flat_map (fun l => [l]) rs = rs.
Proof. induction rs as [|r rs IH]; simpl; [done | by rewrite IH]. Qed.

Lemma flat_map_flat_map (g h : row -> list row) (rs : list row) :
  flat_map h (flat_map g rs) = flat_map (fun l => flat_map h (g l)) rs.
Proof.
  induction rs as [|r rs IH]; simpl; [done|].
  by rewrite flat_map_app, IH.
Qed.

Lemma normalize_neighbourhoods_rows (listings neighbourhoods : DataFrame) :
  rows (fst (_normalize_neighbourhoods listings neighbourhoods)) = rows listings.
Proof.
  unfold _normalize_neighbourhoods. simpl.
  by destruct (has_column listings "neighbourhood_cleansed").
Qed.

Lemma joined_expanding (right : DataFrame) (li ri : nat) (shared : bool) :
  expanding (joined right li ri shared).
Proof.
  intros l. unfold joined.
  destruct (List.filter _ (rows right)) as [|m ms].
  - split; [done|]. constructor; [by eexists | done].
  - split; [done|]. apply Forall_forall. intros r' Hr'.
    apply list_elem_of_In, in_map_iff in Hr' as (r & <- & _). by eexists.
Qed.

(** What a merge that succeeds returns. *)
Lemma merge_left_inv (left right : DataFrame) (lo ro ls rs : string) (out : DataFrame) :
  merge_left left right lo ro ls rs = Ok out ->
  exists li ri,
    label_index lo (columns left) = Some li
    /\ label_index ro (columns right) = Some ri
    /\ rows out = flat_map (joined right li ri (String.eqb lo ro)) (rows left)
    /\ List.length (columns out)
       = List.length (columns left)
         + List.length (if String.eqb lo ro then drop_at ri (columns right)
                        else columns right).
Proof.
  intros H. unfold merge_left in H.
  destruct (label_index ro (columns right)) as [ri|]; [|done].
  destruct (negb (Nat.eqb (occurrences ro (columns right)) 1)); [done|].
  destruct (label_index lo (columns left)) as [li|]; [|done].
  destruct (negb (Nat.eqb (occurrences lo (columns left)) 1)); [done|].
  destruct (negb (comparable _ _)); [done|].
  cbv zeta in H.
  destruct (suffix_clash _ _ _ _ || suffix_clash _ _ _ _); [done|].
  injection H as <-. exists li, ri. cbn [rows columns].
  by rewrite length_app, !length_map.
Qed.

Lemma merge_left_rows (left right : DataFrame) (lo ro ls rs : string) (out : DataFrame) :
  merge_left left right lo ro ls rs = Ok out ->
  exists g, expanding g /\ rows out = flat_map g (rows left).
Proof.
  intros H. destruct (merge_left_inv _ _ _ _ _ _ _ H) as (li & ri & _ & _ & Hrows & _).
  eexists. split; [apply joined_expanding | exact Hrows].
Qed.

(** The steps of [unify_data]: the summary of the reviews, the join with
    it, and the join with the reference table. *)
Lemma unify_data_steps (listings reviews neighbourhoods idealista u : DataFrame) :
  unify_data listings reviews neighbourhoods idealista = Ok u
  <-> exists s l1 : DataFrame,
        _prepare_reviews reviews = Ok s
        /\ (if negb (df_empty s)
               && has_column (fst (_normalize_neighbourhoods listings neighbourhoods)) "id"
            then merge_left (fst (_normalize_neighbourhoods listings neighbourhoods)) s
                   "id" "listing_id" "_x" "_y"
            else Ok (fst (_normalize_neighbourhoods listings neighbourhoods))) = Ok l1
        /\ (if has_column l1 "neighbourhood"
               && has_column (snd (_normalize_neighbourhoods listings neighbourhoods))
                    "neighbourhood"
            then merge_left l1 (snd (_normalize_neighbourhoods listings neighbourhoods))
                   "neighbourhood" "neighbourhood" "" "_ref"
            else Ok l1) = Ok u.
Proof.
  unfold unify_data.
  destruct (_normalize_neighbourhoods listings neighbourhoods) as [ln nn].
  cbn [fst snd]. split.
  - intros H. destruct (_prepare_reviews reviews) as [s|e]; [|done].
    exists s.
    destruct (if negb (df_empty s) && has_column ln "id"
              then merge_left ln s "id" "listing_id" "_x" "_y" else Ok ln)
      as [l1|e]; [|done].
    by exists l1.
  - intros (s & l1 & -> & -> & H). exact H.
Qed.

Lemma unify_data_rows (listings reviews neighbourhoods idealista u : DataFrame) :
  unify_data listings reviews neighbourhoods idealista = Ok u ->
  exists g, expanding g /\ rows u = flat_map g (rows listings).
Proof.
  intros H. apply unify_data_steps in H as (s & l1 & _ & H1 & H2).
  rewrite <- (normalize_neighbourhoods_rows listings neighbourhoods).
  set (ln := fst _) in *. set (nn := snd _) in *.
  assert (Hg1 : exists g, expanding g /\ rows l1 = flat_map g (rows ln)).
  { destruct (negb (df_empty s) && has_column ln "id").
    - by apply merge_left_rows in H1.
    - injection H1 as <-. exists (fun l => [l]).
      split; [apply expanding_id | by rewrite flat_map_singleton]. }
  assert (Hg2 : exists g, expanding g /\ rows u = flat_map g (rows l1)).
  { destruct (has_column l1 "neighbourhood" && has_column nn "neighbourhood").
    - by apply merge_left_rows in H2.
    - injection H2 as <-. exists (fun l => [l]).
      split; [apply expanding_id | by rewrite flat_map_singleton]. }
  destruct Hg1 as (g1 & Hg1 & Hr1). destruct Hg2 as (g2 & Hg2 & Hr2).
  exists (fun l => flat_map g2 (g1 l)). split; [by apply expanding_compose|].
  by rewrite Hr2, Hr1, flat_map_flat_map.
Qed.

Lemma filter_none {A} (f : A -> bool) (l : list A) :
  (forall x, In x l -> f x = false) -> List.filter f l = [].
Proof.
  induction l as [|x l IH]; simpl; intros H; [done|].
  rewrite (H x) by by left. apply IH. intros y Hy. apply H. by right.
Qed.

Lemma filter_all {A} (f : A -> bool) (l : list A) :
  (forall x, In x l -> f x = true) -> List.filter f l = l.
Proof.
  induction l as [|x l IH]; simpl; intros H; [done|].
  rewrite (H x) by by left. f_equal. apply IH. intros y Hy. apply H. by right.
Qed.

Lemma map_unchanged {A} (f : A -> A) (l : list A) :
  (forall x, In x l -> f x = x) -> map f l = l.
Proof.
  induction l as [|x l IH]; simpl; intros H; [done|].
  rewrite (H x) by by left. f_equal. apply IH. intros y Hy. apply H. by right.
Qed.

Lemma nodup_app_disjoint {A} (l k : list A) (x : A) :
  List.NoDup (l ++ k) -> In x l -> ~ In x k.
Proof.
  induction l as [|y l IH]; simpl; intros Hnd Hin Hk; [done|].
  inversion Hnd as [|? ? Hnot Hnd']; subst. destruct Hin as [->|Hin].
  - apply Hnot, in_or_app. by right.
  - by apply IH.
Qed.

Lemma occurrences_once (c : string) (cs : list string) :
  List.NoDup cs -> In c cs -> occurrences c cs = 1.
Proof.
  unfold occurrences. induction cs as [|x cs IH]; simpl; intros Hnd Hin; [done|].
  inversion Hnd as [|? ? Hnot Hnd']; subst.
  destruct (String.eqb_spec c x) as [E|Hne].
  - subst x. simpl. f_equal. rewrite filter_none; [done|]. intros y Hy.
    apply String.eqb_neq. intros E. by subst y.
  - destruct Hin as [E|Hin]; [congruence|]. by apply IH.
Qed.

Lemma drop_at_In {A} (i : nat) (x : A) (l : list A) : In x (drop_at i l) -> In x l.
Proof.
  unfold drop_at. revert i. induction l as [|y l IH]; intros i.
  - by destruct i.
  - destruct i as [|i]; simpl.
    + rewrite drop_0. by right.
    + intros [->|H]; [by left | right; by apply (IH i)].
Qed.

(** Without the key label, when it occurs once. *)
Lemma drop_at_filter (k : string) (cs : list string) (i : nat) :
  List.NoDup cs -> label_index k cs = Some i ->
  drop_at i cs = List.filter (fun c => negb (String.eqb c k)) cs.
Proof.
  revert i. induction cs as [|x cs IH]; intros i Hnd Hi; [done|].
  inversion Hnd as [|? ? Hnot Hnd']; subst. simpl in Hi.
  destruct (String.eqb_spec k x) as [E|Hne].
  - subst x. injection Hi as <-. simpl. rewrite String.eqb_refl. simpl.
    unfold drop_at. simpl. rewrite drop_0. symmetry. apply filter_all.
    intros y Hy. apply negb_true_iff, String.eqb_neq. intros E. by subst y.
  - destruct (label_index k cs) as [j|]; [|done]. injection Hi as <-.
    simpl. rewrite (proj2 (String.eqb_neq x k)) by congruence. simpl.
    rewrite <- (IH j Hnd' eq_refl). reflexivity.
Qed.

Lemma suffix_clash_same (seen cs : list string) : suffix_clash seen seen cs cs = false.
Proof.
  revert seen. induction cs as [|c cs IH]; intros seen; simpl; [done|].
  rewrite IH. by destruct (mem c seen).
Qed.

(** A merge succeeds when each key label occurs once in its frame, the
    key columns are comparable and the frames share no other label; no
    label then takes a suffix. *)
Lemma merge_left_ok (left right : DataFrame) (lo ro ls rs : string) (li ri : nat) :
  label_index lo (columns left) = Some li ->
  label_index ro (columns right) = Some ri ->
  occurrences lo (columns left) = 1 ->
  occurrences ro (columns right) = 1 ->
  comparable (map (cell li) (rows left)) (map (cell ri) (rows right)) = true ->
  (forall c, In c (columns left) ->
     ~ In c (if String.eqb lo ro then drop_at ri (columns right) else columns right)) ->
  merge_left left right lo ro ls rs
  = Ok (mkDF (columns left
              ++ (if String.eqb lo ro then drop_at ri (columns right) else columns right))
          (flat_map (joined right li ri (String.eqb lo ro)) (rows left))).
Proof.
  intros Hli Hri Hlo Hro Hc Hdisj. unfold merge_left.
  rewrite Hri, Hro, Hli, Hlo, Hc. cbn [Nat.eqb negb]. cbv zeta.
  set (rcols := if String.eqb lo ro then _ else _) in *.
  rewrite (map_unchanged _ (columns left)).
  2: { intros c Hin. destruct (mem c rcols) eqn:E; [|done].
       apply mem_In in E. by destruct (Hdisj c). }
  rewrite (map_unchanged _ rcols).
  2: { intros c Hin. destruct (mem c _) eqn:E; [|done]. apply mem_In in E.
       assert (Hc' : In c (columns left)).
       { destruct (String.eqb lo ro); [by apply drop_at_In in E | done]. }
       by destruct (Hdisj c). }
  by rewrite !suffix_clash_same.
Qed.

Lemma group_keys_nil (keys : list value) :
  group_keys keys = [] <-> Forall (fun v => v = NA) keys.
Proof.
  split.
  - intros H. apply Forall_forall. intros v Hv. apply list_elem_of_In in Hv.
    destruct (value_eqb v NA) eqn:E; [by apply value_eqb_eq|].
    assert (Hin : In v (group_keys keys)).
    { apply group_keys_In. split; [|done]. intros ->. simpl in E. discriminate. }
    by rewrite H in Hin.
  - intros H. destruct (group_keys keys) as [|k ks] eqn:E; [done|].
    assert (Hin : In k (group_keys keys)) by (rewrite E; by left).
    apply group_keys_In in Hin as [Hk Hin].
    rewrite Forall_forall in H. by apply list_elem_of_In, H in Hin.
Qed.

Lemma existsb_group_keys (P : value -> bool) (col : list value) :
  P NA = false -> existsb P (group_keys col) = existsb P col.
Proof.
  intros HP. apply Bool.eq_iff_eq_true. rewrite !existsb_exists. split.
  - intros (k & Hk & HPk). apply group_keys_In in Hk as [_ Hk]. eauto.
  - intros (k & Hk & HPk). exists k. split; [|done].
    apply group_keys_In. split; [|done]. intros ->. congruence.
Qed.

Lemma column_kind_group_keys (col : list value) :
  column_kind (group_keys col) = column_kind col.
Proof. unfold column_kind. by rewrite !existsb_group_keys. Qed.

Lemma comparable_iff (l r : list value) :
  comparable l r = true <-> l = [] \/ r = [] \/ column_kind l = column_kind r.
Proof.
  unfold comparable. destruct l as [|a l]; [tauto|]. destruct r as [|b r]; [tauto|].
  split.
  - intros H. right. right. by destruct (column_kind (a :: l)), (column_kind (b :: r)).
  - intros [H|[H|H]]; [done | done |]. rewrite H. by destruct (column_kind (b :: r)).
Qed.

Lemma comparable_group_keys (l r : list value) :
  comparable l r = true -> group_keys r <> [] -> comparable l (group_keys r) = true.
Proof.
  intros Hc Hne. apply comparable_iff. apply comparable_iff in Hc as [H|[H|H]].
  - by left.
  - subst r. by destruct Hne.
  - right. right. by rewrite column_kind_group_keys.
Qed.

Lemma existsb_expanded (P : value -> bool) (g : row -> list row) (i : nat) (rs : list row) :
  expanding g -> Forall (fun r : row => i < List.length r) rs ->
  existsb P (map (cell i) (flat_map g rs)) = existsb P (map (cell i) rs).
Proof.
  intros Hg Hall. induction Hall as [|r rs Hr _ IH]; [done|].
  simpl. rewrite map_app, existsb_app, IH. f_equal.
  destruct (Hg r) as [Hne Hpre].
  assert (Hcells : Forall (fun r' : row => cell i r' = cell i r) (g r)).
  { eapply Forall_impl; [exact Hpre|]. intros r' [t ->]. unfold cell.
    by apply app_nth1. }
  clear Hpre. destruct (g r) as [|r' rs']; [done|].
  clear Hne. revert r' Hcells. induction rs' as [|r'' rs' IH']; intros r' Hcells.
  - inversion Hcells as [|? ? E _]; subst. simpl. rewrite E. apply orb_false_r.
  - inversion Hcells as [|? ? E Hrest]; subst.
    change (existsb P (map (cell i) (r' :: r'' :: rs')))
      with (P (cell i r') || existsb P (map (cell i) (r'' :: rs'))).
    rewrite (IH' r'' Hrest), E. apply orb_diag.
Qed.

Lemma comparable_expanded (g : row -> list row) (i : nat) (rs : list row)
    (keys : list value) :
  expanding g -> Forall (fun r : row => i < List.length r) rs ->
  comparable (map (cell i) rs) keys = true ->
  comparable (map (cell i) (flat_map g rs)) keys = true.
Proof.
  intros Hg Hall Hc. apply comparable_iff. apply comparable_iff in Hc as [H|[H|H]].
  - left. destruct rs; [done | discriminate H].
  - by right; left.
  - right. right. rewrite <- H. unfold column_kind.
    by rewrite !(existsb_expanded _ g i rs Hg Hall).
Qed.

Lemma normalize_neighbourhoods_listings (listings neighbourhoods : DataFrame) :
  rectangular listings ->
  rectangular (fst (_normalize_neighbourhoods listings neighbourhoods)).
Proof.
  intros H. unfold _normalize_neighbourhoods. simpl.
  destruct (has_column listings _); [|done].
  unfold rectangular, rename. simpl. by rewrite length_map.
Qed.

Lemma summary_key_cells (f : value -> value) (keys : list value) :
  map (cell 0) (map (fun k => [k; f k]) keys) = keys.
Proof. rewrite map_map. simpl. apply map_id. Qed.

Lemma prepare_reviews_cases (reviews : DataFrame) :
  numeric (get_column reviews "rating") ->
  _prepare_reviews reviews = Ok empty_frame
  \/ _prepare_reviews reviews
     = Ok (mkDF ["listing_id"; "rating"]
             (map (fun k =>
                     [k; average (numbers (cells_where reviews "listing_id" k "rating"))])
                (group_keys (get_column reviews "listing_id")))).
Proof.
  intros Hnum. destruct (has_column reviews "listing_id") eqn:El.
  - destruct (has_column reviews "rating") eqn:Er.
    + right. apply has_column_In in El, Er.
      by rewrite (prepare_reviews_eval reviews El Er), (numeric_no_text _ _ _ Hnum).
    + left. unfold _prepare_reviews. by rewrite El, Er.
  - left. unfold _prepare_reviews. by rewrite El.
Qed.

(** The join with the review summary succeeds on listings that share no
    label with it and whose ids are of the kind of the reviews' listing
    ids. *)
Lemma first_join_ok (ln reviews : DataFrame) :
  numeric (get_column reviews "rating") ->
  List.NoDup (columns ln ++ ["listing_id"; "rating"]) ->
  comparable (get_column ln "id") (get_column reviews "listing_id") = true ->
  exists (s l1 : DataFrame) (g : row -> list row),
    _prepare_reviews reviews = Ok s
    /\ (if negb (df_empty s) && has_column ln "id"
        then merge_left ln s "id" "listing_id" "_x" "_y" else Ok ln) = Ok l1
    /\ expanding g /\ rows l1 = flat_map g (rows ln)
    /\ (columns l1 = columns ln \/ columns l1 = columns ln ++ ["listing_id"; "rating"]).
Proof.
  intros Hnum Hnd Hc.
  assert (Hskip : exists (l1 : DataFrame) (g : row -> list row),
            Ok ln = Ok l1
            /\ expanding g /\ rows l1 = flat_map g (rows ln)
            /\ (columns l1 = columns ln
                \/ columns l1 = columns ln ++ ["listing_id"; "rating"])).
  { exists ln, (fun l => [l]). split; [done|].
    split; [apply expanding_id|]. split; [by rewrite flat_map_singleton | by left]. }
  destruct Hskip as (l0 & g0 & Hskip).
  destruct (prepare_reviews_cases reviews Hnum) as [Hs|Hs].
  - by exists empty_frame, l0, g0.
  - set (f := fun k => average (numbers (cells_where reviews "listing_id" k "rating")))
      in Hs.
    set (keys := group_keys (get_column reviews "listing_id")) in Hs.
    set (s := mkDF ["listing_id"; "rating"] (map (fun k => [k; f k]) keys)) in Hs.
    destruct (negb (df_empty s) && has_column ln "id") eqn:E.
    + apply andb_true_iff in E as [Hne Hid].
      apply has_column_In in Hid.
      destruct (label_index_Some _ _ Hid) as [li Hli].
      assert (Hkeys : keys <> []).
      { intros E. unfold s, df_empty in Hne. simpl in Hne. by rewrite E in Hne. }
      exists s, (mkDF (columns ln ++ ["listing_id"; "rating"])
                   (flat_map (joined s li 0 false) (rows ln))),
        (joined s li 0 false).
      split; [done|]. rewrite Hne, (proj2 (has_column_In ln "id") Hid).
      split; [|split; [apply joined_expanding | split; [done | by right]]].
      apply (merge_left_ok ln s "id" "listing_id" "_x" "_y" li 0 Hli eq_refl).
      * apply occurrences_once; [by apply NoDup_app_remove_r in Hnd | done].
      * reflexivity.
      * unfold s. cbn [rows]. rewrite summary_key_cells.
        rewrite <- (column_rows ln "id" li Hli).
        by apply comparable_group_keys.
      * intros c Hin. change (String.eqb "id" "listing_id") with false. cbv iota.
        by apply (nodup_app_disjoint _ _ c Hnd).
    + exists s, l0, g0. split; [done|]. by rewrite E.
Qed.

(** The join with the reference table succeeds after it. *)
Lemma second_join_ok (ln l1 nn : DataFrame) (g : row -> list row) :
  rectangular ln -> expanding g -> rows l1 = flat_map g (rows ln) ->
  (columns l1 = columns ln \/ columns l1 = columns ln ++ ["listing_id"; "rating"]) ->
  List.NoDup (columns ln ++ ["listing_id"; "rating"]
              ++ List.filter (fun c => negb (String.eqb c "neighbourhood")) (columns nn)) ->
  List.NoDup (columns nn) ->
  comparable (get_column ln "neighbourhood") (get_column nn "neighbourhood") = true ->
  exists u,
    (if has_column l1 "neighbourhood" && has_column nn "neighbourhood"
     then merge_left l1 nn "neighbourhood" "neighbourhood" "" "_ref" else Ok l1) = Ok u.
Proof.
  intros Hrect Hg Hrows Hcols Hnd Hnnd Hc.
  destruct (has_column l1 "neighbourhood" && has_column nn "neighbourhood") eqn:E;
    [|eauto].
  apply andb_true_iff in E as [Hl1 Hnn]. apply has_column_In in Hl1, Hnn.
  destruct (label_index_Some _ _ Hnn) as [rj Hrj].
  assert (Hsub : forall c, In c (columns l1) -> In c (columns ln ++ ["listing_id"; "rating"])).
  { intros c Hin. destruct Hcols as [E|E]; rewrite E in Hin; [|done].
    apply in_or_app. by left. }
  assert (Hln : In "neighbourhood" (columns ln)).
  { destruct Hcols as [E|E]; rewrite E in Hl1; [done|].
    apply in_app_or in Hl1 as [H|H]; [done|]. simpl in H. intuition discriminate. }
  destruct (label_index_Some _ _ Hln) as [j Hj].
  assert (Hj1 : label_index "neighbourhood" (columns l1) = Some j).
  { destruct Hcols as [E|E]; rewrite E; [done | by apply label_index_app_l]. }
  rewrite app_assoc in Hnd.
  eexists. apply (merge_left_ok l1 nn _ _ _ _ j rj Hj1 Hrj).
  - apply occurrences_once; [|by eapply label_index_In].
    apply NoDup_app_remove_r in Hnd.
    destruct Hcols as [E|E]; rewrite E; [by apply NoDup_app_remove_r in Hnd | done].
  - by apply occurrences_once.
  - rewrite Hrows. apply comparable_expanded; [done | |].
    + unfold rectangular in Hrect. eapply Forall_impl; [exact Hrect|].
      intros r Hr. simpl in Hr. rewrite Hr. by eapply label_index_lt.
    + by rewrite <- (column_rows ln _ j Hj), <- (column_rows nn _ rj Hrj).
  - intros c Hin. change (String.eqb "neighbourhood" "neighbourhood") with true.
    cbv iota. rewrite (drop_at_filter "neighbourhood" (columns nn) rj Hnnd Hrj).
    apply (nodup_app_disjoint _ _ c Hnd). by apply Hsub.
Qed.

Lemma unify_data_ok (listings reviews neighbourhoods idealista : DataFrame) :
  unifiable listings reviews neighbourhoods ->
  exists u, unify_data listings reviews neighbourhoods idealista = Ok u.
Proof.
  intros (Hrect & _ & _ & Hnum & Hnd & Hnnd & Hc1 & Hc2).
  apply (normalize_neighbourhoods_listings listings neighbourhoods) in Hrect.
  set (ln := fst _) in *. set (nn := snd _) in *.
  assert (Hnd1 : List.NoDup (columns ln ++ ["listing_id"; "rating"])).
  { rewrite app_assoc in Hnd. by apply NoDup_app_remove_r in Hnd. }
  destruct (first_join_ok ln reviews Hnum Hnd1 Hc1)
    as (s & l1 & g & Hs & H1 & Hg & Hrows & Hcols).
  destruct (second_join_ok ln l1 nn g Hrect Hg Hrows Hcols Hnd Hnnd Hc2) as [u Hu].
  exists u. apply unify_data_steps. by exists s, l1.
Qed.

(** C1 as stated fails: there are tables for which [unify_data] has no
    output.  With listings whose ids are texts and reviews whose listing
    ids are numbers the first join raises [ValueError]. *)
Lemma unify_data_rejects_text_ids :
  let listings := mkDF ["id"] [[Str "a1"]; [Str "b2"]] in
  In [Str "a1"] (rows listings)
  /\ unify_data listings reviews_sample empty_frame empty_frame
     = Raise (incomparable_keys "id")
  /\ ~ exists u, unify_data listings reviews_sample empty_frame empty_frame = Ok u.
Proof.
  simpl. split; [tauto|]. split; [reflexivity|]. intros [u H]. discriminate H.
Qed.

(** C1, amended: whenever [unify_data] returns a table, it keeps every
    listing.  The rows of the table are the listing rows, in order, each
    replaced by one or more rows that start with the listing's own cells
    (the joins only append cells, missing ones when nothing matches); so
    every listing row is found in the result with its values.  It returns
    a table for all [unifiable] inputs.  A listing without a review (id 7
    below) is kept, its rating missing. *)
Theorem unify_data_keeps_listings
    (listings reviews neighbourhoods idealista : DataFrame) :
  (forall u, unify_data listings reviews neighbourhoods idealista = Ok u ->
     (exists g, expanding g /\ rows u = flat_map g (rows listings))
     /\ (forall r, In r (rows listings) -> exists r' t, In r' (rows u) /\ r' = r ++ t))
  /\ (unifiable listings reviews neighbourhoods ->
        exists u, unify_data listings reviews neighbourhoods idealista = Ok u)
  /\ unify_data
       (mkDF ["id"; "neighbourhood_cleansed"]
          [[Num (qc 1 1); Str "Centro"]; [Num (qc 7 1); Str "Sol"]])
       reviews_sample
       (mkDF ["neighbourhood_group"; "neighbourhood"]
          [[Str "Distrito Centro"; Str "Centro"]])
       empty_frame
     = Ok (mkDF ["id"; "neighbourhood"; "listing_id"; "rating"; "district"]
             [[Num (qc 1 1); Str "Centro"; Num (qc 1 1); Num (qc 9 2); Str "Distrito Centro"];
              [Num (qc 7 1); Str "Sol"; NA; NA; NA]]).
Proof.
  split; [|split; [apply unify_data_ok | by_eval]].
  intros u Hu. destruct (unify_data_rows _ _ _ _ _ Hu) as (g & Hg & Hrows).
  split; [by exists g|]. intros r Hr.
  destruct (Hg r) as [Hne Hall].
  destruct (g r) as [|r' rs'] eqn:Hgr; [done|].
  apply Forall_cons in Hall as [[t Ht] _].
  exists r', t. split; [|done].
  rewrite Hrows. apply in_flat_map. exists r. split; [done|].
  rewrite Hgr. by left.
Qed.

Lemma unify_data_keeps_sample :
  let listings := mkDF ["id"; "neighbourhood_cleansed"]
                    [[Num (qc 1 1); Str "Centro"]; [Num (qc 7 1); Str "Sol"]] in
  let neighbourhoods := mkDF ["neighbourhood_group"; "neighbourhood"]
                          [[Str "Distrito Centro"; Str "Centro"]] in
  exists u, unify_data listings reviews_sample neighbourhoods empty_frame = Ok u
            /\ exists r' t, In r' (rows u) /\ r' = [Num (qc 7 1); Str "Sol"] ++ t.
Proof.
  intros listings neighbourhoods.
  destruct (unify_data_keeps_listings listings reviews_sample neighbourhoods empty_frame)
    as (Hkeep & Hok & _).
  destruct Hok as [u Hu].
  - split; [repeat constructor|]. split; [discriminate|].
    split; [repeat constructor; simpl; intuition discriminate|].
    split.
    { unfold numeric.
      change (get_column reviews_sample "rating")
        with [Num (qc 4 1); Num (qc 5 1); Num (qc 3 1)].
      constructor; [right; by eexists|]. constructor; [right; by eexists|].
      constructor; [right; by eexists | constructor]. }
    split; [repeat constructor; simpl; intuition discriminate|].
    split; [repeat constructor; simpl; intuition discriminate|].
    split; reflexivity.
  - exists u. split; [done|]. apply (Hkeep u Hu). simpl. tauto.
Defined.

(** ** The pipeline on the store: no stage writes to its input *)

Section StoreFacts.
Context {cal : Calendar}.

Lemma fresh_unused (h : gmap nat DataFrame) : h !! fresh (dom h) = None.
Proof. apply not_elem_of_dom, is_fresh. Qed.

Lemma bind_run {A B} (m : Store.M A) (k : A -> Store.M B) (h : gmap nat DataFrame) :
  (m ≫= k) h = k (fst (m h)) (snd (m h)).
Proof.
  unfold mbind, Store.store_bind, Store.bind. by destruct (m h).
Qed.

Lemma setitem_local (c : nat) (col : string) (f : DataFrame -> list value)
    (d : DataFrame) (h : gmap nat DataFrame) :
  Store.setitem c col f (<[c := d]> h) = (tt, <[c := set_column d col (f d)]> h).
Proof.
  unfold Store.setitem. rewrite bind_run. unfold Store.read, Store.write.
  rewrite lookup_insert_eq. cbn [fst snd default]. by rewrite insert_insert_eq.
Qed.

Lemma read_local (c : nat) (d : DataFrame) (h : gmap nat DataFrame) :
  Store.read c (<[c := d]> h) = (d, <[c := d]> h).
Proof. unfold Store.read. by rewrite lookup_insert_eq. Qed.

Lemma copy_run (df : nat) (h : gmap nat DataFrame) :
  Store.copy df h
  = (fresh (dom h), <[fresh (dom h) := default empty_frame (h !! df)]> h).
Proof. unfold Store.copy. by rewrite bind_run. Qed.

Lemma for_each_local {A} (c : nat) (body : A -> Store.M unit)
    (step : DataFrame -> A -> DataFrame) (xs : list A) :
  (forall x d h, body x (<[c := d]> h) = (tt, <[c := step d x]> h)) ->
  forall d h, Store.for_each xs body (<[c := d]> h) = (tt, <[c := fold_left step xs d]> h).
Proof.
  intros Hbody. induction xs as [|x xs IH]; intros d h; [done|].
  cbn [Store.for_each fold_left]. rewrite bind_run, Hbody. cbn [fst snd]. apply IH.
Qed.

(** Symbolic execution of a store computation, one primitive at a time. *)
Ltac run :=
  repeat first
    [ rewrite bind_run | rewrite copy_run | rewrite setitem_local
    | rewrite read_local | progress unfold Store.ret | progress cbn [fst snd] ].

Lemma run_standardize_prices (df : nat) (price_columns : option (list string))
    (h : gmap nat DataFrame) :
  Store.standardize_prices df price_columns h
  = (fresh (dom h),
     <[fresh (dom h) :=
         standardize_prices_with price_columns (default empty_frame (h !! df))]> h).
Proof.
  unfold Store.standardize_prices. run.
  rewrite (for_each_local (fresh (dom h)) _ standardize_column); [done|].
  intros column d h'. run.
  unfold standardize_column. destruct (has_column d column); [|done].
  by run.
Qed.

Lemma run_normalize_types (df : nat) (h : gmap nat DataFrame) :
  Store.normalize_types df h
  = (fresh (dom h),
     <[fresh (dom h) := normalize_types (default empty_frame (h !! df))]> h).
Proof.
  unfold Store.normalize_types. run.
  rewrite (for_each_local (fresh (dom h)) _ normalize_column); [done|].
  intros col d h'. run. unfold normalize_column.
  destruct (date_named col).
  - run. destruct (is_object _); [by run | done].
  - run. destruct (is_object _); [by run | done].
Qed.

Lemma run_add_basic_columns (df : nat) (h : gmap nat DataFrame) :
  Store.add_basic_columns df h
  = (fresh (dom h),
     <[fresh (dom h) := add_basic_columns (default empty_frame (h !! df))]> h).
Proof.
  unfold Store.add_basic_columns. run. unfold add_basic_columns.
  set (d := default empty_frame (h !! df)).
  destruct (has_column d "price").
  - run. destruct (has_column _ "availability_365"); [by run | done].
  - run. destruct (has_column _ "availability_365"); [by run | done].
Qed.

Lemma run_clean_dataset (df : nat) (h : gmap nat DataFrame) :
  exists h' out,
    Store.clean_dataset df h = (out, h')
    /\ h !! out = None
    /\ h' !! out = Some (clean_dataset (default empty_frame (h !! df)))
    /\ forall l, is_Some (h !! l) -> h' !! l = h !! l.
Proof.
  unfold Store.clean_dataset, Store.drop_duplicates_new.
  rewrite bind_run, run_standardize_prices. cbn [fst snd].
  rewrite bind_run, run_normalize_types. cbn [fst snd].
  rewrite bind_run, run_add_basic_columns. run.
  unfold Store.alloc, Store.ret. rewrite !lookup_insert_eq. cbn [default].
  set (l1 := fresh (dom h)).
  set (h1 := <[l1 := _]> h).
  set (l2 := fresh (dom h1)).
  set (h2 := <[l2 := _]> h1).
  set (l3 := fresh (dom h2)).
  set (h3 := <[l3 := _]> h2).
  set (l4 := fresh (dom h3)).
  assert (H1 : forall l, is_Some (h !! l) -> h1 !! l = h !! l /\ is_Some (h1 !! l)).
  { intros l Hl. assert (l <> l1).
    { intros ->. unfold l1 in Hl. rewrite fresh_unused in Hl. by destruct Hl. }
    subst h1. by rewrite lookup_insert_ne. }
  assert (H2 : forall l, is_Some (h1 !! l) -> h2 !! l = h1 !! l /\ is_Some (h2 !! l)).
  { intros l Hl. assert (l <> l2).
    { intros ->. unfold l2 in Hl. rewrite fresh_unused in Hl. by destruct Hl. }
    subst h2. by rewrite lookup_insert_ne. }
  assert (H3 : forall l, is_Some (h2 !! l) -> h3 !! l = h2 !! l /\ is_Some (h3 !! l)).
  { intros l Hl. assert (l <> l3).
    { intros ->. unfold l3 in Hl. rewrite fresh_unused in Hl. by destruct Hl. }
    subst h3. by rewrite lookup_insert_ne. }
  assert (H4 : forall l, is_Some (h3 !! l) -> l <> l4).
  { intros l Hl ->. unfold l4 in Hl. rewrite fresh_unused in Hl. by destruct Hl. }
  eexists _, _. split; [reflexivity|]. cbn [fst snd]. split; [|split].
  - destruct (h !! l4) eqn:E; [|done]. exfalso.
    assert (Hs : is_Some (h !! l4)) by by rewrite E.
    apply H1 in Hs as [_ Hs]. apply H2 in Hs as [_ Hs]. apply H3 in Hs as [_ Hs].
    by apply H4 in Hs.
  - rewrite lookup_insert_eq. done.
  - intros l Hl.
    destruct (H1 l Hl) as [E1 S1]. destruct (H2 l S1) as [E2 S2].
    destruct (H3 l S2) as [E3 S3].
    rewrite lookup_insert_ne by (intros <-; by apply (H4 l4 S3)).
    by rewrite E3, E2, E1.
Qed.

Lemma returns_new_alloc (m : Store.M nat) (h : gmap nat DataFrame) (d : DataFrame) :
  m h = (fresh (dom h), <[fresh (dom h) := d]> h) -> returns_new m h d.
Proof.
  intros E. unfold returns_new. rewrite E.
  split; [apply fresh_unused|]. split; [by rewrite lookup_insert_eq|].
  intros l Hl. apply lookup_insert_ne. intros <-.
  rewrite fresh_unused in Hl. by destruct Hl.
Qed.


End StoreFacts.


(** ** Numbers: what is written is read back *)

Module NumericFacts.
Import Numeric.

(** *** Denominators that divide a power of ten *)

Lemma divisor_of_ten (g : Z) :
  (0 < g)%Z -> (g | 10)%Z -> g = 1%Z \/ (2 | g)%Z \/ (5 | g)%Z.
Proof.
  intros Hpos Hdiv.
  assert (Hle : (g <= 10)%Z) by (apply Z.divide_pos_le; [lia | done]).
  apply Z.mod_divide in Hdiv; [|lia].
  assert (Hcases : (g = 1 \/ g = 2 \/ g = 3 \/ g = 4 \/ g = 5 \/ g = 6 \/ g = 7
                    \/ g = 8 \/ g = 9 \/ g = 10)%Z) by lia.
  destruct Hcases as [H|[H|[H|[H|[H|[H|[H|[H|[H|H]]]]]]]]]; subst g;
    try discriminate; auto.
  - right. left. by exists 1%Z.
  - right. right. by exists 1%Z.
  - right. left. by exists 5%Z.
Qed.

Lemma two_or_five (j : nat) (d : Z) :
  (1 < d)%Z -> (d | 10 ^ Z.of_nat j)%Z -> (2 | d)%Z \/ (5 | d)%Z.
Proof.
  intros Hd. induction j as [|j IH]; intros Hdiv.
  - simpl in Hdiv. apply Z.divide_1_r_nonneg in Hdiv; lia.
  - rewrite Nat2Z.inj_succ, Z.pow_succ_r in Hdiv by lia.
    destruct (divisor_of_ten (Z.gcd d 10)) as [Hg|[Hg|Hg]].
    + pose proof (Z.gcd_nonneg d 10). pose proof (Z.gcd_eq_0_l d 10). lia.
    + apply Z.gcd_divide_r.
    + apply IH. by apply Z.gauss with 10%Z.
    + left. apply Z.divide_trans with (Z.gcd d 10); [done | apply Z.gcd_divide_l].
    + right. apply Z.divide_trans with (Z.gcd d 10); [done | apply Z.gcd_divide_l].
Qed.

Lemma power_of_ten_bound (j n : nat) (d : Z) :
  (0 < d < 2 ^ Z.of_nat n)%Z -> (d | 10 ^ Z.of_nat j)%Z -> (d | 10 ^ Z.of_nat n)%Z.
Proof.
  revert d. induction n as [|n IH]; intros d Hd Hdiv.
  - simpl in Hd. lia.
  - rewrite Nat2Z.inj_succ, Z.pow_succ_r in * by lia.
    destruct (Z.eq_dec d 1) as [->|Hne]; [apply Z.divide_1_l|].
    destruct (two_or_five j d) as [[d' ->]|[d' ->]]; [lia | done | |].
    + replace (d' * 2)%Z with (2 * d')%Z by lia.
      replace (10 * 10 ^ Z.of_nat n)%Z with (2 * (5 * 10 ^ Z.of_nat n))%Z by lia.
      apply Z.mul_divide_mono_l. apply Z.divide_mul_r. apply IH; [lia|].
      apply Z.divide_trans with (d' * 2)%Z; [exists 2%Z; lia | done].
    + replace (d' * 5)%Z with (5 * d')%Z by lia.
      replace (10 * 10 ^ Z.of_nat n)%Z with (5 * (2 * 10 ^ Z.of_nat n))%Z by lia.
      apply Z.mul_divide_mono_l. apply Z.divide_mul_r. apply IH; [lia|].
      apply Z.divide_trans with (d' * 5)%Z; [exists 5%Z; lia | done].
Qed.

Lemma positive_below_size (d : positive) : (Zpos d < 2 ^ Z.of_nat (Pos.size_nat d))%Z.
Proof.
  induction d as [d IH|d IH|]; cbn [Pos.size_nat];
    rewrite ?Nat2Z.inj_succ, ?Z.pow_succ_r by lia; simpl; lia.
Qed.

Lemma find_scale_sound (d : positive) (fuel k0 k : nat) :
  find_scale d fuel k0 = Some k -> (Zpos d | 10 ^ Z.of_nat k)%Z.
Proof.
  revert k0. induction fuel as [|fuel IH]; intros k0; simpl.
  - destruct (Z.eqb_spec (10 ^ Z.of_nat k0 mod Z.pos d) 0) as [E|E]; [|done].
    intros [= <-]. by apply Z.mod_divide.
  - destruct (Z.eqb_spec (10 ^ Z.of_nat k0 mod Z.pos d) 0) as [E|E]; [|apply IH].
    intros [= <-]. by apply Z.mod_divide.
Qed.

Lemma find_scale_complete (d : positive) (fuel k0 k : nat) :
  k0 <= k <= k0 + fuel -> (Zpos d | 10 ^ Z.of_nat k)%Z ->
  is_Some (find_scale d fuel k0).
Proof.
  revert k0. induction fuel as [|fuel IH]; intros k0 Hk Hdiv; simpl.
  - destruct (Z.eqb_spec (10 ^ Z.of_nat k0 mod Z.pos d) 0) as [E|E]; [done|].
    exfalso. apply E. apply Z.mod_divide; [done|].
    by replace k0 with k by lia.
  - destruct (Z.eqb_spec (10 ^ Z.of_nat k0 mod Z.pos d) 0) as [E|E]; [done|].
    destruct (decide (k = k0)) as [->|Hne].
    + exfalso. apply E. by apply Z.mod_divide.
    + apply IH; [lia | done].
Qed.

Lemma find_scale_terminating (d : positive) :
  terminating d ->
  exists k, find_scale d (Pos.size_nat d) 0 = Some k /\ (Zpos d | 10 ^ Z.of_nat k)%Z.
Proof.
  intros [j Hj].
  destruct (find_scale_complete d (Pos.size_nat d) 0 (Pos.size_nat d)) as [k Hk].
  - lia.
  - apply power_of_ten_bound with j; [|done].
    split; [lia | apply positive_below_size].
  - exists k. split; [done|]. by eapply find_scale_sound.
Qed.


(** *** Texts of digits *)

Lemma append_assoc (a b c : string) : ((a ++ b) ++ c = a ++ (b ++ c))%string.
Proof. induction a as [|x a IH]; cbn; congruence. Qed.

Lemma append_nil_r (a : string) : (a ++ "" = a)%string.
Proof. induction a as [|x a IH]; cbn; congruence. Qed.

Lemma length_append (a b : string) :
  String.length (a ++ b) = String.length a + String.length b.
Proof. induction a as [|x a IH]; cbn; congruence. Qed.

Lemma all_chars_app (p : ascii -> bool) (a b : string) :
  all_chars p (a ++ b) = all_chars p a && all_chars p b.
Proof.
  induction a as [|x a IH]; simpl; [done|]. by rewrite IH, andb_assoc.
Qed.

Lemma all_chars_weaken (p q : ascii -> bool) (s : string) :
  (forall c, p c = true -> q c = true) -> all_chars p s = true -> all_chars q s = true.
Proof.
  intros Hpq. induction s as [|x s IH]; simpl; [done|].
  rewrite !andb_true_iff. intros [Hx Hs]. auto.
Qed.

Lemma digit_of_char (d : N) : (d < 10)%N -> digit_of (digit_char d) = Some d.
Proof.
  intros Hd.
  assert (Hcases : (d = 0 \/ d = 1 \/ d = 2 \/ d = 3 \/ d = 4 \/ d = 5 \/ d = 6
                    \/ d = 7 \/ d = 8 \/ d = 9)%N) by lia.
  destruct Hcases as [H|[H|[H|[H|[H|[H|[H|[H|[H|H]]]]]]]]]; by subst d.
Qed.

Lemma is_digit_char (d : N) : (d < 10)%N -> is_digit (digit_char d) = true.
Proof. intros Hd. unfold is_digit. by rewrite digit_of_char. Qed.

Lemma digits_acc_app (s t : string) (acc : N) :
  digits_acc (s ++ t) acc = digits_acc s acc ≫= digits_acc t.
Proof.
  revert acc. induction s as [|c s IH]; intros acc; simpl; [done|].
  destruct (digit_of c); [apply IH | done].
Qed.

Lemma digits_acc_fixed (k : nat) (n acc : N) :
  digits_acc (fixed_digits k n) acc
  = Some (acc * 10 ^ N.of_nat k + n mod 10 ^ N.of_nat k)%N.
Proof.
  revert n acc. induction k as [|k IH]; intros n acc.
  - simpl. f_equal. rewrite N.mod_1_r. lia.
  - cbn [fixed_digits]. rewrite digits_acc_app, IH. simpl.
    rewrite digit_of_char by (apply N.mod_lt; lia). f_equal.
    rewrite Nat2N.inj_succ, N.pow_succ_r'.
    rewrite (N.Div0.mod_mul_r n 10 (10 ^ N.of_nat k)). lia.
Qed.

Lemma fixed_digits_length (k : nat) (n : N) : String.length (fixed_digits k n) = k.
Proof.
  revert n. induction k as [|k IH]; intros n; simpl; [done|].
  rewrite length_append, IH. simpl. lia.
Qed.

Lemma fixed_digits_all (k : nat) (n : N) : all_chars is_digit (fixed_digits k n) = true.
Proof.
  revert n. induction k as [|k IH]; intros n; simpl; [done|].
  rewrite all_chars_app, IH. simpl.
  rewrite is_digit_char by (apply N.mod_lt; lia). done.
Qed.

Lemma strip_zeros_value (s : string) : digits_acc (strip_zeros s) 0 = digits_acc s 0.
Proof.
  induction s as [|c s IH]; [done|].
  destruct c as [[] [] [] [] [] [] [] []]; done.
Qed.

Lemma strip_zeros_all (p : ascii -> bool) (s : string) :
  all_chars p s = true -> all_chars p (strip_zeros s) = true.
Proof.
  induction s as [|c s IH]; [done|]. intros H.
  destruct c as [[] [] [] [] [] [] [] []]; try done.
  simpl in H. apply IH. by destruct (p _).
Qed.

Lemma below_power_of_ten (n : N) : (n < 10 ^ N.of_nat (N.size_nat n))%N.
Proof.
  destruct n as [|p]; [done|]. simpl.
  pose proof (positive_below_size p) as H.
  assert (H10 : (2 ^ Z.of_nat (Pos.size_nat p) <= 10 ^ Z.of_nat (Pos.size_nat p))%Z).
  { apply Z.pow_le_mono_l. lia. }
  apply N2Z.inj_lt. rewrite N2Z.inj_pow, nat_N_Z. simpl (Z.of_N 10). simpl (Z.of_N _).
  lia.
Qed.

Lemma nat_digits_value (n : N) : digits_acc (nat_digits n) 0 = Some n.
Proof.
  assert (H : digits_acc (strip_zeros (fixed_digits (N.size_nat n) n)) 0 = Some n).
  { rewrite strip_zeros_value, digits_acc_fixed.
    by rewrite N.mod_small by apply below_power_of_ten. }
  unfold nat_digits.
  destruct (strip_zeros (fixed_digits (N.size_nat n) n)); [|done].
  simpl in H. by injection H as <-.
Qed.

Lemma nat_digits_all (n : N) : all_chars is_digit (nat_digits n) = true.
Proof.
  unfold nat_digits.
  pose proof (strip_zeros_all is_digit _ (fixed_digits_all (N.size_nat n) n)) as H.
  by destruct (strip_zeros (fixed_digits (N.size_nat n) n)).
Qed.

Lemma nat_digits_head (n : N) :
  exists c s, nat_digits n = String c s /\ is_digit c = true.
Proof.
  pose proof (nat_digits_all n) as H.
  assert (Hne : nat_digits n <> "").
  { unfold nat_digits. by destruct (strip_zeros _). }
  destruct (nat_digits n) as [|c s]; [done|].
  exists c, s. split; [done|]. simpl in H. by destruct (is_digit c).
Qed.

(** *** Characters of a written number *)

Lemma numeric_char_facts (c : ascii) :
  numeric_char c = true ->
  Text.is_space c = false /\ is_cspace c = false
  /\ Ascii.eqb "$" c = false /\ Ascii.eqb "," c = false /\ Ascii.eqb "226" c = false
  /\ Ascii.eqb c "e" = false /\ Ascii.eqb c "E" = false /\ lower c = c
  /\ Text.is_space_lead c = false.
Proof. destruct c as [[] [] [] [] [] [] [] []]; by vm_compute. Qed.

Lemma digit_char_facts (c : ascii) :
  is_digit c = true ->
  numeric_char c = true /\ Ascii.eqb c "." = false
  /\ Ascii.eqb c "-" = false /\ Ascii.eqb c "+" = false /\ Ascii.eqb c "n" = false.
Proof. destruct c as [[] [] [] [] [] [] [] []]; by vm_compute. Qed.

Lemma split_at_absent (c : ascii) (s : string) :
  all_chars (fun x => negb (Ascii.eqb x c)) s = true -> split_at c s = (s, None).
Proof.
  induction s as [|x s IH]; simpl; [done|].
  destruct (Ascii.eqb x c); simpl; [done|]. intros H. by rewrite IH.
Qed.

Lemma split_at_present (c : ascii) (a b : string) :
  all_chars (fun x => negb (Ascii.eqb x c)) a = true ->
  split_at c (a ++ String c b) = (a, Some b).
Proof.
  induction a as [|x a IH]; simpl.
  - by rewrite Ascii.eqb_refl.
  - destruct (Ascii.eqb x c); simpl; [done|]. intros H. by rewrite IH.
Qed.

Lemma remove_absent (a : ascii) (p s : string) :
  all_chars (fun x => negb (Ascii.eqb a x)) s = true ->
  Text.remove (String a p) s = s.
Proof.
  unfold Text.remove. induction s as [|x s IH]; simpl; [done|].
  destruct (Ascii.eqb a x); simpl; [done|]. intros H. by rewrite IH.
Qed.

Lemma space_width_plain (c : ascii) (s : string) :
  Text.is_space c = false -> Text.is_space_lead c = false ->
  Text.space_width (String c s) = 0.
Proof. intros H1 H2. unfold Text.space_width. by rewrite H1, H2. Qed.

Lemma rstrip_plain (s : string) :
  all_chars (fun x => negb (Text.is_space x) && negb (Text.is_space_lead x)) s = true ->
  Text.rstrip s = s.
Proof.
  induction s as [|x s IH]; [done|]. cbn [all_chars]. intros H.
  apply andb_true_iff in H as [Hx Hs]. apply andb_true_iff in Hx as [H1 H2].
  apply negb_true_iff in H1, H2.
  cbn [Text.rstrip Text.all_space_from]. rewrite (space_width_plain x s H1 H2).
  by rewrite IH.
Qed.

Lemma strip_plain (s : string) :
  all_chars (fun x => negb (Text.is_space x) && negb (Text.is_space_lead x)) s = true ->
  Text.strip s = s.
Proof.
  intros H. unfold Text.strip.
  assert (Hl : Text.lstrip s = s).
  { destruct s as [|x s]; [done|]. cbn [all_chars] in H.
    apply andb_true_iff in H as [Hx _]. apply andb_true_iff in Hx as [H1 H2].
    apply negb_true_iff in H1, H2.
    unfold Text.lstrip. cbn [Text.lstrip_from].
    by rewrite (space_width_plain x s H1 H2). }
  rewrite Hl. by apply rstrip_plain.
Qed.

Lemma rskip_plain (s : string) :
  all_chars (fun x => negb (is_cspace x)) s = true -> rskip s = s.
Proof.
  induction s as [|x s IH]; simpl; [done|].
  destruct (is_cspace x) eqn:E; simpl; [done|]. intros H.
  rewrite IH by done. by destruct s.
Qed.

Lemma skip_plain (s : string) :
  all_chars (fun x => negb (is_cspace x)) s = true -> rskip (lskip s) = s.
Proof.
  intros H.
  assert (Hl : lskip s = s).
  { destruct s as [|x s]; [done|]. simpl in *. by destruct (is_cspace x). }
  rewrite Hl. by apply rskip_plain.
Qed.

(** *** Reading back a written number *)

Lemma render_body (neg : bool) (m : N) (k : nat) :
  render neg m k = if neg then String "-" (body_text m k) else body_text m k.
Proof. unfold render, body_text, fraction_text. by destruct neg, k. Qed.

Lemma fraction_text_chars (m : N) (k : nat) :
  all_chars numeric_char (fraction_text m k) = true.
Proof.
  destruct k as [|k]; [done|]. unfold fraction_text. simpl "++".
  cbn [all_chars]. apply andb_true_iff. split; [done|].
  eapply all_chars_weaken; [|apply fixed_digits_all].
  intros c Hc. by apply digit_char_facts.
Qed.

Lemma body_text_chars (m : N) (k : nat) : all_chars numeric_char (body_text m k) = true.
Proof.
  unfold body_text. rewrite all_chars_app, fraction_text_chars, andb_true_r.
  eapply all_chars_weaken; [|apply nat_digits_all].
  intros c Hc. by apply digit_char_facts.
Qed.

Lemma render_chars (neg : bool) (m : N) (k : nat) :
  all_chars numeric_char (render neg m k) = true.
Proof.
  rewrite render_body. destruct neg; simpl; by rewrite body_text_chars.
Qed.

Lemma body_text_head (m : N) (k : nat) :
  exists c s, body_text m k = String c s /\ is_digit c = true.
Proof.
  unfold body_text. destruct (nat_digits_head (m / 10 ^ N.of_nat k)) as (c & s & -> & Hc).
  simpl. eauto.
Qed.

Lemma read_mantissa_body (m : N) (k : nat) : read_mantissa (body_text m k) = Some (m, k).
Proof.
  unfold read_mantissa, body_text.
  set (ip := (m / 10 ^ N.of_nat k)%N).
  assert (Hdot : all_chars (fun x => negb (Ascii.eqb x ".")) (nat_digits ip) = true).
  { eapply all_chars_weaken; [|apply nat_digits_all].
    intros c Hc. apply digit_char_facts in Hc as (_ & -> & _). done. }
  destruct (nat_digits_head ip) as (c & s & Hhead & _).
  destruct k as [|k].
  - unfold fraction_text. rewrite append_nil_r, split_at_absent by done.
    cbn [default]. rewrite append_nil_r, nat_digits_value.
    rewrite Hhead. simpl. subst ip. by rewrite N.div_1_r.
  - unfold fraction_text. set (fs := fixed_digits (S k) _).
    change ("." ++ fs)%string with (String "." fs).
    rewrite split_at_present by done.
    change (default "" (Some fs)) with fs.
    rewrite digits_acc_app, nat_digits_value, Hhead.
    cbn [String.length Nat.add mbind option_bind].
    subst fs. rewrite digits_acc_fixed, fixed_digits_length.
    cbn [mbind option_bind]. do 2 f_equal. subst ip. rewrite N.Div0.mod_mod.
    pose proof (N.div_mod' m (10 ^ N.of_nat (S k))). lia.
Qed.

Lemma read_decimal_render (neg : bool) (m : N) (k : nat) :
  read_decimal (render neg m k) = Some (scaled neg m (0 - Z.of_nat k)).
Proof.
  rewrite render_body. unfold read_decimal.
  destruct (body_text_head m k) as (c & s & Hbody & Hc).
  apply digit_char_facts in Hc as (_ & _ & Hminus & Hplus & _).
  assert (Hsign : read_sign (if neg then String "-" (body_text m k) else body_text m k)
                  = (neg, body_text m k)).
  { destruct neg; [done|]. rewrite Hbody.
    destruct c as [[] [] [] [] [] [] [] []]; done. }
  rewrite Hsign.
  assert (Hexp : split_exp (body_text m k) = (body_text m k, None)).
  { unfold split_exp.
    rewrite !split_at_absent; [done | |];
      (eapply all_chars_weaken; [|apply body_text_chars]);
      intros x Hx; apply numeric_char_facts in Hx as (_ & _ & _ & _ & _ & He & HE & _);
      by rewrite ?He, ?HE. }
  rewrite Hexp, read_mantissa_body. done.
Qed.

Lemma parse_render (neg : bool) (m : N) (k : nat) :
  parse (render neg m k) = Some (Some (scaled neg m (0 - Z.of_nat k))).
Proof.
  unfold parse.
  assert (Hskip : rskip (lskip (render neg m k)) = render neg m k).
  { apply skip_plain. eapply all_chars_weaken; [|apply render_chars].
    intros c Hc. apply numeric_char_facts in Hc as (_ & -> & _). done. }
  rewrite Hskip, read_decimal_render.
  rewrite render_body. destruct (body_text_head m k) as (c & s & -> & _).
  by destruct neg.
Qed.

Lemma scaled_value (q : Qc) (k : nat) :
  (Zpos (Qden q) | 10 ^ Z.of_nat k)%Z ->
  scaled (Qnum q <? 0)%Z
    (Z.abs_N (Qnum q) * Z.to_N (10 ^ Z.of_nat k / Zpos (Qden q))%Z)%N
    (0 - Z.of_nat k)
  = q.
Proof.
  intros [c Hc].
  assert (Hpow : (0 < 10 ^ Z.of_nat k)%Z) by (apply Z.pow_pos_nonneg; lia).
  assert (Hcpos : (0 < c)%Z) by nia.
  assert (Hdiv : (10 ^ Z.of_nat k / Zpos (Qden q) = c)%Z).
  { rewrite Hc. apply Z.div_mul. lia. }
  rewrite Hdiv.
  set (z := (if (Qnum q <? 0)%Z
             then - Z.of_N (Z.abs_N (Qnum q) * Z.to_N c)
             else Z.of_N (Z.abs_N (Qnum q) * Z.to_N c))%Z).
  assert (Hz : z = (Qnum q * c)%Z).
  { subst z. rewrite N2Z.inj_mul, N2Z.inj_abs_N, Z2N.id by lia.
    destruct (Z.ltb_spec (Qnum q) 0); lia. }
  apply Qc_is_canon. unfold scaled. fold z.
  destruct q as [[n d] Hcanon]. simpl in *.
  destruct k as [|k].
  - simpl (0 - Z.of_nat 0)%Z. cbv iota. unfold Q2Qc. simpl this.
    rewrite Qred_correct. unfold Qeq. simpl.
    change (10 ^ (0 - Z.of_nat 0))%Z with 1%Z.
    change (10 ^ Z.of_nat 0)%Z with 1%Z in Hc.
    rewrite Hz. replace (n * c * 1 * Z.pos d)%Z with (n * (c * Z.pos d))%Z by lia.
    rewrite <- Hc. lia.
  - replace (0 - Z.of_nat (S k))%Z with (Zneg (Pos.of_succ_nat k)) by lia.
    cbv iota. unfold Q2Qc. simpl this.
    rewrite Qred_correct. unfold Qeq. simpl Qnum. simpl Qden.
    rewrite Pos2Z.inj_pow. rewrite Zpos_P_of_succ_nat, <- Nat2Z.inj_succ. nia.
Qed.

Lemma parse_to_text (q : Qc) :
  terminating (Qden q) -> parse (to_text q) = Some (Some q).
Proof.
  intros Hterm. unfold to_text.
  destruct (find_scale_terminating _ Hterm) as (k & -> & Hk).
  by rewrite parse_render, scaled_value.
Qed.

Lemma to_text_chars (q : Qc) : all_chars numeric_char (to_text q) = true.
Proof. unfold to_text. destruct (find_scale _ _ _); apply render_chars. Qed.

Lemma Qred_den_divides (a : Z) (b : positive) :
  (Zpos (Qden (Qred (a # b))) | Zpos b)%Z.
Proof.
  unfold Qred.
  pose proof (Z.ggcd_correct_divisors a (Zpos b)) as Hd.
  pose proof (Z.ggcd_gcd a (Zpos b)) as Hg.
  destruct (Z.ggcd a (Zpos b)) as [g [aa bb]]. simpl in *.
  destruct Hd as [_ Hb].
  assert (Hgpos : (0 <= g)%Z) by (rewrite Hg; apply Z.gcd_nonneg).
  assert (Hbb : (0 < bb)%Z) by nia.
  rewrite Z2Pos.id by done. exists g. lia.
Qed.

Lemma scaled_terminating (neg : bool) (m : N) (e : Z) :
  terminating (Qden (scaled neg m e)).
Proof.
  unfold scaled, Q2Qc. destruct e as [|p|p]; simpl this.
  - exists 0. apply Qred_den_divides.
  - exists 0. apply Qred_den_divides.
  - exists (Pos.to_nat p). rewrite positive_nat_Z, <- Pos2Z.inj_pow.
    apply Qred_den_divides.
Qed.

Lemma parse_terminating (s : string) (q : Qc) :
  parse s = Some (Some q) -> terminating (Qden q).
Proof.
  unfold parse. destruct s as [|c s]; [done|].
  destruct (read_decimal _) as [q'|] eqn:E; [|done].
  intros [= <-]. unfold read_decimal in E.
  destruct (read_sign _) as [neg body].
  destruct (split_exp body) as [ms es].
  destruct (read_mantissa ms) as [[m k]|]; [|done]. simpl in E.
  destruct (match es with Some t => read_exponent t | None => Some 0%Z end);
    [|done]. simpl in E. injection E as <-. apply scaled_terminating.
Qed.

End NumericFacts.

(** ** Idempotence of the cleaning pipeline *)

Section Idempotence.
Context {cal : Calendar}.

Lemma price_text_number (q : Qc) : price_text (Numeric.to_text q) = Numeric.to_text q.
Proof.
  unfold price_text.
  pose proof (NumericFacts.to_text_chars q) as Hchars.
  assert (Hall : forall p : ascii -> bool,
             (forall c, Numeric.numeric_char c = true -> p c = true) ->
             Numeric.all_chars p (Numeric.to_text q) = true).
  { intros p Hp. by eapply NumericFacts.all_chars_weaken. }
  rewrite (NumericFacts.remove_absent "$"%char "" (Numeric.to_text q));
    [| apply Hall; intros c Hc;
       apply NumericFacts.numeric_char_facts in Hc as (_ & _ & -> & _); done].
  unfold Text.euro. rewrite (NumericFacts.remove_absent "226"%char _ (Numeric.to_text q));
    [| apply Hall; intros c Hc;
       apply NumericFacts.numeric_char_facts in Hc as (_ & _ & _ & _ & -> & _); done].
  rewrite (NumericFacts.remove_absent ","%char "" (Numeric.to_text q));
    [| apply Hall; intros c Hc;
       apply NumericFacts.numeric_char_facts in Hc as (_ & _ & _ & -> & _); done].
  apply NumericFacts.strip_plain. apply Hall. intros c Hc.
  apply NumericFacts.numeric_char_facts in Hc as (-> & _ & _ & _ & _ & _ & _ & _ & ->).
  done.
Qed.

Lemma price_value_idem (v : value) : price_value (price_value v) = price_value v.
Proof.
  unfold price_value at 2 3.
  destruct (Numeric.parse (price_text (as_text v))) as [[q|]|] eqn:E; try done.
  unfold price_value. simpl as_text.
  by rewrite price_text_number, NumericFacts.parse_to_text
    by (eapply NumericFacts.parse_terminating; exact E).
Qed.

Lemma price_value_not_text (v : value) : is_text (price_value v) = false.
Proof. unfold price_value. by destruct (Numeric.parse _) as [[q|]|]. Qed.

Lemma standardize_fold_column (cs : list string) (df : DataFrame) (c : string) :
  rectangular df -> In c (columns df) ->
  get_column (fold_left standardize_column cs df) c
  = if mem c cs then map price_value (get_column df c) else get_column df c.
Proof.
  revert df. induction cs as [|x cs IH]; simpl; intros df Hrect Hc; [done|].
  rewrite IH;
    [| by apply standardize_column_rectangular
     | by rewrite standardize_column_columns].
  destruct (String.eqb_spec c x) as [->|Hne]; simpl.
  - rewrite standardize_column_same by done.
    destruct (mem x cs); [|done].
    rewrite map_map. apply map_ext. intros v. apply price_value_idem.
  - by rewrite standardize_column_other.
Qed.


Lemma put_cells_twice (i : nat) (rs : list row) (vs ws : list value) :
  List.length ws = List.length rs ->
  put_cells i (put_cells i rs vs) ws = put_cells i rs ws.
Proof.
  revert vs ws. induction rs as [|r rs IH]; intros vs [|w ws]; simpl; try done;
    destruct vs as [|v vs]; simpl; try done.
  intros [= H]. by rewrite list_insert_insert_eq, IH.
Qed.

Lemma set_column_twice (df : DataFrame) (c : string) (vs ws : list value) :
  In c (columns df) -> List.length ws = List.length (rows df) ->
  set_column (set_column df c vs) c ws = set_column df c ws.
Proof.
  intros Hc Hlen. unfold set_column.
  destruct (label_index_Some _ _ Hc) as [i Hi]. rewrite Hi. simpl. rewrite Hi.
  by rewrite put_cells_twice.
Qed.

Lemma put_cells_same_cells (i : nat) (rs : list row) :
  put_cells i rs (map (cell i) rs) = rs.
Proof.
  induction rs as [|r rs IH]; simpl; [done|]. rewrite IH. f_equal.
  rewrite cell_lookup. destruct (r !! i) as [v|] eqn:E; simpl.
  - by apply list_insert_id.
  - apply list_insert_ge. by apply lookup_ge_None.
Qed.

Lemma set_column_get (df : DataFrame) (c : string) :
  In c (columns df) -> set_column df c (get_column df c) = df.
Proof.
  intros Hc. unfold set_column, get_column.
  destruct (label_index_Some _ _ Hc) as [i ->].
  destruct df as [cols rs]. simpl. f_equal. apply put_cells_same_cells.
Qed.

Lemma get_column_rows (df : DataFrame) (c : string) (i : nat) :
  label_index c (columns df) = Some i -> get_column df c = map (cell i) (rows df).
Proof. intros H. unfold get_column. by rewrite H. Qed.

Lemma standardize_column_eq (df : DataFrame) (c : string) :
  rectangular df -> In c (columns df) ->
  standardize_column df c = set_column df c (map price_value (get_column df c)).
Proof.
  intros Hrect Hc. unfold standardize_column.
  rewrite (proj2 (has_column_In df c) Hc).
  assert (Hlen : List.length (map (fun v => Str (price_text (as_text v)))
                     (get_column df c)) = List.length (rows df)).
  { by rewrite length_map, get_column_length. }
  rewrite get_set_column_same by done.
  rewrite set_column_twice;
    [| done | by rewrite to_numeric_coerce_length].
  f_equal. unfold to_numeric_coerce. rewrite map_map. apply map_ext.
  intros v. apply numeric_cell_text.
Qed.

Lemma fold_left_fixed {A B} (f : A -> B -> A) (u : A) (l : list B) :
  (forall x, In x l -> f u x = u) -> fold_left f l u = u.
Proof.
  induction l as [|x l IH]; simpl; intros H; [done|].
  rewrite H by (by left). apply IH. intros y Hy. apply H. by right.
Qed.

(** A frame whose rows are [cleaned] is a fixed point of each stage. *)
Lemma standardize_prices_fixed (u : DataFrame) :
  rectangular u -> cleaned (columns u) (rows u) -> standardize_prices u = u.
Proof.
  intros Hrect (K1 & _). unfold standardize_prices, standardize_prices_with.
  simpl price_columns_or_default.
  assert (Hstep : forall c, In c default_price_columns -> standardize_column u c = u).
  { intros c Hc. destruct (has_column u c) eqn:E.
    - apply has_column_In in E. rewrite standardize_column_eq by done.
      destruct (label_index_Some _ _ E) as [i Hi].
      rewrite (get_column_rows u c i Hi), map_map.
      rewrite (map_ext_in _ (cell i)) by (intros r Hr; by eapply K1).
      rewrite <- (get_column_rows u c i Hi). by apply set_column_get.
    - unfold standardize_column. by rewrite E. }
  by apply fold_left_fixed.
Qed.

Lemma normalize_cells_fixed (u : DataFrame) (c : string) (i : nat) :
  cleaned (columns u) (rows u) -> label_index c (columns u) = Some i ->
  normalize_cells c (get_column u c) = get_column u c.
Proof.
  intros (_ & K2d & K2n & _) Hi. unfold normalize_cells.
  rewrite (get_column_rows u c i Hi).
  destruct (date_named c) eqn:Hdate.
  - rewrite to_datetime_not_object. unfold to_datetime_coerce.
    rewrite map_map. apply map_ext_in. intros r Hr. by eapply K2d.
  - destruct (is_object (map (cell i) (rows u))) eqn:Hobj; [|done].
    unfold is_object in Hobj. apply existsb_exists in Hobj as (v & Hv & Htext).
    apply in_map_iff in Hv as (r & <- & Hr).
    destruct (K2n c i Hi Hdate) as (r' & Hr' & Hfail); [by eauto|].
    unfold to_numeric_ignore. rewrite mapM_numeric_some_fails; [done|].
    apply Exists_exists. exists (cell i r'). split; [|done].
    apply list_elem_of_In, in_map_iff. eauto.
Qed.

Lemma normalize_types_fixed (u : DataFrame) :
  rectangular u -> cleaned (columns u) (rows u) -> normalize_types u = u.
Proof.
  intros Hrect Hclean. unfold normalize_types.
  assert (Hstep : forall c, In c (columns u) -> normalize_column u c = u).
  { intros c Hc. rewrite normalize_column_spec by done.
    destruct (label_index_Some _ _ Hc) as [i Hi].
    rewrite (normalize_cells_fixed u c i) by done. by apply set_column_get. }
  by apply fold_left_fixed.
Qed.

Lemma add_basic_columns_fixed (u : DataFrame) :
  cleaned (columns u) (rows u) -> add_basic_columns u = u.
Proof.
  intros (_ & _ & _ & K3 & K4). unfold add_basic_columns.
  assert (H1 : (if has_column u "price"
                then set_column u "precio_noche" (to_numeric_coerce (get_column u "price"))
                else u) = u).
  { destruct (has_column u "price") eqn:E; [|done].
    apply has_column_In in E. destruct (K3 E) as (i & j & Hi & Hj & Hrows).
    rewrite (get_column_rows u "price" j Hj). unfold to_numeric_coerce.
    rewrite map_map.
    rewrite <- (map_ext_in (cell i)) by (intros r Hr; by apply Hrows).
    rewrite <- (get_column_rows u "precio_noche" i Hi).
    apply set_column_get. by eapply label_index_In. }
  rewrite H1.
  destruct (has_column u "availability_365") eqn:E; [|done].
  apply has_column_In in E. destruct (K4 E) as (i & j & Hi & Hj & Hrows).
  rewrite (get_column_rows u "availability_365" j Hj). unfold to_numeric_coerce.
  rewrite !map_map.
  rewrite <- (map_ext_in (cell i)) by (intros r Hr; by apply Hrows).
  rewrite <- (get_column_rows u "ocupacion_estimada" i Hi).
  apply set_column_get. by eapply label_index_In.
Qed.

(** *** What one pass establishes *)

Lemma standardize_fold_columns (cs : list string) (df : DataFrame) :
  columns (fold_left standardize_column cs df) = columns df.
Proof.
  revert df. induction cs as [|c cs IH]; intros df; simpl; [done|].
  by rewrite IH, standardize_column_columns.
Qed.

Lemma standardize_fold_rectangular (cs : list string) (df : DataFrame) :
  rectangular df -> rectangular (fold_left standardize_column cs df).
Proof.
  revert df. induction cs as [|c cs IH]; intros df Hrect; simpl; [done|].
  by apply IH, standardize_column_rectangular.
Qed.

Lemma normalize_fold_structure (cs : list string) (df : DataFrame) :
  rectangular df -> (forall x, In x cs -> In x (columns df)) ->
  columns (fold_left normalize_column cs df) = columns df
  /\ rectangular (fold_left normalize_column cs df).
Proof.
  revert df. induction cs as [|c cs IH]; intros df Hrect Hsub; simpl; [done|].
  assert (Hc : In c (columns df)) by (apply Hsub; by left).
  destruct (IH (normalize_column df c)) as [Hcols Hr].
  - by apply normalize_column_rectangular.
  - intros x Hx. rewrite normalize_column_columns by done. apply Hsub. by right.
  - split; [|done]. by rewrite Hcols, normalize_column_columns.
Qed.

Lemma add_basic_columns_rectangular (d : DataFrame) :
  rectangular d -> rectangular (add_basic_columns d).
Proof.
  intros Hrect. unfold add_basic_columns.
  set (e := if has_column d "price" then _ else d).
  assert (He : rectangular e /\ List.length (rows e) = List.length (rows d)).
  { subst e. destruct (has_column d "price") eqn:E; [|done].
    apply has_column_In in E. split; [|apply set_column_rows_length].
    apply set_column_rectangular; [done|].
    by rewrite to_numeric_coerce_length, get_column_length. }
  destruct He as [He Hlen].
  destruct (has_column e "availability_365") eqn:E; [|done].
  apply has_column_In in E. apply set_column_rectangular; [done|].
  by rewrite length_map, to_numeric_coerce_length, get_column_length.
Qed.

Lemma add_basic_columns_In (d : DataFrame) (c : string) :
  In c (columns (add_basic_columns d)) <->
  In c (columns d)
  \/ (c = "precio_noche" /\ In "price" (columns d))
  \/ (c = "ocupacion_estimada" /\ In "availability_365" (columns d)).
Proof.
  unfold add_basic_columns.
  destruct (has_column d "price") eqn:Ep;
    [apply has_column_In in Ep | apply not_true_iff_false in Ep; rewrite has_column_In in Ep].
  - destruct (has_column _ "availability_365") eqn:Ea.
    + apply has_column_In, set_column_In in Ea as [Ea|Ea]; [|done].
      rewrite !set_column_In. tauto.
    + apply not_true_iff_false in Ea. rewrite has_column_In, set_column_In in Ea.
      rewrite set_column_In. tauto.
  - destruct (has_column d "availability_365") eqn:Ea;
      [apply has_column_In in Ea | apply not_true_iff_false in Ea;
                                   rewrite has_column_In in Ea].
    + rewrite set_column_In. tauto.
    + tauto.
Qed.

Lemma add_basic_columns_other (d : DataFrame) (c : string) :
  rectangular d -> c <> "precio_noche" -> c <> "ocupacion_estimada" ->
  get_column (add_basic_columns d) c = get_column d c.
Proof.
  intros Hrect H1 H2. unfold add_basic_columns.
  set (e := if has_column d "price" then _ else d).
  assert (He : rectangular e /\ get_column e c = get_column d c).
  { subst e. destruct (has_column d "price") eqn:E; [|done].
    apply has_column_In in E. split; [|by apply get_set_column_other].
    apply set_column_rectangular; [done|].
    by rewrite to_numeric_coerce_length, get_column_length. }
  destruct He as [He Hcol].
  destruct (has_column e "availability_365"); [|done].
  by rewrite get_set_column_other.
Qed.

Lemma to_numeric_coerce_not_object (col : list value) :
  is_object (to_numeric_coerce col) = false.
Proof.
  unfold is_object, to_numeric_coerce. induction col as [|v col IH]; simpl; [done|].
  rewrite IH, orb_false_r.
  destruct (numeric_cell v) as [w|] eqn:E; [|done].
  by eapply numeric_cell_not_text.
Qed.

Lemma occupancy_not_object (col : list value) :
  is_object (map occupancy_cell col) = false.
Proof.
  unfold is_object. induction col as [|v col IH]; simpl; [done|].
  rewrite IH. by destruct v.
Qed.

Lemma price_values_not_object (col : list value) :
  is_object (map price_value col) = false.
Proof.
  unfold is_object. induction col as [|v col IH]; simpl; [done|].
  by rewrite IH, price_value_not_text.
Qed.

(** Either [add_basic_columns] leaves the column as it was, or the column
    is one of the two derived ones and holds no text. *)
Lemma add_basic_columns_column (d : DataFrame) (c : string) :
  rectangular d -> In c (columns (add_basic_columns d)) ->
  (In c (columns d) /\ get_column (add_basic_columns d) c = get_column d c)
  \/ is_object (get_column (add_basic_columns d) c) = false.
Proof.
  intros Hrect Hc.
  destruct (add_basic_columns_spec d Hrect) as (Hp & Ha & Hnp & Hna & _).
  destruct (String.eqb_spec c "precio_noche") as [->|H1].
  - destruct (in_dec string_dec "price" (columns d)) as [Hin|Hout].
    + right. rewrite Hp by done. apply to_numeric_coerce_not_object.
    + left. split; [|by apply Hnp].
      apply add_basic_columns_In in Hc as [Hc|[[_ Hc]|[Hc _]]]; done.
  - destruct (String.eqb_spec c "ocupacion_estimada") as [->|H2].
    + destruct (in_dec string_dec "availability_365" (columns d)) as [Hin|Hout].
      * right. rewrite Ha by done.
        rewrite <- (map_map (fun v => default NA (numeric_cell v)) occupancy_cell).
        apply occupancy_not_object.
      * left. split; [|by apply Hna].
        apply add_basic_columns_In in Hc as [Hc|[[Hc _]|[_ Hc]]]; done.
    + left. split; [|by apply add_basic_columns_other].
      apply add_basic_columns_In in Hc as [Hc|[[Hc _]|[Hc _]]]; done.
Qed.

Lemma text_in_column (i : nat) (rs : list row) :
  is_object (map (cell i) rs) = true <-> exists r, In r rs /\ is_text (cell i r) = true.
Proof.
  unfold is_object. rewrite existsb_exists. split.
  - intros (v & Hv & Ht). apply in_map_iff in Hv as (r & <- & Hr). eauto.
  - intros (r & Hr & Ht). exists (cell i r). split; [|done]. apply in_map_iff. eauto.
Qed.

Lemma one_pass_cleaned (t : DataFrame) :
  rectangular t ->
  let t1 := add_basic_columns (normalize_types (standardize_prices t)) in
  rectangular t1 /\ cleaned (columns t1) (rows t1).
Proof.
  intros Hrect.
  set (s1 := standardize_prices t).
  set (d := normalize_types s1).
  intros t1.
  assert (Hs_cols : columns s1 = columns t) by apply standardize_fold_columns.
  assert (Hs_rect : rectangular s1) by by apply standardize_fold_rectangular.
  destruct (normalize_fold_structure (columns s1) s1 Hs_rect) as [Hd_cols Hd_rect];
    [done|]. fold (normalize_types s1) in Hd_cols, Hd_rect. fold d in Hd_cols, Hd_rect.
  assert (Ht1_rect : rectangular t1) by by apply add_basic_columns_rectangular.
  assert (Hd_col : forall c, In c (columns d) ->
             get_column d c = normalize_cells c (get_column s1 c)).
  { intros c Hc. apply normalize_types_column; [done|]. by rewrite <- Hd_cols. }
  assert (Hs_col : forall c, In c default_price_columns -> In c (columns t) ->
             get_column s1 c = map price_value (get_column t c)).
  { intros c Hc Hin. apply standardize_fold_same; try done.
    by apply (bool_decide_unpack _). }
  split; [done|]. split; [|split; [|split; [|split]]].
  - (* candidate price columns *)
    intros c i Hc Hi r Hr.
    assert (Hprops : c <> "precio_noche" /\ c <> "ocupacion_estimada"
                     /\ date_named c = false).
    { simpl in Hc. intuition (subst; done). }
    destruct Hprops as (H1 & H2 & Hdate).
    assert (Hin : In c (columns d)).
    { apply label_index_In, add_basic_columns_In in Hi. tauto. }
    assert (Hcol : map (cell i) (rows t1) = map price_value (get_column t c)).
    { rewrite <- (get_column_rows t1 c i Hi). unfold t1.
      rewrite add_basic_columns_other, Hd_col by done.
      rewrite Hs_col by (done || by rewrite <- Hs_cols, <- Hd_cols).
      unfold normalize_cells. by rewrite Hdate, price_values_not_object. }
    assert (Hcell : In (cell i r) (map price_value (get_column t c))).
    { rewrite <- Hcol. apply in_map_iff. eauto. }
    apply in_map_iff in Hcell as (v & <- & _). apply price_value_idem.
  - (* date-named columns *)
    intros c i Hi Hdate r Hr.
    assert (H1 : c <> "precio_noche") by (intros ->; done).
    assert (H2 : c <> "ocupacion_estimada") by (intros ->; done).
    assert (Hin : In c (columns d)).
    { apply label_index_In, add_basic_columns_In in Hi. tauto. }
    assert (Hcol : map (cell i) (rows t1) = to_datetime_coerce (get_column s1 c)).
    { rewrite <- (get_column_rows t1 c i Hi). unfold t1.
      rewrite add_basic_columns_other, Hd_col by done.
      unfold normalize_cells. by rewrite Hdate, to_datetime_not_object. }
    assert (Hcell : In (cell i r) (to_datetime_coerce (get_column s1 c))).
    { rewrite <- Hcol. apply in_map_iff. eauto. }
    apply in_map_iff in Hcell as (v & <- & _). apply datetime_cell_idem.
  - (* the other columns *)
    intros c i Hi Hdate Htext. apply text_in_column in Htext.
    rewrite <- (get_column_rows t1 c i Hi) in Htext.
    destruct (add_basic_columns_column d c Hd_rect) as [[Hin Hcol]|Hno];
      [by eapply label_index_In | | fold t1 in Hno; congruence].
    fold t1 in Hcol. rewrite Hcol, Hd_col in Htext by done.
    assert (Hcells : get_column t1 c = normalize_cells c (get_column s1 c)).
    { by rewrite Hcol, Hd_col. }
    unfold normalize_cells in Htext, Hcells. rewrite Hdate in Htext, Hcells.
    destruct (is_object (get_column s1 c)) eqn:Hobj; [|congruence].
    unfold to_numeric_ignore in Htext, Hcells.
    destruct (mapM numeric_cell (get_column s1 c)) as [parsed|] eqn:E.
    + apply mapM_numeric_not_object in E. congruence.
    + apply mapM_None_1, Exists_exists in E as (v & Hv & Hfail).
      rewrite <- Hcells, (get_column_rows t1 c i Hi) in Hv.
      apply list_elem_of_In, in_map_iff in Hv as (r & <- & Hr). eauto.
  - (* precio_noche *)
    intros Hp.
    assert (Hpd : In "price" (columns d)).
    { apply add_basic_columns_In in Hp as [Hp|[[Hp _]|[Hp _]]]; done. }
    destruct (add_basic_columns_spec d Hd_rect) as (Hderive & _).
    assert (Hpn : In "precio_noche" (columns t1)).
    { apply add_basic_columns_In. tauto. }
    destruct (label_index_Some _ _ Hpn) as [i Hi].
    destruct (label_index_Some _ _ Hp) as [j Hj].
    exists i, j. split; [done|]. split; [done|].
    apply ext_in_map.
    rewrite <- (get_column_rows t1 _ i Hi).
    rewrite <- (map_map (cell j) (fun v => default NA (numeric_cell v))).
    rewrite <- (get_column_rows t1 _ j Hj). unfold t1.
    rewrite Hderive by done. by rewrite add_basic_columns_other.
  - (* ocupacion_estimada *)
    intros Ha.
    assert (Had : In "availability_365" (columns d)).
    { apply add_basic_columns_In in Ha as [Ha|[[Ha _]|[Ha _]]]; done. }
    destruct (add_basic_columns_spec d Hd_rect) as (_ & Hderive & _).
    assert (Hoc : In "ocupacion_estimada" (columns t1)).
    { apply add_basic_columns_In. tauto. }
    destruct (label_index_Some _ _ Hoc) as [i Hi].
    destruct (label_index_Some _ _ Ha) as [j Hj].
    exists i, j. split; [done|]. split; [done|].
    apply ext_in_map.
    rewrite <- (get_column_rows t1 _ i Hi).
    rewrite <- (map_map (cell j)
                  (fun v => occupancy_cell (default NA (numeric_cell v)))).
    rewrite <- (get_column_rows t1 _ j Hj). unfold t1.
    rewrite Hderive by done. by rewrite add_basic_columns_other.
Qed.

Lemma cleaned_drop_duplicates (u : DataFrame) :
  cleaned (columns u) (rows u) ->
  cleaned (columns (drop_duplicates u)) (rows (drop_duplicates u)).
Proof.
  unfold drop_duplicates. simpl.
  intros (K1 & K2 & K3 & K4 & K5). split; [|split; [|split; [|split]]].
  - intros c i Hc Hi r Hr. apply (proj1 (keep_first_In _ _)) in Hr. exact (K1 c i Hc Hi r Hr).
  - intros c i Hi Hd r Hr. apply (proj1 (keep_first_In _ _)) in Hr. exact (K2 c i Hi Hd r Hr).
  - intros c i Hi Hd (r & Hr & Ht). apply (proj1 (keep_first_In _ _)) in Hr.
    destruct (K3 c i Hi Hd) as (r' & Hr' & Hf); [by eauto|].
    exists r'. by rewrite keep_first_In.
  - intros Hp. destruct (K4 Hp) as (i & j & Hi & Hj & H).
    exists i, j. split; [done|]. split; [done|].
    intros r Hr. apply (proj1 (keep_first_In _ _)) in Hr. auto.
  - intros Hp. destruct (K5 Hp) as (i & j & Hi & Hj & H).
    exists i, j. split; [done|]. split; [done|].
    intros r Hr. apply (proj1 (keep_first_In _ _)) in Hr. auto.
Qed.

Lemma drop_duplicates_rectangular (u : DataFrame) :
  rectangular u -> rectangular (drop_duplicates u).
Proof.
  unfold rectangular, drop_duplicates. simpl. rewrite !Forall_forall.
  intros H r Hr. apply H. by apply list_elem_of_In, keep_first_In, list_elem_of_In.
Qed.


End Idempotence.



(** * Further properties of the pipeline *)

(** ** The cleaning stages, one by one *)

Section Stages.
Context {cal : Calendar}.

Lemma price_value_shape (v : value) :
  price_value v = NA \/ exists q, price_value v = Num q.
Proof. unfold price_value. destruct (Numeric.parse _) as [[q|]|]; eauto. Qed.

Lemma standardize_fold_rows (cs : list string) (df : DataFrame) :
  List.length (rows (fold_left standardize_column cs df)) = List.length (rows df).
Proof.
  revert df. induction cs as [|c cs IH]; intros df; simpl; [done|].
  by rewrite IH, standardize_column_rows.
Qed.



Lemma normalize_types_structure (df : DataFrame) :
  rectangular df ->
  columns (normalize_types df) = columns df /\ rectangular (normalize_types df).
Proof. intros Hrect. by apply normalize_fold_structure. Qed.

Lemma normalize_column_rows (df : DataFrame) (c : string) :
  List.length (rows (normalize_column df c)) = List.length (rows df).
Proof.
  unfold normalize_column. destruct (date_named c); destruct (is_object _);
    by rewrite ?set_column_rows_length.
Qed.

Lemma normalize_fold_rows (cs : list string) (df : DataFrame) :
  List.length (rows (fold_left normalize_column cs df)) = List.length (rows df).
Proof.
  revert df. induction cs as [|c cs IH]; intros df; simpl; [done|].
  by rewrite IH, normalize_column_rows.
Qed.

Lemma datetime_cell_shape (v : value) :
  datetime_cell v = NA \/ exists t, datetime_cell v = Stamp t.
Proof. destruct v; simpl; eauto. destruct (read_stamp s); eauto. Qed.



End Stages.





(** ** Enrichment and deduplication *)

Lemma set_column_columns_case (df : DataFrame) (c : string) (vs : list value) :
  columns (set_column df c vs)
  = if has_column df c then columns df else columns df ++ [c].
Proof.
  destruct (has_column df c) eqn:E.
  - apply set_column_columns. by apply has_column_In.
  - apply set_column_columns_new. intros H. apply has_column_In in H. congruence.
Qed.

Lemma has_column_set_column (df : DataFrame) (c d : string) (vs : list value) :
  has_column (set_column df c vs) d = has_column df d || String.eqb d c.
Proof.
  apply eq_true_iff_eq. rewrite orb_true_iff, !has_column_In, set_column_In.
  by rewrite String.eqb_eq.
Qed.

Lemma add_basic_columns_rows (df : DataFrame) :
  List.length (rows (add_basic_columns df)) = List.length (rows df).
Proof.
  unfold add_basic_columns.
  destruct (has_column df "price"); destruct (has_column _ "availability_365");
    by rewrite ?set_column_rows_length.
Qed.

Lemma add_basic_columns_fixpoint (df : DataFrame) :
  rectangular df -> add_basic_columns (add_basic_columns df) = add_basic_columns df.
Proof.
  intros Hrect.
  destruct (add_basic_columns_spec df Hrect) as (Hp & Ha & _).
  set (u := add_basic_columns df) in *.
  assert (Hin : forall c, In c (columns df) -> In c (columns u)).
  { intros c Hc. apply add_basic_columns_In. by left. }
  assert (Hback : forall c, c <> "precio_noche" -> c <> "ocupacion_estimada" ->
                    In c (columns u) -> In c (columns df)).
  { intros c H1 H2 Hc. apply add_basic_columns_In in Hc. tauto. }
  unfold add_basic_columns at 1.
  assert (H1 : (if has_column u "price"
                then set_column u "precio_noche" (to_numeric_coerce (get_column u "price"))
                else u) = u).
  { destruct (has_column u "price") eqn:E; [|done].
    apply has_column_In, Hback in E; [|done|done].
    unfold u at 2. rewrite add_basic_columns_other by done. fold u.
    rewrite <- Hp by done. apply set_column_get.
    apply add_basic_columns_In. tauto. }
  rewrite H1.
  destruct (has_column u "availability_365") eqn:E; [|done].
  apply has_column_In, Hback in E; [|done|done].
  unfold u at 2. rewrite add_basic_columns_other by done. fold u.
  replace (map occupancy_cell (to_numeric_coerce (get_column df "availability_365")))
    with (get_column u "ocupacion_estimada").
  - apply set_column_get. apply add_basic_columns_In. tauto.
  - rewrite Ha by done. unfold to_numeric_coerce. by rewrite map_map.
Qed.

Lemma add_basic_columns_labels (df : DataFrame) :
  columns (add_basic_columns df)
  = columns df
    ++ (if has_column df "price" && negb (has_column df "precio_noche")
        then ["precio_noche"] else [])
    ++ (if has_column df "availability_365" && negb (has_column df "ocupacion_estimada")
        then ["ocupacion_estimada"] else []).
Proof.
  unfold add_basic_columns.
  destruct (has_column df "price") eqn:Ep; simpl.
  - rewrite has_column_set_column. simpl. rewrite orb_false_r.
    destruct (has_column df "availability_365") eqn:Ea; simpl.
    + rewrite set_column_columns_case, has_column_set_column, set_column_columns_case.
      simpl. rewrite orb_false_r.
      destruct (has_column df "precio_noche"), (has_column df "ocupacion_estimada");
        simpl; by rewrite ?app_nil_r, <- ?app_assoc.
    + rewrite set_column_columns_case.
      destruct (has_column df "precio_noche"); simpl; by rewrite ?app_nil_r.
  - destruct (has_column df "availability_365") eqn:Ea; simpl.
    + rewrite set_column_columns_case.
      by destruct (has_column df "ocupacion_estimada"); simpl; rewrite ?app_nil_r.
    + by rewrite app_nil_r.
Qed.



Section Cleaned.
Context {cal : Calendar}.

Lemma clean_dataset_rows_spec (t : DataFrame) :
  rows (clean_dataset t)
  = keep_first [] (rows (add_basic_columns (normalize_types (standardize_prices t)))).
Proof. done. Qed.

Lemma first_occurrences_length {A} (eqb : A -> A -> bool) (seen l : list A) :
  List.length (first_occurrences eqb seen l) <= List.length l.
Proof.
  revert seen. induction l as [|x l IH]; intros seen; simpl; [done|].
  destruct (existsb (eqb x) seen); simpl.
  - specialize (IH seen). lia.
  - specialize (IH (x :: seen)). lia.
Qed.


Lemma cleaned_after_clean_dataset (t : DataFrame) :
  rectangular t ->
  rectangular (clean_dataset t)
  /\ cleaned (columns (clean_dataset t)) (rows (clean_dataset t)).
Proof.
  intros Hrect. destruct (one_pass_cleaned t Hrect) as [Hr Hc].
  split; [by apply drop_duplicates_rectangular | by apply cleaned_drop_duplicates].
Qed.

Lemma clean_dataset_columns (t : DataFrame) :
  rectangular t ->
  forall c, In c (columns (clean_dataset t)) <->
            In c (columns t)
            \/ (c = "precio_noche" /\ In "price" (columns t))
            \/ (c = "ocupacion_estimada" /\ In "availability_365" (columns t)).
Proof.
  intros Hrect c. unfold clean_dataset, drop_duplicates. simpl.
  rewrite add_basic_columns_In.
  assert (Hs : rectangular (standardize_prices t)) by by apply standardize_fold_rectangular.
  destruct (normalize_types_structure _ Hs) as [-> _].
  unfold standardize_prices, standardize_prices_with.
  by rewrite standardize_fold_columns.
Qed.

Lemma clean_dataset_derived_spec (t : DataFrame) :
  rectangular t ->
  (In "price" (columns t) ->
     In "precio_noche" (columns (clean_dataset t))
     /\ get_column (clean_dataset t) "precio_noche" = get_column (clean_dataset t) "price"
     /\ Forall (fun v => v = NA \/ exists q, v = Num q)
          (get_column (clean_dataset t) "precio_noche"))
  /\ (In "availability_365" (columns t) ->
        In "ocupacion_estimada" (columns (clean_dataset t))
        /\ get_column (clean_dataset t) "ocupacion_estimada"
           = map (fun v => occupancy_cell (default NA (numeric_cell v)))
               (get_column (clean_dataset t) "availability_365")).
Proof.
  intros Hrect.
  destruct (cleaned_after_clean_dataset t Hrect) as (Hr & K1 & _ & _ & K3 & K4).
  pose proof (clean_dataset_columns t Hrect) as Hcols.
  set (u := clean_dataset t) in *. split.
  - intros Hp. assert (Hpu : In "price" (columns u)) by (apply Hcols; by left).
    destruct (K3 Hpu) as (i & j & Hi & Hj & Hrows).
    assert (Hfix : forall r, In r (rows u) ->
              cell i r = cell j r /\ (cell j r = NA \/ exists q, cell j r = Num q)).
    { intros r Hr'. rewrite (Hrows r Hr').
      assert (Hpv : price_value (cell j r) = cell j r).
      { apply (K1 "price" j); [by left | done | done]. }
      destruct (price_value_shape (cell j r)) as [E|[q E]]; rewrite Hpv in E;
        rewrite E; simpl; eauto. }
    split; [by eapply label_index_In|]. split.
    + rewrite (get_column_rows u _ i Hi), (get_column_rows u _ j Hj).
      apply map_ext_in. intros r Hr'. by apply Hfix.
    + rewrite (get_column_rows u _ i Hi). apply Forall_forall. intros v Hv.
      apply list_elem_of_In, in_map_iff in Hv as (r & <- & Hr').
      destruct (Hfix r Hr') as [-> H]. done.
  - intros Ha. assert (Hau : In "availability_365" (columns u)) by (apply Hcols; by left).
    destruct (K4 Hau) as (i & j & Hi & Hj & Hrows).
    split; [by eapply label_index_In|].
    rewrite (get_column_rows u _ i Hi), (get_column_rows u _ j Hj), map_map.
    apply map_ext_in. intros r Hr'. by apply Hrows.
Qed.


End Cleaned.


(** ** Rankings *)

(** X8: for a level among "district" and "neighbourhood",
    [occupancy_by_area] returns the empty frame when the table lacks the
    level column; when the table (its labels distinct) has the level
    column and an [ocupacion_estimada] column of numbers and missing
    values, it returns one row for each distinct area that occurs in a
    row where neither the area nor the occupancy is missing, holding the
    area and the mean occupancy over those rows, sorted by descending
    mean.  Occupancies 300 and 100 in Sol and 325 in Lavapies give
    Lavapies with 325, then Sol with 200. *)
Theorem occupancy_by_area_ranks_areas (df : DataFrame) (level : string) :
  In level levels ->
  occupancy_by_area
    (mkDF ["neighbourhood"; "ocupacion_estimada"]
       [[Str "Sol"; Num (qc 300 1)]; [Str "Lavapies"; Num (qc 325 1)];
        [Str "Sol"; Num (qc 100 1)]; [Str "Retiro"; NA]])
    "neighbourhood"
  = Ok (mkDF ["neighbourhood"; "ocupacion_media"]
          [[Str "Lavapies"; Num (qc 325 1)]; [Str "Sol"; Num (qc 200 1)]])
  /\ (~ In level (columns df) -> occupancy_by_area df level = Ok empty_frame)
  /\ (In level (columns df) -> In "ocupacion_estimada" (columns df) ->
      List.NoDup (columns df) -> numeric (get_column df "ocupacion_estimada") ->
        exists areas : list value,
          occupancy_by_area df level
          = Ok (mkDF [level; "ocupacion_media"]
                  (map (fun k =>
                          [k; average
                                (numbers
                                   (complete_cells_where df level k "ocupacion_estimada"))])
                     areas))
          /\ List.NoDup areas
          /\ (forall k, In k areas <->
                exists m, In (k, m) (pairs df level "ocupacion_estimada")
                          /\ k <> NA /\ m <> NA)
          /\ Sorted (fun a b => value_geb a b = true)
               (map (fun k =>
                       average
                         (numbers (complete_cells_where df level k "ocupacion_estimada")))
                  areas)).
Proof.
  intros Hlevel.
  assert (Hm : mem level levels = true) by by apply mem_In.
  destruct (level_not_metric level Hlevel) as (_ & _ & Hne1 & Hne2).
  split; [by_eval|].
  unfold occupancy_by_area. rewrite Hm. simpl. split.
  - intros Hno. destruct (has_column df level) eqn:E; [|done].
    by apply has_column_In in E.
  - intros Hl Hp _ Hnum. rewrite (proj2 (has_column_In _ _) Hl). simpl.
    destruct (select2_ok df level "ocupacion_estimada" Hl Hp) as [sel Hsel].
    rewrite Hsel.
    apply (ranking_spec df level _ "ocupacion_media" sel Hne1 Hne2 Hsel).
    by apply complete_no_text.
Qed.

Lemma occupancy_by_area_ranks_sample :
  let df := mkDF ["neighbourhood"; "ocupacion_estimada"]
              [[Str "Sol"; Num (qc 300 1)]; [Str "Lavapies"; Num (qc 325 1)];
               [Str "Sol"; Num (qc 100 1)]; [Str "Retiro"; NA]] in
  exists areas : list value,
    occupancy_by_area df "neighbourhood"
    = Ok (mkDF ["neighbourhood"; "ocupacion_media"]
            (map (fun k =>
                    [k; average
                          (numbers
                             (complete_cells_where df "neighbourhood" k
                                "ocupacion_estimada"))])
               areas))
    /\ List.NoDup areas.
Proof.
  intros df.
  destruct (occupancy_by_area_ranks_areas df "neighbourhood") as (_ & _ & H);
    [simpl; tauto|].
  destruct H as (areas & H1 & H2 & _).
  - simpl; tauto.
  - simpl; tauto.
  - repeat constructor; simpl; intuition discriminate.
  - unfold numeric.
    change (get_column df "ocupacion_estimada")
      with [Num (qc 300 1); Num (qc 325 1); Num (qc 100 1); NA].
    constructor; [right; by eexists|]. constructor; [right; by eexists|].
    constructor; [right; by eexists|]. constructor; [by left | constructor].
  - exists areas. by split.
Defined.

Lemma average_of_numbers (vs : list value) (q : Qc) :
  In (Num q) vs -> exists m, average (numbers vs) = Num m.
Proof.
  intros Hin. unfold average.
  assert (Hq : q ∈ numbers vs).
  { unfold numbers. apply list_elem_of_omap. exists (Num q).
    split; [by apply list_elem_of_In | done]. }
  destruct (numbers vs) as [|a qs]; [by apply elem_of_nil in Hq | eauto].
Qed.

Lemma pair_in_columns (df : DataFrame) (a b : string) (k m : value) :
  In (k, m) (pairs df a b) -> In k (get_column df a) /\ In m (get_column df b).
Proof.
  unfold pairs. rewrite <- !list_elem_of_In. intros H.
  split; [by eapply elem_of_zip_l | by eapply elem_of_zip_r].
Qed.

Lemma complete_cell_in_group (df : DataFrame) (level metric : string) (k m : value) :
  In (k, m) (pairs df level metric) -> k <> NA -> m <> NA ->
  In m (complete_cells_where df level k metric).
Proof.
  intros Hin Hk Hm. unfold complete_cells_where.
  apply in_map_iff. exists (k, m). split; [done|].
  apply filter_In. split.
  - apply filter_In. split; [done|]. unfold complete. simpl. by destruct k, m.
  - simpl. by apply value_eqb_eq.
Qed.

Lemma ranking_means_numbers (df : DataFrame) (level metric : string)
    (areas : list value) :
  numeric (get_column df metric) ->
  (forall k, In k areas ->
     exists m, In (k, m) (pairs df level metric) /\ k <> NA /\ m <> NA) ->
  Forall (fun r : row => exists k q, r = [k; Num q] /\ k <> NA)
    (map (fun k => [k; average (numbers (complete_cells_where df level k metric))]) areas).
Proof.
  intros Hnum Hareas. apply Forall_forall. intros r Hr.
  apply list_elem_of_In, in_map_iff in Hr as (k & <- & Hk).
  destruct (Hareas k Hk) as (m & Hin & Hkna & Hmna).
  destruct (pair_in_columns _ _ _ _ _ Hin) as [_ Hcol].
  unfold numeric in Hnum. rewrite Forall_forall in Hnum.
  destruct (Hnum m (proj2 (list_elem_of_In _ _) Hcol)) as [->|[q ->]]; [done|].
  destruct (average_of_numbers _ q (complete_cell_in_group _ _ _ _ _ Hin Hkna Hmna))
    as [q' ->].
  by exists k, q'.
Qed.

(** A ranking over a metric column of numbers: it is returned, and every
    row holds an area and a number. *)
Lemma ranking_of_numbers (df : DataFrame) (level metric out : string) (sel : DataFrame) :
  level <> metric -> level <> out ->
  select2 df level metric = Ok sel ->
  numeric (get_column df metric) ->
  exists res,
    match groupby_mean (dropna sel) level metric out with
    | Raise e => Raise e
    | Ok grouped => Ok (sort_values_desc grouped out)
    end = Ok res
    /\ Forall (fun r : row => exists k q, r = [k; Num q] /\ k <> NA) (rows res).
Proof.
  intros Hne1 Hne2 Hsel Hnum.
  destruct (ranking_spec df level metric out sel Hne1 Hne2 Hsel
              (complete_no_text df level metric Hnum))
    as (areas & -> & _ & Hareas & _).
  eexists. split; [done|]. simpl.
  apply ranking_means_numbers; [done|]. intros k Hk. by apply Hareas.
Qed.

Section RankingsOfCleaned.
Context {cal : Calendar}.

Lemma cleaned_metrics_numeric (t : DataFrame) :
  rectangular t ->
  (In "price" (columns t) ->
     In "precio_noche" (columns (clean_dataset t))
     /\ Forall (fun v => v = NA \/ exists q, v = Num q)
          (get_column (clean_dataset t) "precio_noche"))
  /\ (In "availability_365" (columns t) ->
        In "ocupacion_estimada" (columns (clean_dataset t))
        /\ Forall (fun v => v = NA \/ exists q, v = Num q)
             (get_column (clean_dataset t) "ocupacion_estimada")).
Proof.
  intros Hrect. destruct (clean_dataset_derived_spec t Hrect) as [Hp Ha]. split.
  - intros H. destruct (Hp H) as (H1 & _ & H3). by split.
  - intros H. destruct (Ha H) as (H1 & ->). split; [done|].
    apply Forall_forall. intros v Hv.
    apply list_elem_of_In, in_map_iff in Hv as (x & <- & _).
    destruct (default NA (numeric_cell x)); simpl; eauto.
Qed.


End RankingsOfCleaned.


(** The frame a ranking returns when its aggregation succeeds. *)
Lemma ranking_ok_shape (df : DataFrame) (level metric out : string)
    (sel res : DataFrame) :
  level <> metric -> level <> out ->
  select2 df level metric = Ok sel ->
  match groupby_mean (dropna sel) level metric out with
  | Raise e => Raise e
  | Ok grouped => Ok (sort_values_desc grouped out)
  end = Ok res ->
  columns res = [level; out] /\ rectangular res.
Proof.
  intros Hne1 Hne2 Hsel.
  rewrite (ranking_eval df level metric out sel Hne1 Hsel).
  destruct (text_among _); [done|].
  rewrite (sort_ranking level out _ Hne2). intros [= <-]. split; [done|].
  unfold rectangular. cbn [rows columns]. apply Forall_forall. intros r Hr.
  apply list_elem_of_In in Hr.
  eapply Permutation_in in Hr; [|apply sort_list_perm].
  by apply in_map_iff in Hr as (k & <- & _).
Qed.

Lemma ranking_shape (df : DataFrame) (level : string) :
  (forall out, price_by_area df level = Ok out ->
     out = empty_frame
     \/ (columns out = [level; "precio_medio"] /\ rectangular out))
  /\ (forall out, occupancy_by_area df level = Ok out ->
        out = empty_frame
        \/ (columns out = [level; "ocupacion_media"] /\ rectangular out)).
Proof.
  split; intros out; [unfold price_by_area | unfold occupancy_by_area];
    (destruct (mem level levels) eqn:Hm; simpl; [|done]);
    apply mem_In in Hm;
    destruct (level_not_metric level Hm) as (Hp1 & Hp2 & Ho1 & Ho2);
    (destruct (has_column df level); simpl; [|intros [= <-]; by left]).
  - destruct (select2 df level "precio_noche") as [sel|e] eqn:Hsel; [|done].
    intros H. right.
    by apply (ranking_ok_shape df level "precio_noche" "precio_medio" sel out).
  - destruct (select2 df level "ocupacion_estimada") as [sel|e] eqn:Hsel; [|done].
    intros H. right.
    by apply (ranking_ok_shape df level "ocupacion_estimada" "ocupacion_media" sel out).
Qed.

(** X10: a ranking that is returned and is not empty has exactly the two
    columns the page charts: the level and the mean ([precio_medio] for
    [price_by_area], [ocupacion_media] for [occupancy_by_area]), every row
    having two cells; the only other frame the rankings return is the
    empty frame. *)
Theorem ranking_result_shape (df : DataFrame) (level : string) :
  (forall out, price_by_area df level = Ok out ->
     out = empty_frame
     \/ (columns out = [level; "precio_medio"] /\ rectangular out))
  /\ (forall out, occupancy_by_area df level = Ok out ->
        out = empty_frame
        \/ (columns out = [level; "ocupacion_media"] /\ rectangular out)).
Proof. exact (ranking_shape df level). Qed.

Lemma ranking_result_shape_sample :
  columns (mkDF ["district"; "precio_medio"] [[Str "Centro"; Num (qc 80 1)]])
  = ["district"; "precio_medio"].
Proof.
  destruct (ranking_result_shape
              (mkDF ["district"; "precio_noche"] [[Str "Centro"; Num (qc 80 1)]])
              "district") as [H _].
  destruct (H (mkDF ["district"; "precio_medio"] [[Str "Centro"; Num (qc 80 1)]]))
    as [E|[E _]]; [by_eval | discriminate E | exact E].
Defined.

(** ** Review summary *)

Lemma summary_key_column (f : value -> value) (keys : list value) (a b : string) :
  get_column (mkDF [a; b] (map (fun k => [k; f k]) keys)) a = keys.
Proof.
  unfold get_column. simpl. rewrite String.eqb_refl, map_map. simpl. apply map_id.
Qed.

Lemma group_keys_sorted (keys : list value) :
  Sorted (fun a b => value_leb a b = true) (group_keys keys).
Proof. unfold group_keys. apply sort_list_sorted. intros a b. apply value_leb_total. Qed.

Lemma average_without_numbers (vs : list value) :
  Forall (fun v => v = NA) vs -> average (numbers vs) = NA.
Proof.
  intros H. unfold numbers.
  assert (E : omap number_of vs = []).
  { induction H as [|v vs Hv _ IH]; simpl; [done|]. by rewrite Hv. }
  by rewrite E.
Qed.

(** X11: the review summary, for reviews with distinct labels that have
    both columns.  When the ratings are numbers or missing values,
    [_prepare_reviews] returns a summary that lists the listing ids in
    ascending order; the summary is empty exactly when no review has a
    listing id; and a listing all of whose ratings are missing is still
    listed, with a missing mean.  When a review with a listing id has a
    text as rating, [_prepare_reviews] raises [TypeError]. *)
Theorem prepare_reviews_summary (reviews : DataFrame) :
  In "listing_id" (columns reviews) -> In "rating" (columns reviews) ->
  List.NoDup (columns reviews) ->
  (numeric (get_column reviews "rating") ->
     exists s,
       _prepare_reviews reviews = Ok s
       /\ Sorted (fun a b => value_leb a b = true) (get_column s "listing_id")
       /\ (df_empty s = true
           <-> Forall (fun v => v = NA) (get_column reviews "listing_id"))
       /\ (forall k, k <> NA -> In k (get_column reviews "listing_id") ->
             Forall (fun v => v = NA) (cells_where reviews "listing_id" k "rating") ->
             In [k; NA] (rows s)))
  /\ (text_among (pairs reviews "listing_id" "rating") = true ->
        _prepare_reviews reviews = Raise agg_error).
Proof.
  intros Hl Hr _. rewrite (prepare_reviews_eval reviews Hl Hr). split.
  - intros Hnum. rewrite (numeric_no_text _ _ _ Hnum). eexists. split; [done|].
    rewrite summary_key_column. split; [apply group_keys_sorted|]. split.
    + rewrite <- group_keys_nil. unfold df_empty. simpl.
      by destruct (group_keys (get_column reviews "listing_id")).
    + intros k Hk Hin Hnone. simpl. apply in_map_iff. exists k. split.
      * by rewrite (average_without_numbers _ Hnone).
      * by apply group_keys_In.
  - by intros ->.
Qed.

Lemma prepare_reviews_summary_sample :
  let reviews := mkDF ["listing_id"; "rating"]
                   [[Num (qc 9 1); Num (qc 5 1)]; [Num (qc 7 1); NA]; [NA; Num (qc 1 1)]] in
  (exists s, _prepare_reviews reviews = Ok s /\ In [Num (qc 7 1); NA] (rows s))
  /\ _prepare_reviews
       (mkDF ["listing_id"; "rating"] [[Num (qc 9 1); Str "ok"]; [Num (qc 7 1); NA]])
     = Raise agg_error.
Proof.
  intros reviews. split.
  - destruct (prepare_reviews_summary reviews) as [H _].
    + simpl; tauto.
    + simpl; tauto.
    + repeat constructor; simpl; intuition discriminate.
    + destruct H as (s & Hs & _ & _ & H).
      * unfold numeric.
        change (get_column reviews "rating") with [Num (qc 5 1); NA; Num (qc 1 1)].
        constructor; [right; by eexists|]. constructor; [by left|].
        constructor; [right; by eexists | constructor].
      * exists s. split; [done|]. apply H; [discriminate | right; left; by_eval |].
        vm_compute. repeat constructor.
  - apply (prepare_reviews_summary
             (mkDF ["listing_id"; "rating"] [[Num (qc 9 1); Str "ok"]; [Num (qc 7 1); NA]])).
    + simpl; tauto.
    + simpl; tauto.
    + repeat constructor; simpl; intuition discriminate.
    + reflexivity.
Defined.

(** ** Joins *)

Lemma rename_label_index (old new c : string) (df : DataFrame) :
  c <> old -> c <> new ->
  label_index c (columns (rename old new df)) = label_index c (columns df).
Proof.
  intros Ho Hn. unfold rename. simpl.
  induction (columns df) as [|x cs IH]; simpl; [done|]. rewrite IH.
  destruct (String.eqb_spec x old) as [->|Hx].
  - rewrite (proj2 (String.eqb_neq c new)), (proj2 (String.eqb_neq c old)); done.
  - done.
Qed.

Lemma rename_get_column (old new c : string) (df : DataFrame) :
  c <> old -> c <> new -> get_column (rename old new df) c = get_column df c.
Proof.
  intros Ho Hn. unfold get_column. by rewrite rename_label_index.
Qed.

Lemma rename_rectangular (old new : string) (df : DataFrame) :
  rectangular df -> rectangular (rename old new df).
Proof. unfold rectangular, rename. simpl. by rewrite length_map. Qed.

Lemma drop_at_length {A B} (i : nat) (l : list A) (l' : list B) :
  List.length l = List.length l' ->
  List.length (drop_at i l) = List.length (drop_at i l').
Proof.
  intros H. unfold drop_at. rewrite !length_app, !length_take, !length_drop. lia.
Qed.

Lemma joined_length (right : DataFrame) (li ri : nat) (shared : bool) (l x : row) :
  rectangular right -> In x (joined right li ri shared l) ->
  List.length x
  = List.length l
    + List.length (if shared then drop_at ri (columns right) else columns right).
Proof.
  intros Hr Hx. unfold rectangular in Hr. rewrite Forall_forall in Hr.
  unfold joined in Hx.
  assert (Hkeep : forall r, In r (rows right) ->
            List.length (l ++ (if shared then drop_at ri r else r))
            = List.length l
              + List.length (if shared then drop_at ri (columns right)
                             else columns right)).
  { intros r Hr'. apply list_elem_of_In, Hr in Hr'.
    rewrite length_app. f_equal.
    destruct shared; [by apply drop_at_length | done]. }
  set (ms := List.filter _ (rows right)) in Hx.
  assert (Hms : forall r, In r ms -> In r (rows right)).
  { intros r Hr'. by apply filter_In in Hr' as [Hr' _]. }
  clearbody ms. destruct ms as [|m ms].
  - destruct Hx as [<-|[]]. by rewrite length_app, length_replicate.
  - destruct Hx as [<-|Hx]; [apply Hkeep, Hms; by left|].
    apply in_map_iff in Hx as (r & <- & Hr'). apply Hkeep, Hms. by right.
Qed.

Lemma merge_left_rectangular (left right : DataFrame) (lo ro ls rs : string)
    (out : DataFrame) :
  merge_left left right lo ro ls rs = Ok out ->
  rectangular left -> rectangular right -> rectangular out.
Proof.
  intros H Hl Hr.
  destruct (merge_left_inv _ _ _ _ _ _ _ H) as (li & ri & _ & _ & Hrows & Hlen).
  unfold rectangular. rewrite Hrows, Hlen.
  apply Forall_forall. intros x Hx.
  apply list_elem_of_In, in_flat_map in Hx as (l & Hl' & Hx).
  rewrite (joined_length right li ri _ l x Hr Hx). f_equal.
  unfold rectangular in Hl. rewrite Forall_forall in Hl.
  by apply Hl, list_elem_of_In.
Qed.

(** The frame an aggregation returns when it succeeds. *)
Lemma groupby_mean_inv (df : DataFrame) (key metric out : string) (res : DataFrame) :
  groupby_mean df key metric out = Ok res ->
  exists g : value -> value,
    res = mkDF [key; out] (map (fun k => [k; g k]) (group_keys (get_column df key))).
Proof.
  unfold groupby_mean, get_column.
  destruct (label_index key (columns df)) as [ki|]; [|done].
  destruct (label_index metric (columns df)) as [mi|]; [|done].
  set (m := fun k => mean (map (cell mi) (group df ki k))).
  exists (fun k => match m k with Ok v => v | Raise _ => NA end).
  destruct (collect _) as [rws|e] eqn:E; [|done]. injection H as <-. f_equal.
  revert rws E. induction (group_keys (map (cell ki) (rows df))) as [|k ks IH];
    intros rws E; simpl in *.
  - by injection E as <-.
  - fold (m k) in E. destruct (m k) as [v|e]; [|done].
    destruct (collect _) as [rest|e]; [|done]. injection E as <-.
    by rewrite (IH rest).
Qed.

Lemma prepare_reviews_inv (reviews s : DataFrame) :
  _prepare_reviews reviews = Ok s ->
  s = empty_frame
  \/ exists g : value -> value,
       s = mkDF ["listing_id"; "rating"]
             (map (fun k => [k; g k]) (group_keys (get_column reviews "listing_id"))).
Proof.
  unfold _prepare_reviews.
  destruct (has_column reviews "listing_id"); simpl; [|intros [= <-]; by left].
  destruct (has_column reviews "rating"); simpl; [|intros [= <-]; by left].
  intros H. right. by apply groupby_mean_inv in H.
Qed.

Lemma prepare_reviews_rectangular (reviews s : DataFrame) :
  _prepare_reviews reviews = Ok s -> rectangular s.
Proof.
  intros H. apply prepare_reviews_inv in H as [->|[g ->]]; [by constructor|].
  unfold rectangular. simpl. apply Forall_forall. intros r Hr.
  by apply list_elem_of_In, in_map_iff in Hr as (k & <- & _).
Qed.

Lemma prepare_reviews_keys (reviews s : DataFrame) :
  _prepare_reviews reviews = Ok s -> List.NoDup (get_column s "listing_id").
Proof.
  intros H. apply prepare_reviews_inv in H as [->|[g ->]]; [by constructor|].
  rewrite summary_key_column. apply group_keys_NoDup.
Qed.

Lemma normalize_neighbourhoods_rectangular (listings neighbourhoods : DataFrame) :
  rectangular listings -> rectangular neighbourhoods ->
  rectangular (fst (_normalize_neighbourhoods listings neighbourhoods))
  /\ rectangular (snd (_normalize_neighbourhoods listings neighbourhoods)).
Proof.
  intros Hl Hn. unfold _normalize_neighbourhoods. simpl. split.
  - destruct (has_column listings _); [by apply rename_rectangular | done].
  - destruct (has_column neighbourhoods _); [by apply rename_rectangular | done].
Qed.

(** X12: [unify_data] keeps tables well formed: when every row of the
    listings and of the neighbourhoods has one cell per column, so has
    every row of the table it returns, whatever the reviews hold and
    whichever joins are made. *)
Theorem unify_data_rectangular
    (listings reviews neighbourhoods idealista u : DataFrame) :
  rectangular listings -> rectangular neighbourhoods ->
  unify_data listings reviews neighbourhoods idealista = Ok u ->
  rectangular u.
Proof.
  intros Hl Hn Hu.
  destruct (normalize_neighbourhoods_rectangular listings neighbourhoods Hl Hn)
    as [Hl' Hn'].
  apply unify_data_steps in Hu as (s & l1 & Hs & H1 & H2).
  set (ln := fst _) in *. set (nn := snd _) in *.
  assert (Hfirst : rectangular l1).
  { destruct (negb (df_empty s) && has_column ln "id").
    - eapply merge_left_rectangular; [exact H1 | done |].
      by eapply prepare_reviews_rectangular.
    - by injection H1 as <-. }
  destruct (has_column l1 "neighbourhood" && has_column nn "neighbourhood").
  - by eapply merge_left_rectangular.
  - by injection H2 as <-.
Qed.

Lemma unify_data_rectangular_sample :
  rectangular
    (mkDF ["id"; "neighbourhood"; "listing_id"; "rating"; "district"]
       [[Num (qc 1 1); Str "Centro"; Num (qc 1 1); Num (qc 9 2); Str "Distrito Centro"];
        [Num (qc 7 1); Str "Sol"; NA; NA; NA]]).
Proof.
  apply (unify_data_rectangular
           (mkDF ["id"; "neighbourhood_cleansed"]
              [[Num (qc 1 1); Str "Centro"]; [Num (qc 7 1); Str "Sol"]])
           reviews_sample
           (mkDF ["neighbourhood_group"; "neighbourhood"]
              [[Str "Distrito Centro"; Str "Centro"]])
           empty_frame).
  - repeat constructor.
  - repeat constructor.
  - by_eval.
Defined.

Lemma filter_unique_key (v : value) (ri : nat) (rs : list row) :
  List.NoDup (map (cell ri) rs) ->
  List.length (List.filter (fun r => value_eqb v (cell ri r)) rs) <= 1.
Proof.
  induction rs as [|r rs IH]; simpl; intros Hnd; [lia|].
  inversion Hnd as [|? ? Hnot Hnd']; subst.
  destruct (value_eqb v (cell ri r)) eqn:E; [|by apply IH].
  apply value_eqb_eq in E. subst v. simpl.
  rewrite filter_none; [simpl; lia|].
  intros r' Hr'. destruct (value_eqb (cell ri r) (cell ri r')) eqn:E'; [|done].
  apply value_eqb_eq in E'. destruct Hnot. rewrite E'. by apply in_map.
Qed.

Lemma flat_map_length_ge {A B} (g : A -> list B) (l : list A) :
  (forall x, 1 <= List.length (g x)) ->
  List.length l <= List.length (flat_map g l).
Proof.
  intros H. induction l as [|x l IH]; simpl; [lia|].
  rewrite length_app. specialize (H x). lia.
Qed.

Lemma flat_map_length_one {A B} (g : A -> list B) (l : list A) :
  (forall x, List.length (g x) = 1) ->
  List.length (flat_map g l) = List.length l.
Proof.
  intros H. induction l as [|x l IH]; simpl; [lia|].
  rewrite length_app, (H x). lia.
Qed.

Lemma merge_left_count (left right : DataFrame) (lo ro ls rs : string) (out : DataFrame) :
  merge_left left right lo ro ls rs = Ok out ->
  List.length (rows left) <= List.length (rows out)
  /\ (List.NoDup (get_column right ro) ->
        List.length (rows out) = List.length (rows left)).
Proof.
  intros H.
  destruct (merge_left_inv _ _ _ _ _ _ _ H) as (li & ri & _ & Hri & Hrows & _).
  rewrite Hrows, (column_rows right ro ri Hri). unfold joined. split.
  - apply flat_map_length_ge. intros l.
    destruct (List.filter _ (rows right)); simpl; lia.
  - intros Hnd. apply flat_map_length_one. intros l.
    pose proof (filter_unique_key (cell li l) ri (rows right) Hnd) as Hle.
    destruct (List.filter _ (rows right)) as [|m ms]; [done|].
    rewrite length_map. simpl in *. lia.
Qed.

(** X13: a table that [unify_data] returns never has fewer rows than
    there are listings, and it has exactly as many when no neighbourhood
    name occurs twice in the reference table (the review summary has one
    row per listing id by construction, so the first join never
    multiplies a listing). *)
Theorem unify_data_row_count
    (listings reviews neighbourhoods idealista u : DataFrame) :
  unify_data listings reviews neighbourhoods idealista = Ok u ->
  List.length (rows listings) <= List.length (rows u)
  /\ (List.NoDup (get_column neighbourhoods "neighbourhood") ->
        List.length (rows u) = List.length (rows listings)).
Proof.
  intros Hu.
  pose proof (normalize_neighbourhoods_rows listings neighbourhoods) as Hrows.
  assert (Hnb : get_column (snd (_normalize_neighbourhoods listings neighbourhoods))
                  "neighbourhood"
                = get_column neighbourhoods "neighbourhood").
  { unfold _normalize_neighbourhoods. simpl.
    destruct (has_column neighbourhoods _); [|done]. by apply rename_get_column. }
  apply unify_data_steps in Hu as (s & l1 & Hs & H1 & H2).
  set (ln := fst _) in *. set (nn := snd _) in *.
  rewrite <- Hrows, <- Hnb.
  assert (Hfirst : List.length (rows l1) = List.length (rows ln)).
  { destruct (negb (df_empty s) && has_column ln "id").
    - eapply merge_left_count; [exact H1|]. by eapply prepare_reviews_keys.
    - by injection H1 as <-. }
  rewrite <- Hfirst.
  destruct (has_column l1 "neighbourhood" && has_column nn "neighbourhood").
  - by eapply merge_left_count.
  - injection H2 as <-. split; [lia | done].
Qed.

Lemma unify_data_row_count_sample :
  let u := mkDF ["id"; "neighbourhood"; "listing_id"; "rating"; "district"]
             [[Num (qc 1 1); Str "Centro"; Num (qc 1 1); Num (qc 9 2); Str "Distrito Centro"];
              [Num (qc 2 1); Str "Sol"; Num (qc 2 1); Num (qc 3 1); Str "Distrito Centro"]] in
  List.length (rows u) = 2.
Proof.
  intros u.
  destruct (unify_data_row_count
              (mkDF ["id"; "neighbourhood"]
                 [[Num (qc 1 1); Str "Centro"]; [Num (qc 2 1); Str "Sol"]])
              reviews_sample
              (mkDF ["neighbourhood_group"; "neighbourhood"]
                 [[Str "Distrito Centro"; Str "Centro"]; [Str "Distrito Centro"; Str "Sol"]])
              empty_frame u) as [_ H]; [by_eval|].
  rewrite H; [reflexivity|]. vm_compute.
  repeat constructor; simpl; intuition discriminate.
Defined.

Lemma existsb_value_In (v : value) (vs : list value) :
  existsb (value_eqb v) vs = true <-> In v vs.
Proof.
  rewrite existsb_exists. split.
  - intros (x & Hx & E). apply value_eqb_eq in E. by subst.
  - intros H. exists v. split; [done | by apply value_eqb_eq].
Qed.

Lemma filter_summary (f : value -> value) (v : value) (keys : list value) :
  List.NoDup keys ->
  List.filter (fun r : row => value_eqb v (cell 0 r)) (map (fun k => [k; f k]) keys)
  = if existsb (value_eqb v) keys then [[v; f v]] else [].
Proof.
  induction keys as [|k ks IH]; intros Hnd; [done|].
  inversion Hnd as [|? ? Hnot Hnd']; subst.
  cbn [map List.filter existsb]. change (cell 0 [k; f k]) with k.
  destruct (value_eqb v k) eqn:E; simpl.
  - apply value_eqb_eq in E. subst k. rewrite (IH Hnd').
    destruct (existsb (value_eqb v) ks) eqn:E'; [|done].
    by apply existsb_value_In in E'.
  - by apply IH.
Qed.

Lemma normalize_neighbourhoods_no_key (listings neighbourhoods : DataFrame) :
  ~ In "neighbourhood" (columns neighbourhoods) ->
  has_column (snd (_normalize_neighbourhoods listings neighbourhoods)) "neighbourhood"
  = false.
Proof.
  intros Hnb. unfold _normalize_neighbourhoods. simpl.
  destruct (has_column _ "neighbourhood") eqn:E; [|done].
  apply has_column_In, label_index_Some in E as [j Hj].
  destruct (has_column neighbourhoods "neighbourhood_group");
    [rewrite rename_label_index in Hj by done|];
    by apply label_index_In in Hj.
Qed.

(** X14: the first join of [unify_data].  Take listings with an [id]
    column that share no label with the review summary, reviews with
    distinct labels that have [listing_id], [rating] (numbers or missing
    values) and at least one listing id of the kind of the listings' ids,
    and neighbourhoods without a [neighbourhood] column (so that the
    second join is skipped).  Then the unified table has the listings'
    columns followed by [listing_id] and [rating], and every listing row
    is returned once, in order, with two cells appended: its id and the
    mean rating of the reviews with that id, or two missing values when
    its id is missing or has no review. *)
Theorem unify_data_attaches_ratings
    (listings reviews neighbourhoods idealista : DataFrame) (i : nat) :
  label_index "id" (columns listings) = Some i ->
  In "listing_id" (columns reviews) -> In "rating" (columns reviews) ->
  ~ Forall (fun v => v = NA) (get_column reviews "listing_id") ->
  ~ In "neighbourhood" (columns neighbourhoods) ->
  List.NoDup (columns reviews) ->
  numeric (get_column reviews "rating") ->
  List.NoDup (columns (fst (_normalize_neighbourhoods listings neighbourhoods))
              ++ ["listing_id"; "rating"]) ->
  comparable (get_column listings "id") (get_column reviews "listing_id") = true ->
  exists (u : DataFrame) (summary : value -> row),
    unify_data listings reviews neighbourhoods idealista = Ok u
    /\ columns u
       = columns (fst (_normalize_neighbourhoods listings neighbourhoods))
         ++ ["listing_id"; "rating"]
    /\ rows u = map (fun l => l ++ summary (cell i l)) (rows listings)
    /\ forall k,
         (k <> NA -> In k (get_column reviews "listing_id") ->
            summary k
            = [k; average (numbers (cells_where reviews "listing_id" k "rating"))])
         /\ (k = NA \/ ~ In k (get_column reviews "listing_id") ->
               summary k = [NA; NA]).
Proof.
  intros Hid Hl Hr Hsome Hnb _ Hnum Hnd Hc.
  set (keys := group_keys (get_column reviews "listing_id")).
  set (f := fun k => average (numbers (cells_where reviews "listing_id" k "rating"))).
  set (s := mkDF ["listing_id"; "rating"] (map (fun k => [k; f k]) keys)).
  pose proof (normalize_neighbourhoods_rows listings neighbourhoods) as Hrows.
  pose proof (normalize_neighbourhoods_no_key listings neighbourhoods Hnb) as Hno.
  assert (Hid' : label_index "id"
                   (columns (fst (_normalize_neighbourhoods listings neighbourhoods)))
                 = Some i).
  { unfold _normalize_neighbourhoods. simpl.
    destruct (has_column listings _); [|done]. by rewrite rename_label_index. }
  set (ln := fst _) in *. set (nn := snd _) in *.
  assert (Hs : _prepare_reviews reviews = Ok s).
  { by rewrite (prepare_reviews_eval reviews Hl Hr), (numeric_no_text _ _ _ Hnum). }
  assert (Hkeys : keys <> []).
  { intros E. by apply group_keys_nil in E. }
  assert (Hne : df_empty s = false).
  { unfold s, df_empty. simpl. by destruct keys. }
  set (u := mkDF (columns ln ++ ["listing_id"; "rating"])
              (flat_map (joined s i 0 false) (rows ln))).
  assert (H1 : merge_left ln s "id" "listing_id" "_x" "_y" = Ok u).
  { apply (merge_left_ok ln s "id" "listing_id" "_x" "_y" i 0 Hid' eq_refl).
    - apply occurrences_once; [by apply NoDup_app_remove_r in Hnd|].
      by eapply label_index_In.
    - reflexivity.
    - unfold s. cbn [rows]. rewrite summary_key_cells.
      rewrite Hrows, <- (column_rows listings "id" i Hid).
      by apply comparable_group_keys.
    - intros c Hin. change (String.eqb "id" "listing_id") with false. cbv iota.
      by apply (nodup_app_disjoint _ _ c Hnd). }
  exists u, (fun k => if existsb (value_eqb k) keys then [k; f k] else [NA; NA]).
  split; [|split; [done|split]].
  - apply unify_data_steps. exists s, u. fold ln nn. split; [done|].
    rewrite Hne, (proj2 (has_column_In ln "id")) by by eapply label_index_In.
    split; [done|]. by rewrite Hno, andb_false_r.
  - unfold u. cbn [rows]. rewrite Hrows. clear.
    induction (rows listings) as [|l ls IH]; simpl; [done|].
    rewrite IH. f_equal. unfold joined, s. cbn [rows columns].
    rewrite (filter_summary f (cell i l) keys) by apply group_keys_NoDup.
    by destruct (existsb (value_eqb (cell i l)) keys).
  - intros k. split.
    + intros Hk Hin.
      by rewrite (proj2 (existsb_value_In k keys)) by by apply group_keys_In.
    + intros H. destruct (existsb (value_eqb k) keys) eqn:E; [|done].
      apply existsb_value_In, group_keys_In in E. tauto.
Qed.

Lemma unify_data_attaches_ratings_sample :
  let listings := mkDF ["name"; "id"] [[Str "Loft"; Num (qc 2 1)]; [Str "Atico"; NA]] in
  let reviews := mkDF ["listing_id"; "rating"]
                   [[Num (qc 2 1); Num (qc 4 1)]; [Num (qc 2 1); Num (qc 5 1)]] in
  exists (u : DataFrame) (summary : value -> row),
    unify_data listings reviews empty_frame empty_frame = Ok u
    /\ columns u = ["name"; "id"; "listing_id"; "rating"]
    /\ rows u = map (fun l => l ++ summary (cell 1 l)) (rows listings).
Proof.
  intros listings reviews.
  destruct (unify_data_attaches_ratings listings reviews empty_frame empty_frame 1)
    as (u & summary & Hu & Hcols & Hrows & _).
  - reflexivity.
  - simpl; tauto.
  - simpl; tauto.
  - vm_compute. intros H. inversion H as [|? ? E _]. discriminate E.
  - simpl; tauto.
  - repeat constructor; simpl; intuition discriminate.
  - unfold numeric.
    change (get_column reviews "rating") with [Num (qc 4 1); Num (qc 5 1)].
    constructor; [right; by eexists|]. constructor; [right; by eexists | constructor].
  - repeat constructor; simpl; intuition discriminate.
  - reflexivity.
  - by exists u, summary.
Defined.

Lemma rename_label_index_new (old new : string) (df : DataFrame) (i : nat) :
  label_index old (columns df) = Some i -> ~ In new (columns df) ->
  label_index new (columns (rename old new df)) = Some i.
Proof.
  unfold rename. simpl. revert i.
  induction (columns df) as [|x cs IH]; simpl; intros i Hi Hnew; [done|].
  destruct (String.eqb_spec old x) as [->|Hox].
  - rewrite String.eqb_refl, String.eqb_refl. done.
  - rewrite (proj2 (String.eqb_neq x old)) by congruence.
    rewrite (proj2 (String.eqb_neq new x)) by (intros E; apply Hnew; left; congruence).
    destruct (label_index old cs) as [j|]; [|done]. simpl in Hi.
    rewrite (IH j); [done | done | tauto].
Qed.

Lemma rename_In (old new c : string) (df : DataFrame) :
  In c (columns (rename old new df))
  <-> (c = new /\ In old (columns df)) \/ (c <> old /\ In c (columns df)).
Proof.
  unfold rename. simpl. rewrite in_map_iff. split.
  - intros (x & Hx & Hin). destruct (String.eqb_spec x old) as [E|Hne].
    + left. split; congruence.
    + right. subst c. by split.
  - intros [[-> Hin]|[Hne Hin]].
    + exists old. by rewrite String.eqb_refl.
    + exists c. by rewrite (proj2 (String.eqb_neq c old)).
Qed.

Lemma rename_occurrences (old new : string) (cs : list string) :
  ~ In new cs ->
  occurrences new (map (fun c => if String.eqb c old then new else c) cs)
  = occurrences old cs.
Proof.
  unfold occurrences. induction cs as [|x cs IH]; simpl; intros Hnew; [done|].
  assert (Hx : new <> x) by (intros E; apply Hnew; left; congruence).
  destruct (String.eqb_spec x old) as [E|Hne].
  - subst x. rewrite !String.eqb_refl. simpl. rewrite IH; tauto.
  - rewrite (proj2 (String.eqb_neq new x)) by done.
    rewrite (proj2 (String.eqb_neq old x)) by congruence. apply IH. tauto.
Qed.

Lemma district_matches (reference : list row) (v : value) (l r' : row) :
  Forall (fun r : row => List.length r = 2) reference ->
  In r' (match List.filter (fun r => value_eqb v (cell 1 r)) reference with
         | [] => [l ++ replicate 1 NA]
         | ms => map (fun r => l ++ drop_at 1 r) ms
         end)
  <-> (exists g, In [g; v] reference /\ r' = l ++ [g])
      \/ ((forall g, ~ In [g; v] reference) /\ r' = l ++ [NA]).
Proof.
  intros Hshape. rewrite Forall_forall in Hshape.
  set (ms := List.filter _ reference).
  assert (Hms : forall r, In r ms <-> exists g, r = [g; v] /\ In [g; v] reference).
  { intros r. unfold ms. rewrite filter_In. split.
    - intros [Hin E]. apply value_eqb_eq in E.
      pose proof (Hshape r (proj2 (list_elem_of_In _ _) Hin)) as Hlen.
      destruct r as [|g [|n [|]]]; try discriminate Hlen.
      change (cell 1 [g; n]) with n in E. subst v. by exists g.
    - intros (g & -> & Hin). split; [done|]. by apply value_eqb_eq. }
  clearbody ms. destruct ms as [|m ms].
  - split.
    + intros [<-|[]]. right. split; [|done].
      intros g Hg. apply (Hms [g; v]). by exists g.
    + intros [(g & Hg & _)|[_ ->]]; [|by left].
      destruct (proj2 (Hms [g; v])). by exists g.
  - rewrite in_map_iff. split.
    + intros (r & <- & Hr). apply Hms in Hr as (g & -> & Hin). left. by exists g.
    + intros [(g & Hg & ->)|[Hnone _]].
      * exists [g; v]. split; [done|]. apply Hms. by exists g.
      * destruct (proj1 (Hms m)) as (g & _ & Hin); [by left|]. by destruct (Hnone g).
Qed.

(** X15: the second join of [unify_data].  Take listings that have rows
    and distinct labels, that name their neighbourhood in
    [neighbourhood_cleansed] and have no [neighbourhood] or [district]
    column of their own, reviews without [listing_id], and a reference
    table with the columns [neighbourhood_group] and [neighbourhood] whose
    names are of the kind of the listings' neighbourhoods.  Then the
    unified table has the listings' columns, the neighbourhood one
    renamed, followed by [district]; its rows are the listing rows, each
    followed by the group of a reference row for its neighbourhood, or by
    a missing value when the reference has none. *)
Theorem unify_data_attaches_district
    (listings reviews neighbourhoods idealista : DataFrame) (i : nat) :
  label_index "neighbourhood_cleansed" (columns listings) = Some i ->
  List.NoDup (columns listings) ->
  rows listings <> [] ->
  ~ In "neighbourhood" (columns listings) ->
  ~ In "district" (columns listings) ->
  ~ In "listing_id" (columns reviews) ->
  columns neighbourhoods = ["neighbourhood_group"; "neighbourhood"] ->
  rectangular neighbourhoods ->
  comparable (get_column listings "neighbourhood_cleansed")
    (get_column neighbourhoods "neighbourhood") = true ->
  exists u,
    unify_data listings reviews neighbourhoods idealista = Ok u
    /\ columns u
       = map (fun c => if String.eqb c "neighbourhood_cleansed" then "neighbourhood" else c)
           (columns listings) ++ ["district"]
    /\ forall r', In r' (rows u)
         <-> exists l, In l (rows listings)
               /\ ((exists g, In [g; cell i l] (rows neighbourhoods) /\ r' = l ++ [g])
                   \/ ((forall g, ~ In [g; cell i l] (rows neighbourhoods))
                       /\ r' = l ++ [NA])).
Proof.
  intros Hi Hnd _ Hn Hd Hrev Hcols Hrect Hc.
  destruct neighbourhoods as [nc nr]. simpl in Hcols. subst nc.
  unfold rectangular in Hrect. simpl in Hrect.
  assert (Hin : In "neighbourhood_cleansed" (columns listings))
    by by eapply label_index_In.
  set (ln := rename "neighbourhood_cleansed" "neighbourhood" listings).
  set (nn := mkDF ["district"; "neighbourhood"] nr).
  assert (Hln : label_index "neighbourhood" (columns ln) = Some i)
    by by apply rename_label_index_new.
  assert (Hdist : ~ In "district" (columns ln)).
  { intros H. apply rename_In in H as [[E _]|[_ H]]; [discriminate | done]. }
  set (u := mkDF (columns ln ++ ["district"]) (flat_map (joined nn i 1 true) (rows ln))).
  assert (Hm : merge_left ln nn "neighbourhood" "neighbourhood" "" "_ref" = Ok u).
  { apply (merge_left_ok ln nn "neighbourhood" "neighbourhood" "" "_ref" i 1 Hln eq_refl).
    - unfold ln, rename. cbn [columns]. rewrite rename_occurrences by done.
      by apply occurrences_once.
    - reflexivity.
    - unfold ln, rename, nn. cbn [rows].
      rewrite <- (column_rows listings _ i Hi).
      by rewrite (column_rows (mkDF ["neighbourhood_group"; "neighbourhood"] nr)
                    "neighbourhood" 1 eq_refl) in Hc.
    - intros c Hc'. change (String.eqb "neighbourhood" "neighbourhood") with true.
      cbv iota. change (drop_at 1 (columns nn)) with ["district"].
      intros [<-|[]]. done. }
  exists u. split; [|split; [done|]].
  - apply unify_data_steps. exists empty_frame, ln.
    unfold _normalize_neighbourhoods, _prepare_reviews. cbn [fst snd].
    rewrite (proj2 (has_column_In listings _) Hin). fold ln.
    destruct (has_column reviews "listing_id") eqn:E;
      [by apply has_column_In in E|].
    split; [done|]. split; [done|].
    rewrite (proj2 (has_column_In ln "neighbourhood")) by by eapply label_index_In.
    exact Hm.
  - intros r'. unfold u. cbn [rows]. rewrite in_flat_map. unfold ln, rename. cbn [rows].
    split.
    + intros (l & Hl & Hr). exists l. split; [done|].
      by apply (district_matches nr (cell i l) l r' Hrect).
    + intros (l & Hl & Hr). exists l. split; [done|].
      by apply (district_matches nr (cell i l) l r' Hrect).
Qed.

Lemma unify_data_attaches_district_sample :
  let listings := mkDF ["name"; "neighbourhood_cleansed"]
                    [[Str "Loft"; Str "Sol"]; [Str "Atico"; Str "Goya"]] in
  let neighbourhoods := mkDF ["neighbourhood_group"; "neighbourhood"]
                          [[Str "Centro"; Str "Sol"]] in
  exists u,
    unify_data listings empty_frame neighbourhoods empty_frame = Ok u
    /\ columns u = ["name"; "neighbourhood"; "district"].
Proof.
  intros listings neighbourhoods.
  destruct (unify_data_attaches_district listings empty_frame neighbourhoods empty_frame 1)
    as (u & Hu & Hcols & _).
  - reflexivity.
  - repeat constructor; simpl; intuition discriminate.
  - discriminate.
  - simpl. intuition discriminate.
  - simpl. intuition discriminate.
  - simpl. tauto.
  - reflexivity.
  - repeat constructor.
  - reflexivity.
  - exists u. by split.
Defined.

(** ** The ranking section of the page *)

Lemma chart_of_ranking (out : DataFrame) (metric : string) :
  out = empty_frame \/ (columns out = ["district"; metric] /\ rectangular out) ->
  chart out metric
  = Ok (if df_empty out then None
        else Some (map (fun r => (cell 0 r, cell 1 r)) (rows out))).
Proof.
  intros [->|[Hcols Hrect]]; [done|].
  unfold chart. destruct (df_empty out); [done|]. simpl.
  unfold indexed_series. rewrite Hcols. simpl.
  rewrite String.eqb_refl. do 2 f_equal.
  apply map_ext_in. intros r Hr.
  unfold rectangular in Hrect. rewrite Forall_forall, Hcols in Hrect.
  pose proof (Hrect r (proj2 (list_elem_of_In _ _) Hr)) as Hlen.
  by destruct r as [|a [|b [|]]].
Qed.

Lemma price_by_area_cases (df : DataFrame) (level : string) :
  In level levels ->
  (~ In level (columns df) -> price_by_area df level = Ok empty_frame)
  /\ (In level (columns df) -> ~ In "precio_noche" (columns df) ->
        price_by_area df level = Raise (KeyError "precio_noche"))
  /\ (In level (columns df) -> In "precio_noche" (columns df) ->
      numeric (get_column df "precio_noche") ->
        exists out, price_by_area df level = Ok out).
Proof.
  intros Hlevel. destruct (level_not_metric level Hlevel) as (Hp1 & Hp2 & Ho1 & Ho2).
  apply mem_In in Hlevel.
  unfold price_by_area. rewrite Hlevel. simpl. split; [|split].
  - intros H. destruct (has_column df level) eqn:E; [|done]. by apply has_column_In in E.
  - intros Hin Hno. rewrite (proj2 (has_column_In _ _) Hin). simpl.
    unfold select2. destruct (label_index_Some _ _ Hin) as [i ->].
    by rewrite (label_index_None _ _ Hno).
  - intros Hin Hm Hnum. rewrite (proj2 (has_column_In _ _) Hin). simpl.
    destruct (select2_ok df level _ Hin Hm) as [sel Hsel]. rewrite Hsel.
    destruct (ranking_of_numbers df level _ "precio_medio" sel Hp1 Hp2 Hsel Hnum)
      as (res & Hres & _).
    eauto.
Qed.

Lemma occupancy_by_area_cases (df : DataFrame) (level : string) :
  In level levels ->
  (~ In level (columns df) -> occupancy_by_area df level = Ok empty_frame)
  /\ (In level (columns df) -> ~ In "ocupacion_estimada" (columns df) ->
        occupancy_by_area df level = Raise (KeyError "ocupacion_estimada"))
  /\ (In level (columns df) -> In "ocupacion_estimada" (columns df) ->
      numeric (get_column df "ocupacion_estimada") ->
        exists out, occupancy_by_area df level = Ok out).
Proof.
  intros Hlevel. destruct (level_not_metric level Hlevel) as (Hp1 & Hp2 & Ho1 & Ho2).
  apply mem_In in Hlevel.
  unfold occupancy_by_area. rewrite Hlevel. simpl. split; [|split].
  - intros H. destruct (has_column df level) eqn:E; [|done]. by apply has_column_In in E.
  - intros Hin Hno. rewrite (proj2 (has_column_In _ _) Hin). simpl.
    unfold select2. destruct (label_index_Some _ _ Hin) as [i ->].
    by rewrite (label_index_None _ _ Hno).
  - intros Hin Hm Hnum. rewrite (proj2 (has_column_In _ _) Hin). simpl.
    destruct (select2_ok df level _ Hin Hm) as [sel Hsel]. rewrite Hsel.
    destruct (ranking_of_numbers df level _ "ocupacion_media" sel Ho1 Ho2 Hsel Hnum)
      as (res & Hres & _).
    eauto.
Qed.

Lemma ranking_section_returns (df : DataFrame) (tp to : DataFrame) :
  price_by_area df "district" = Ok tp ->
  occupancy_by_area df "district" = Ok to ->
  ranking_section df
  = Ok (mkRankings tp to
          (if df_empty tp then None
           else Some (map (fun r => (cell 0 r, cell 1 r)) (rows tp)))
          (if df_empty to then None
           else Some (map (fun r => (cell 0 r, cell 1 r)) (rows to)))).
Proof.
  intros Hp Ho. unfold ranking_section. rewrite Hp, Ho.
  destruct (ranking_shape df "district") as [Sp So].
  by rewrite (chart_of_ranking tp _ (Sp tp Hp)), (chart_of_ranking to _ (So to Ho)).
Qed.

(** X16: the charts of the ranking section never fail.  When both
    rankings by district return, the section returns them together with
    one series per ranking that is not empty, pairing each district with
    its mean, and no series for an empty ranking; so the section raises
    only an error that one of the two rankings raised. *)
Theorem ranking_section_charts_safe (df : DataFrame) :
  (forall tp to,
     price_by_area df "district" = Ok tp ->
     occupancy_by_area df "district" = Ok to ->
     ranking_section df
     = Ok (mkRankings tp to
             (if df_empty tp then None
              else Some (map (fun r => (cell 0 r, cell 1 r)) (rows tp)))
             (if df_empty to then None
              else Some (map (fun r => (cell 0 r, cell 1 r)) (rows to)))))
  /\ (forall e, ranking_section df = Raise e ->
        price_by_area df "district" = Raise e
        \/ occupancy_by_area df "district" = Raise e).
Proof.
  split; [apply ranking_section_returns|].
  intros e He.
  destruct (price_by_area df "district") as [tp|e1] eqn:Hp.
  - destruct (occupancy_by_area df "district") as [to|e2] eqn:Ho.
    + by rewrite (ranking_section_returns df tp to Hp Ho) in He.
    + right. unfold ranking_section in He. rewrite Hp, Ho in He. congruence.
  - left. unfold ranking_section in He. rewrite Hp in He. congruence.
Qed.

Lemma ranking_section_charts_sample :
  exists r, ranking_section
              (mkDF ["district"; "precio_noche"; "ocupacion_estimada"]
                 [[Str "Centro"; Num (qc 80 1); NA]]) = Ok r
            /\ price_chart r = Some [(Str "Centro", Num (qc 80 1))]
            /\ occupancy_chart r = None.
Proof.
  destruct (ranking_section_charts_safe
              (mkDF ["district"; "precio_noche"; "ocupacion_estimada"]
                 [[Str "Centro"; Num (qc 80 1); NA]])) as [H _].
  eexists. split; [apply H; reflexivity|]. split; by_eval.
Defined.

Section SectionOfCleaned.
Context {cal : Calendar}.


End SectionOfCleaned.


(** ** Price texts and numeric price columns *)

Lemma remove_char_app (c : ascii) (a b : string) :
  Text.remove (String c "") (a ++ b)%string
  = (Text.remove (String c "") a ++ Text.remove (String c "") b)%string.
Proof.
  unfold Text.remove. induction a as [|x a IH]; [done|].
  cbn. destruct (Ascii.eqb c x); cbn; by rewrite IH.
Qed.

Section PriceCells.
Context {cal : Calendar}.

Lemma price_value_number (v : value) :
  v = NA \/ (exists q, v = Num q /\ Numeric.terminating (Qden q)) ->
  price_value v = v.
Proof.
  intros [->|(q & -> & Hq)]; [done|].
  unfold price_value. simpl as_text.
  by rewrite price_text_number, NumericFacts.parse_to_text.
Qed.


(** X19: a dollar sign is ignored wherever it stands in a price text,
    and so is a euro sign, a comma or a space at its start: the value
    read is that of the text without it. *)
Theorem price_value_ignores_signs (a b : string) :
  price_value (Str (a ++ "$" ++ b)) = price_value (Str (a ++ b))
  /\ price_value (Str (Text.euro ++ b)) = price_value (Str b)
  /\ price_value (Str ("," ++ b)) = price_value (Str b)
  /\ price_value (Str (" " ++ b)) = price_value (Str b).
Proof.
  unfold price_value, price_text. simpl as_text. split; [|split; [|split]].
  - rewrite !remove_char_app. reflexivity.
  - reflexivity.
  - reflexivity.
  - reflexivity.
Qed.



End PriceCells.




(** ** Normalised labels *)

Lemma rename_duplicates (old new : string) (df : DataFrame) :
  old <> new -> In old (columns df) -> In new (columns df) ->
  ~ List.NoDup (columns (rename old new df)).
Proof.
  intros Hne Ho Hn Hnd. apply NoDup_ListNoDup in Hnd.
  apply list_elem_of_In, list_elem_of_lookup in Ho as [i Hi].
  apply list_elem_of_In, list_elem_of_lookup in Hn as [j Hj].
  assert (Hij : i <> j) by (intros ->; congruence).
  apply Hij. apply (NoDup_lookup _ i j new Hnd); unfold rename; simpl;
    rewrite list_lookup_fmap.
  - rewrite Hi. simpl. by rewrite String.eqb_refl.
  - rewrite Hj. simpl. by rewrite (proj2 (String.eqb_neq new old)) by congruence.
Qed.

(** X22: [_normalize_neighbourhoods] changes labels only.  Both tables
    keep their rows and every column under another label; afterwards the
    listings have no [neighbourhood_cleansed] column and have
    [neighbourhood] exactly when they had one of the two, and the
    reference has no [neighbourhood_group] column and has [district]
    exactly when it had one of the two.  Listings that had both labels end
    up with the label [neighbourhood] twice. *)
Theorem normalize_neighbourhoods_labels (listings neighbourhoods : DataFrame) :
  let ln := fst (_normalize_neighbourhoods listings neighbourhoods) in
  let nn := snd (_normalize_neighbourhoods listings neighbourhoods) in
  rows ln = rows listings /\ rows nn = rows neighbourhoods
  /\ ~ In "neighbourhood_cleansed" (columns ln)
  /\ ~ In "neighbourhood_group" (columns nn)
  /\ (In "neighbourhood" (columns ln)
      <-> In "neighbourhood" (columns listings)
          \/ In "neighbourhood_cleansed" (columns listings))
  /\ (In "district" (columns nn)
      <-> In "district" (columns neighbourhoods)
          \/ In "neighbourhood_group" (columns neighbourhoods))
  /\ (forall c, c <> "neighbourhood_cleansed" -> c <> "neighbourhood" ->
        get_column ln c = get_column listings c)
  /\ (forall c, c <> "neighbourhood_group" -> c <> "district" ->
        get_column nn c = get_column neighbourhoods c)
  /\ (In "neighbourhood_cleansed" (columns listings) ->
      In "neighbourhood" (columns listings) ->
        ~ List.NoDup (columns ln)).
Proof.
  unfold _normalize_neighbourhoods. cbn [fst snd].
  destruct (has_column listings "neighbourhood_cleansed") eqn:El;
    destruct (has_column neighbourhoods "neighbourhood_group") eqn:En;
    (split; [done|]); (split; [done|]);
    try apply has_column_In in El; try apply has_column_In in En;
    try (assert (El' : ~ In "neighbourhood_cleansed" (columns listings))
           by (intros H; apply has_column_In in H; congruence));
    try (assert (En' : ~ In "neighbourhood_group" (columns neighbourhoods))
           by (intros H; apply has_column_In in H; congruence));
    rewrite ?rename_In;
    (split; [intuition congruence|]); (split; [intuition congruence|]);
    (split; [intuition congruence|]); (split; [intuition congruence|]);
    (split; [intros c H1 H2; by rewrite ?rename_get_column|]);
    (split; [intros c H1 H2; by rewrite ?rename_get_column|]);
    intros H1 H2; try done; by apply rename_duplicates.
Qed.

Lemma normalize_neighbourhoods_labels_sample :
  ~ List.NoDup
      (columns (fst (_normalize_neighbourhoods
                       (mkDF ["neighbourhood"; "neighbourhood_cleansed"]
                          [[Str "Sol"; Str "Sol"]])
                       empty_frame))).
Proof.
  destruct (normalize_neighbourhoods_labels
              (mkDF ["neighbourhood"; "neighbourhood_cleansed"] [[Str "Sol"; Str "Sol"]])
              empty_frame) as (_ & _ & _ & _ & _ & _ & _ & _ & H).
  apply H; simpl; tauto.
Defined.

(** ** The order of the rows does not matter *)

Lemma string_leb_trans (a b c : string) :
  String.leb a b = true -> String.leb b c = true -> String.leb a c = true.
Proof.
  unfold String.leb. revert b c.
  induction a as [|x a IH]; intros [|y b] [|z c]; simpl; try done.
  unfold Ascii.compare.
  destruct (N.compare_spec (N_of_ascii x) (N_of_ascii y)) as [E1|E1|E1];
    destruct (N.compare_spec (N_of_ascii y) (N_of_ascii z)) as [E2|E2|E2];
    destruct (N.compare_spec (N_of_ascii x) (N_of_ascii z)) as [E3|E3|E3];
    try done; try lia.
  apply IH.
Qed.

Lemma value_leb_trans (a b c : value) :
  value_leb a b = true -> value_leb b c = true -> value_leb a c = true.
Proof.
  destruct a, b, c; simpl; try done.
  - rewrite !Qle_bool_iff. apply Qle_trans.
  - apply string_leb_trans.
  - rewrite !Z.leb_le. lia.
Qed.

Lemma value_leb_antisym (a b : value) :
  value_leb a b = true -> value_leb b a = true -> a = b.
Proof.
  destruct a, b; simpl; try done.
  - rewrite !Qle_bool_iff. intros H1 H2. f_equal.
    apply Qc_is_canon. by apply Qle_antisym.
  - intros H1 H2. f_equal. by apply String.leb_antisym.
  - rewrite !Z.leb_le. intros H1 H2. f_equal. lia.
Qed.

Lemma sorted_unique (l l' : list value) :
  Sorted (fun a b => value_leb a b = true) l ->
  Sorted (fun a b => value_leb a b = true) l' ->
  List.NoDup l -> List.NoDup l' ->
  (forall x, In x l <-> In x l') ->
  l = l'.
Proof.
  intros Hs Hs'.
  assert (Htrans : Relations_1.Transitive (fun a b => value_leb a b = true)).
  { intros a b c. apply value_leb_trans. }
  apply (Sorted_StronglySorted Htrans) in Hs, Hs'. clear Htrans.
  revert l' Hs'. induction Hs as [|x l Hs IH Hx]; intros l' Hs' Hnd Hnd' Hin.
  - destruct l' as [|y l']; [done|]. destruct (proj2 (Hin y)). by left.
  - destruct Hs' as [|y l' Hs' Hy].
    { destruct (proj1 (Hin x)). by left. }
    inversion Hnd as [|? ? Hxl Hnd1]; subst.
    inversion Hnd' as [|? ? Hyl Hnd1']; subst.
    rewrite Forall_forall in Hx. rewrite Forall_forall in Hy.
    assert (Exy : x = y).
    { destruct (proj1 (Hin x) ltac:(by left)) as [E|Hx']; [done|].
      destruct (proj2 (Hin y) ltac:(by left)) as [E|Hy']; [done|].
      apply value_leb_antisym.
      - by apply Hx, list_elem_of_In.
      - by apply Hy, list_elem_of_In. }
    subst y. f_equal. apply IH; [done | done | done |].
    intros z. split; intros Hz.
    + destruct (proj1 (Hin z) ltac:(by right)) as [E|H]; [by subst|done].
    + destruct (proj2 (Hin z) ltac:(by right)) as [E|H]; [by subst|done].
Qed.

Lemma group_keys_same_elements (l l' : list value) :
  (forall x, In x l <-> In x l') -> group_keys l = group_keys l'.
Proof.
  intros H. apply sorted_unique;
    [apply group_keys_sorted | apply group_keys_sorted
     | apply group_keys_NoDup | apply group_keys_NoDup |].
  intros x. rewrite !group_keys_In, H. done.
Qed.

Lemma filter_perm {A} (f : A -> bool) (l l' : list A) :
  Permutation l l' -> Permutation (List.filter f l) (List.filter f l').
Proof.
  induction 1 as [|x l l' _ IH|x y l|l l' l'' _ IH1 _ IH2]; simpl.
  - done.
  - destruct (f x); [by constructor | done].
  - destruct (f x), (f y); try done. apply perm_swap.
  - by etransitivity.
Qed.

Lemma existsb_perm {A} (f : A -> bool) (l l' : list A) :
  Permutation l l' -> existsb f l = existsb f l'.
Proof.
  induction 1 as [|x l l' _ IH|x y l|l l' l'' _ IH1 _ IH2]; simpl.
  - done.
  - by rewrite IH.
  - by destruct (f x), (f y).
  - congruence.
Qed.

Lemma pairs_perm (df df' : DataFrame) (a b : string) :
  columns df' = columns df -> In a (columns df) -> In b (columns df) ->
  Permutation (rows df) (rows df') ->
  Permutation (pairs df a b) (pairs df' a b).
Proof.
  intros Hc Ha Hb Hp.
  destruct (label_index_Some _ _ Ha) as [i Hi].
  destruct (label_index_Some _ _ Hb) as [j Hj].
  rewrite (pairs_rows df a b i j Hi Hj).
  rewrite (pairs_rows df' a b i j) by by rewrite Hc.
  by apply Permutation_map.
Qed.

Lemma select2_columns (df : DataFrame) (a b : string) (sel : DataFrame) :
  select2 df a b = Ok sel -> In a (columns df) /\ In b (columns df).
Proof.
  unfold select2.
  destruct (label_index a (columns df)) eqn:Hi; [|done].
  destruct (label_index b (columns df)) eqn:Hj; [|done].
  intros _. split; by eapply label_index_In.
Qed.

(** The areas of a ranking that is returned. *)
Lemma ranking_ok_areas (df : DataFrame) (level metric out : string)
    (sel res : DataFrame) :
  level <> metric -> level <> out ->
  select2 df level metric = Ok sel ->
  match groupby_mean (dropna sel) level metric out with
  | Raise e => Raise e
  | Ok grouped => Ok (sort_values_desc grouped out)
  end = Ok res ->
  columns res = [level; out]
  /\ List.NoDup (get_column res level)
  /\ (forall k, In k (get_column res level) <->
        exists m, In (k, m) (pairs df level metric) /\ k <> NA /\ m <> NA).
Proof.
  intros Hne1 Hne2 Hsel Hres.
  assert (Hno : text_among (List.filter complete (pairs df level metric)) = false).
  { rewrite (ranking_eval df level metric out sel Hne1 Hsel) in Hres.
    by destruct (text_among _). }
  destruct (ranking_spec df level metric out sel Hne1 Hne2 Hsel Hno)
    as (areas & Heq & Hnd & Hin & _).
  rewrite Heq in Hres. injection Hres as <-.
  by rewrite summary_key_column.
Qed.

(** The core of a ranking on two tables with the same rows in another
    order: the same failure, or the same areas. *)
Lemma ranking_order (df df' : DataFrame) (level metric out : string) :
  level <> metric -> level <> out ->
  columns df' = columns df -> Permutation (rows df) (rows df') ->
  let ranking (d : DataFrame) :=
    match select2 d level metric with
    | Raise e => Raise e
    | Ok sel =>
        match groupby_mean (dropna sel) level metric out with
        | Raise e => Raise e
        | Ok grouped => Ok (sort_values_desc grouped out)
        end
    end in
  (forall e, ranking df = Raise e <-> ranking df' = Raise e)
  /\ (forall res res', ranking df = Ok res -> ranking df' = Ok res' ->
        columns res' = columns res
        /\ Permutation (get_column res level) (get_column res' level)).
Proof.
  intros Hne1 Hne2 Hc Hp ranking. unfold ranking.
  assert (Hsel : (exists sel sel', select2 df level metric = Ok sel
                                   /\ select2 df' level metric = Ok sel')
                 \/ (exists e, select2 df level metric = Raise e
                               /\ select2 df' level metric = Raise e)).
  { unfold select2. rewrite Hc.
    destruct (label_index level (columns df)), (label_index metric (columns df)); eauto. }
  destruct Hsel as [(sel & sel' & Hs & Hs')|(e0 & Hs & Hs')]; rewrite Hs, Hs';
    [|split; [done | intros res res' H; discriminate H]].
  destruct (select2_columns _ _ _ _ Hs) as [Hl Hm].
  pose proof (pairs_perm df df' level metric Hc Hl Hm Hp) as Hpairs.
  split.
  - intros e.
    rewrite (ranking_eval df level metric out sel Hne1 Hs).
    rewrite (ranking_eval df' level metric out sel' Hne1 Hs').
    unfold text_among.
    rewrite (existsb_perm _ _ _ (filter_perm complete _ _ Hpairs)).
    by destruct (existsb _ _).
  - intros res res' Hres Hres'.
    destruct (ranking_ok_areas df level metric out sel res Hne1 Hne2 Hs Hres)
      as (Hcols & Hnd & Hin).
    destruct (ranking_ok_areas df' level metric out sel' res' Hne1 Hne2 Hs' Hres')
      as (Hcols' & Hnd' & Hin').
    split; [congruence|].
    apply NoDup_Permutation; [by apply NoDup_ListNoDup | by apply NoDup_ListNoDup |].
    intros k. rewrite !list_elem_of_In, Hin, Hin'.
    split; intros (m & H & Hk); exists m; (split; [|done]);
      eapply Permutation_in; try exact H; [done | by symmetry].
Qed.

(** X23: which areas a ranking lists does not depend on the order of the
    rows.  For two tables with the same columns whose rows are a
    rearrangement of each other, [price_by_area] raises the same error on
    both or returns on both, and the two frames returned have the same
    columns and list the same areas; likewise [occupancy_by_area].  (The
    means are left out: a floating-point sum may differ in its last
    digits with the order of its terms.) *)
Theorem rankings_ignore_row_order (df df' : DataFrame) (level : string) :
  columns df' = columns df -> Permutation (rows df) (rows df') ->
  ((forall e, price_by_area df level = Raise e <-> price_by_area df' level = Raise e)
   /\ (forall out out',
         price_by_area df level = Ok out -> price_by_area df' level = Ok out' ->
         columns out' = columns out
         /\ Permutation (get_column out level) (get_column out' level)))
  /\ ((forall e, occupancy_by_area df level = Raise e
                 <-> occupancy_by_area df' level = Raise e)
      /\ (forall out out',
            occupancy_by_area df level = Ok out -> occupancy_by_area df' level = Ok out' ->
            columns out' = columns out
            /\ Permutation (get_column out level) (get_column out' level))).
Proof.
  intros Hc Hp.
  unfold price_by_area, occupancy_by_area, has_column. rewrite Hc.
  destruct (mem level levels) eqn:Hm; simpl;
    [|split; split; (done || intros out out' H; discriminate H)].
  apply mem_In in Hm. destruct (level_not_metric level Hm) as (Hp1 & Hp2 & Ho1 & Ho2).
  destruct (existsb _ (columns df)); simpl.
  - split.
    + exact (ranking_order df df' level "precio_noche" "precio_medio" Hp1 Hp2 Hc Hp).
    + exact (ranking_order df df' level "ocupacion_estimada" "ocupacion_media"
               Ho1 Ho2 Hc Hp).
  - split; (split; [done|]); intros out out' [= <-] [= <-]; done.
Qed.

Lemma rankings_ignore_row_order_sample :
  let out := mkDF ["district"; "precio_medio"]
               [[Str "B"; Num (qc 30 1)]; [Str "A"; Num (qc 10 1)]] in
  columns out = columns out
  /\ Permutation (get_column out "district") (get_column out "district").
Proof.
  intros out.
  destruct (rankings_ignore_row_order
              (mkDF ["district"; "precio_noche"]
                 [[Str "A"; Num (qc 10 1)]; [Str "B"; Num (qc 30 1)]])
              (mkDF ["district"; "precio_noche"]
                 [[Str "B"; Num (qc 30 1)]; [Str "A"; Num (qc 10 1)]])
              "district") as [[_ H] _].
  - reflexivity.
  - apply perm_swap.
  - apply (H out out); by_eval.
Defined.

(** X24: the review summary does not depend on the order of the reviews
    in what it lists.  For reviews with the same columns whose rows are a
    rearrangement of each other, [_prepare_reviews] raises the same error
    on both or returns on both, and the two summaries have the same
    columns and the same column of listing ids.  (The means are left
    out, as above.) *)
Theorem reviews_order_is_irrelevant (reviews reviews' : DataFrame) :
  columns reviews' = columns reviews -> Permutation (rows reviews) (rows reviews') ->
  (forall e, _prepare_reviews reviews = Raise e <-> _prepare_reviews reviews' = Raise e)
  /\ (forall s s', _prepare_reviews reviews = Ok s -> _prepare_reviews reviews' = Ok s' ->
        columns s' = columns s
        /\ get_column s' "listing_id" = get_column s "listing_id").
Proof.
  intros Hc Hp.
  destruct (has_column reviews "listing_id") eqn:El.
  - destruct (has_column reviews "rating") eqn:Er.
    + apply has_column_In in El, Er.
      rewrite (prepare_reviews_eval reviews El Er).
      rewrite (prepare_reviews_eval reviews') by by rewrite Hc.
      pose proof (pairs_perm reviews reviews' "listing_id" "rating" Hc El Er Hp)
        as Hpairs.
      destruct (label_index_Some _ _ El) as [i Hi].
      assert (Hkeys : Permutation (get_column reviews' "listing_id")
                        (get_column reviews "listing_id")).
      { rewrite (column_rows reviews _ i Hi).
        rewrite (column_rows reviews' _ i) by by rewrite Hc.
        apply Permutation_map. by symmetry. }
      unfold text_among. rewrite <- (existsb_perm _ _ _ Hpairs).
      destruct (existsb _ (pairs reviews "listing_id" "rating"));
        [split; [done | intros s s' H; discriminate H]|].
      split; [done|]. intros s s' [= <-] [= <-]. split; [done|].
      rewrite !summary_key_column. apply group_keys_same_elements.
      intros x. split; apply Permutation_in; [done | by symmetry].
    + unfold _prepare_reviews, has_column in *. rewrite Hc, El, Er. simpl.
      split; [done|]. by intros s s' [= <-] [= <-].
  - unfold _prepare_reviews, has_column in *. rewrite Hc, El. simpl.
    split; [done|]. by intros s s' [= <-] [= <-].
Qed.

Lemma reviews_order_is_irrelevant_sample :
  let s := mkDF ["listing_id"; "rating"]
             [[Num (qc 1 1); Num (qc 4 1)]; [Num (qc 2 1); Num (qc 3 1)]] in
  columns s = columns s /\ get_column s "listing_id" = get_column s "listing_id".
Proof.
  intros s.
  destruct (reviews_order_is_irrelevant
              (mkDF ["listing_id"; "rating"]
                 [[Num (qc 1 1); Num (qc 4 1)]; [Num (qc 2 1); Num (qc 3 1)]])
              (mkDF ["listing_id"; "rating"]
                 [[Num (qc 2 1); Num (qc 3 1)]; [Num (qc 1 1); Num (qc 4 1)]]))
    as [_ H].
  - reflexivity.
  - apply perm_swap.
  - apply (H s s); by_eval.
Defined.

Lemma first_occurrences_sublist {A} (eqb : A -> A -> bool) (seen l : list A) :
  sublist (first_occurrences eqb seen l) l.
Proof.
  revert seen. induction l as [|x l IH]; intros seen; simpl; [constructor|].
  destruct (existsb (eqb x) seen).
  - apply sublist_cons, IH.
  - apply sublist_skip, IH.
Qed.

Section Deduplication.
Context {cal : Calendar}.


End Deduplication.

